(** * Advisor voice agent: a shallow embedding of [backend/main.py]

    The development follows the layout of the Python module: text
    primitives and the regular expressions it uses, the PII guard, the
    booking-code helpers, the extraction adapter with its local fallback
    parser, the slot selector and finally the dialogue engine
    [next_agent_reply], which mutates the global [STATE] and [BOOKINGS]
    dictionaries.

    Modelling conventions.
    - Text is a [string] of ASCII characters ([ascii_only]): on such a
      text Python's case mapping, white space, digits and word
      characters are the ASCII ones defined in [Text].  A text with other
      characters is outside the model, since [str] and [re] classify
      those by the Unicode tables; the statements that describe a text
      by its characters therefore assume [ascii_only].
    - A JSON value held in a Python dict is a [pyval]; the engine only
      ever asks whether such a value is [None], a [str], or something
      else with a given truthiness.
    - The module-level dictionaries [STATE] and [BOOKINGS] form the
      [World] threaded through every turn.  A Python exception leaves
      the mutations made so far in place, as in the interpreter.
    - The remote model, [json.loads] and the random generator are
      outside the module: the first and the last are fields of the
      per-turn environment [Env], the second is a section variable. *)

From Stdlib Require Import Ascii String.
From Stdlib Require Import DecimalString.
From stdpp Require Import gmap strings list.

Set Default Proof Using "Type".

(** ** Characters and text *)

Module Text.

Definition code (c : ascii) : nat := nat_of_ascii c.

Definition in_range (lo hi : nat) (c : ascii) : bool :=
  (lo <=? code c) && (code c <=? hi).

Definition is_upper : ascii → bool := in_range 65 90.
Definition is_lower : ascii → bool := in_range 97 122.
Definition is_alpha (c : ascii) : bool := is_upper c || is_lower c.
Definition is_digit : ascii → bool := in_range 48 57.

(** The character classes of [str] and [re] on ASCII characters.
    [str.isspace]: TAB..CR, FS..US and the blank. *)
Definition is_space (c : ascii) : bool := in_range 9 13 c || in_range 28 32 c.

(** The class [\w] on ASCII characters. *)
Definition is_word (c : ascii) : bool :=
  is_alpha c || is_digit c || Ascii.eqb c "_".

Definition to_lower (c : ascii) : ascii :=
  if is_upper c then ascii_of_nat (code c + 32) else c.

Definition to_upper (c : ascii) : ascii :=
  if is_lower c then ascii_of_nat (code c - 32) else c.

Definition chars (s : string) : list ascii := list_ascii_of_string s.
Definition text (l : list ascii) : string := string_of_list_ascii l.

(** [s.lower()], [s.upper()] *)
Definition lower (s : string) : string := text (map to_lower (chars s)).
Definition upper (s : string) : string := text (map to_upper (chars s)).

Fixpoint lstrip_l (l : list ascii) : list ascii :=
  match l with
  | c :: l' => if is_space c then lstrip_l l' else l
  | [] => []
  end.

Definition rstrip_l (l : list ascii) : list ascii := rev (lstrip_l (rev l)).

Definition strip_l (l : list ascii) : list ascii := rstrip_l (lstrip_l l).

(** [s.strip()] *)
Definition strip (s : string) : string := text (strip_l (chars s)).

(** [needle in hay] *)
Fixpoint contains (needle hay : string) : bool :=
  String.prefix needle hay ||
  match hay with
  | String _ hay' => contains needle hay'
  | EmptyString => false
  end.

(** [any(w in t for w in ws)] *)
Definition any_in (ws : list string) (t : string) : bool :=
  existsb (fun w => contains w t) ws.

(** Truthiness of a [str]. *)
Definition nonempty (s : string) : bool :=
  match s with EmptyString => false | String _ _ => true end.

(** [sep.join(parts)] *)
Fixpoint join (sep : string) (parts : list string) : string :=
  match parts with
  | [] => EmptyString
  | [p] => p
  | p :: ps => p +:+ sep +:+ join sep ps
  end.

End Text.

Import Text.

(** ** Regular expressions

    The fragment of [re] used by the module: character classes, the
    word boundary [\b], concatenation, alternation (for [?]) and the
    greedy star of a class.  [mt] is a backtracking matcher written in
    continuation-passing style; it explores alternatives in the order of
    Python's engine, so that the first success is the match [re.search]
    reports. *)

Module Re.

Inductive regex : Type :=
  | Eps
  | Cls (p : ascii → bool)
  | WordB
  | Seq (r1 r2 : regex)
  | Alt (r1 r2 : regex)
  | Star (p : ascii → bool).

Definition word_opt (o : option ascii) : bool :=
  match o with Some c => is_word c | None => false end.

(** [\b] holds between [prev] and the head of [s] when exactly one of
    them is a word character. *)
Definition boundary (prev : option ascii) (s : list ascii) : bool :=
  xorb (word_opt prev) (word_opt (head s)).

Definition or_else {A} (x y : option A) : option A :=
  match x with Some a => Some a | None => y end.

Fixpoint star_k {A} (p : ascii → bool)
    (k : option ascii → list ascii → option A)
    (prev : option ascii) (s : list ascii) : option A :=
  match s with
  | c :: s' =>
      if p c then or_else (star_k p k (Some c) s') (k prev s) else k prev s
  | [] => k prev s
  end.

Fixpoint mt {A} (r : regex) (prev : option ascii) (s : list ascii)
    (k : option ascii → list ascii → option A) : option A :=
  match r with
  | Eps => k prev s
  | Cls p =>
      match s with
      | c :: s' => if p c then k (Some c) s' else None
      | [] => None
      end
  | WordB => if boundary prev s then k prev s else None
  | Seq r1 r2 => mt r1 prev s (fun prev' s' => mt r2 prev' s' k)
  | Alt r1 r2 => or_else (mt r1 prev s k) (mt r2 prev s k)
  | Star p => star_k p k prev s
  end.

(** The text matched at the current position, if any. *)
Definition match_here (r : regex) (prev : option ascii) (s : list ascii)
    : option (list ascii) :=
  match mt r prev s (fun _ rest => Some rest) with
  | Some rest => Some (take (length s - length rest) s)
  | None => None
  end.

Fixpoint search_from (r : regex) (prev : option ascii) (s : list ascii)
    : option (list ascii) :=
  match match_here r prev s with
  | Some m => Some m
  | None =>
      match s with
      | c :: s' => search_from r (Some c) s'
      | [] => None
      end
  end.

(** [re.search(r, s)], returning [m.group(0)]. *)
Definition search (r : regex) (s : string) : option string :=
  text <$> search_from r None (chars s).

(** Pattern combinators. *)
Definition chr (c : ascii) : regex := Cls (Ascii.eqb c).
(** a literal character under [re.IGNORECASE] *)
Definition chr_i (c : ascii) : regex :=
  Cls (fun x => Ascii.eqb (to_lower x) (to_lower c)).
Definition plus (p : ascii → bool) : regex := Seq (Cls p) (Star p).
Definition opt (r : regex) : regex := Alt r Eps.

Fixpoint rep (n : nat) (p : ascii → bool) (r : regex) : regex :=
  match n with
  | 0 => r
  | S n' => Seq (Cls p) (rep n' p r)
  end.

Fixpoint lit_with (f : ascii → regex) (s : string) (r : regex) : regex :=
  match s with
  | EmptyString => r
  | String c s' => Seq (f c) (lit_with f s' r)
  end.

(** Declarative semantics: [matches r prev w rest] says that [r] matches
    the word [w] when [w] is preceded by [prev] and followed by [rest]. *)
Definition last_of (prev : option ascii) (w : list ascii) : option ascii :=
  match last w with Some c => Some c | None => prev end.

Inductive matches : regex → option ascii → list ascii → list ascii → Prop :=
  | M_eps prev rest : matches Eps prev [] rest
  | M_cls (p : ascii → bool) prev c rest :
      p c = true → matches (Cls p) prev [c] rest
  | M_wordb prev rest :
      boundary prev rest = true → matches WordB prev [] rest
  | M_seq r1 r2 prev w1 w2 rest :
      matches r1 prev w1 (w2 ++ rest) →
      matches r2 (last_of prev w1) w2 rest →
      matches (Seq r1 r2) prev (w1 ++ w2) rest
  | M_alt_l r1 r2 prev w rest :
      matches r1 prev w rest → matches (Alt r1 r2) prev w rest
  | M_alt_r r1 r2 prev w rest :
      matches r2 prev w rest → matches (Alt r1 r2) prev w rest
  | M_star_nil (p : ascii → bool) prev rest : matches (Star p) prev [] rest
  | M_star_cons (p : ascii → bool) prev c w rest :
      p c = true → matches (Star p) (Some c) w rest →
      matches (Star p) prev (c :: w) rest.

(** [s] has an occurrence of [r]. *)
Definition occurs (r : regex) (s : list ascii) : Prop :=
  ∃ pre w post, s = pre ++ w ++ post ∧ matches r (last pre) w post.

End Re.

Import Re.

(** ** Configuration (lines 43-61) *)

Definition TIMEZONE_LABEL : string := "IST".
Definition SECURE_LINK_BASE : string := "http://localhost:5173/secure".

Definition TOPICS : list string :=
  [ "KYC/Onboarding";
    "SIP/Mandates";
    "Statements/Tax Docs";
    "Withdrawals & Timelines";
    "Account Changes/Nominee" ].

Record Slot : Type := mkSlot {
  slot_id : string;
  start : string;
  end_ : string;
}.

#[global] Instance Slot_eq_dec : EqDecision Slot.
Proof. solve_decision. Defined.

Definition SLOT_101 := mkSlot "SLOT-101" "2026-01-02 10:00 AM" "10:30 AM".
Definition SLOT_102 := mkSlot "SLOT-102" "2026-01-02 11:00 AM" "11:30 AM".
Definition SLOT_103 := mkSlot "SLOT-103" "2026-01-02 03:00 PM" "03:30 PM".
Definition SLOT_104 := mkSlot "SLOT-104" "2026-01-02 05:00 PM" "05:30 PM".

Definition MOCK_SLOTS : list Slot := [SLOT_101; SLOT_102; SLOT_103; SLOT_104].

(** [MOCK_SLOTS[i]] for the constant indices of the source. *)
Definition mock_slot (i : nat) : Slot := nth i MOCK_SLOTS SLOT_101.

(** ** Python values, exceptions *)

(** A value found in a dict decoded from JSON (or built by the fallback
    parser): [None], a [str], or any other value (number, boolean, list,
    dict), of which only the truthiness is observable here. *)
Inductive pyval : Type :=
  | PNone
  | PStr (s : string)
  | POther (truthy : bool).

#[global] Instance pyval_eq_dec : EqDecision pyval.
Proof. solve_decision. Defined.

Definition truthy (v : pyval) : bool :=
  match v with
  | PNone => false
  | PStr s => nonempty s
  | POther b => b
  end.

Definition of_opt (o : option string) : pyval :=
  match o with Some s => PStr s | None => PNone end.

(** Truthiness of an optional [str] held in [STATE]. *)
Definition truthy_s (o : option string) : bool :=
  match o with Some s => nonempty s | None => false end.

(** [f"{x}"] for an optional [str]. *)
Definition fmt (o : option string) : string :=
  match o with Some s => s | None => "None" end.

(** [ServiceError] stands for whatever the remote call raises. *)
Inductive exn : Type :=
  AttributeError | IndexError | TypeError | ServiceError.

Inductive result (A : Type) : Type :=
  | Ok (a : A)
  | Err (e : exn).
Arguments Ok {A} a.
Arguments Err {A} e.

(** [(v or d).lower()] and [(v or d).strip()]: only a [str] has the
    method. *)
Definition py_or (v : pyval) (d : string) : pyval :=
  if truthy v then v else PStr d.

Definition py_lower (v : pyval) : result string :=
  match v with PStr s => Ok (lower s) | _ => Err AttributeError end.

Definition py_strip (v : pyval) : result string :=
  match v with PStr s => Ok (strip s) | _ => Err AttributeError end.

(** [d.get(k)] *)
Definition dict_get (d : gmap string pyval) (k : string) : pyval :=
  default PNone (d !! k).

(** [v in TOPICS], giving the topic when it holds. *)
Definition in_topics (v : pyval) : option string :=
  match v with
  | PStr s => if bool_decide (s ∈ TOPICS) then Some s else None
  | _ => None
  end.

(** ** State (lines 64-98) *)

Record State : Type := mkState {
  disclaimer_done : bool;
  intent : option string;
  topic : option string;
  day_pref : pyval;
  time_pref : pyval;
  offered_slots : option (list Slot);
  selected_slot : option Slot;
  booking_code : option string;
  provided_code : option string;
}.

Definition STATE0 : State :=
  mkState false None None PNone PNone None None None None.

Record Booking : Type := mkBooking {
  bk_topic : option string;
  bk_slot : option Slot;
  bk_timezone : string;
}.

(** The two module-level dictionaries the dialogue engine mutates. *)
Record World : Type := mkWorld {
  STATE : State;
  BOOKINGS : gmap string Booking;
}.

Definition WORLD0 : World := mkWorld STATE0 ∅.

Definition set_disclaimer_done (v : bool) (s : State) : State :=
  mkState v (intent s) (topic s) (day_pref s) (time_pref s)
    (offered_slots s) (selected_slot s) (booking_code s) (provided_code s).
Definition set_intent (v : option string) (s : State) : State :=
  mkState (disclaimer_done s) v (topic s) (day_pref s) (time_pref s)
    (offered_slots s) (selected_slot s) (booking_code s) (provided_code s).
Definition set_topic (v : option string) (s : State) : State :=
  mkState (disclaimer_done s) (intent s) v (day_pref s) (time_pref s)
    (offered_slots s) (selected_slot s) (booking_code s) (provided_code s).
Definition set_day_pref (v : pyval) (s : State) : State :=
  mkState (disclaimer_done s) (intent s) (topic s) v (time_pref s)
    (offered_slots s) (selected_slot s) (booking_code s) (provided_code s).
Definition set_time_pref (v : pyval) (s : State) : State :=
  mkState (disclaimer_done s) (intent s) (topic s) (day_pref s) v
    (offered_slots s) (selected_slot s) (booking_code s) (provided_code s).
Definition set_offered_slots (v : option (list Slot)) (s : State) : State :=
  mkState (disclaimer_done s) (intent s) (topic s) (day_pref s) (time_pref s)
    v (selected_slot s) (booking_code s) (provided_code s).
Definition set_selected_slot (v : option Slot) (s : State) : State :=
  mkState (disclaimer_done s) (intent s) (topic s) (day_pref s) (time_pref s)
    (offered_slots s) v (booking_code s) (provided_code s).
Definition set_booking_code (v : option string) (s : State) : State :=
  mkState (disclaimer_done s) (intent s) (topic s) (day_pref s) (time_pref s)
    (offered_slots s) (selected_slot s) v (provided_code s).
Definition set_provided_code (v : option string) (s : State) : State :=
  mkState (disclaimer_done s) (intent s) (topic s) (day_pref s) (time_pref s)
    (offered_slots s) (selected_slot s) (booking_code s) v.

Definition reset_booking_state (s : State) : State :=
  set_booking_code None
    (set_selected_slot None
      (set_offered_slots None
        (set_time_pref PNone (set_day_pref PNone (set_topic None s))))).

Definition reset_reschedule_cancel (s : State) : State :=
  set_provided_code None s.

(** Truthiness of [STATE["offered_slots"]], a list. *)
Definition truthy_l (o : option (list Slot)) : bool :=
  match o with Some (_ :: _) => true | _ => false end.

(** ** PII guard (lines 101-116) *)

Definition one_of (s : string) (c : ascii) : bool :=
  existsb (Ascii.eqb c) (chars s).

Definition cls_email_local (c : ascii) : bool :=
  is_alpha c || is_digit c || one_of "._%+-" c.
Definition cls_email_domain (c : ascii) : bool :=
  is_alpha c || is_digit c || one_of ".-" c.
Definition cls_phone_mid (c : ascii) : bool :=
  is_digit c || is_space c || Ascii.eqb c "-".
(** [.] without [re.DOTALL] *)
Definition cls_dot (c : ascii) : bool := negb (Ascii.eqb c "010").

(** [\b[A-Z0-9._%+-]+@[A-Z0-9.-]+\.[A-Z]{2,}\b] *)
Definition RE_EMAIL : regex :=
  Seq WordB
    (Seq (plus cls_email_local)
      (Seq (chr "@")
        (Seq (plus cls_email_domain)
          (Seq (chr ".") (rep 2 is_alpha (Seq (Star is_alpha) WordB)))))).

(** [\b(?:\+?\d[\d\s-]{8,}\d)\b] *)
Definition RE_PHONE : regex :=
  Seq WordB
    (Seq (opt (chr "+"))
      (Seq (Cls is_digit)
        (rep 8 cls_phone_mid
          (Seq (Star cls_phone_mid) (Seq (Cls is_digit) WordB))))).

(** [\b\d{n}\b] *)
Definition RE_DIGITS (n : nat) : regex := Seq WordB (rep n is_digit WordB).

(** [\baccount\b.*\b\d+\b] *)
Definition RE_ACCOUNT : regex :=
  Seq WordB
    (lit_with chr_i "account"
      (Seq WordB
        (Seq (Star cls_dot) (Seq WordB (Seq (plus is_digit) WordB))))).

Definition PII_PATTERNS : list regex :=
  [RE_EMAIL; RE_PHONE; RE_DIGITS 10; RE_DIGITS 12; RE_ACCOUNT].

Definition contains_pii (text : string) : bool :=
  existsb (fun p => bool_decide (is_Some (search p text))) PII_PATTERNS.

(** [\bNL-[A-Z0-9]{4}\b] *)
Definition cls_code (c : ascii) : bool := is_upper c || is_digit c.
Definition RE_CODE : regex :=
  Seq WordB (lit_with chr "NL-" (rep 4 cls_code WordB)).

Definition extract_booking_code (text : string) : option string :=
  search RE_CODE (upper text).

(** ** Helpers (lines 124-132) *)

(** [string.ascii_uppercase + string.digits] *)
Definition CODE_ALPHABET : string := "ABCDEFGHIJKLMNOPQRSTUVWXYZ0123456789".

(** [random.choice(seq)] for the raw random number [r]. *)
Definition choice (seq : list ascii) (r : nat) : ascii :=
  nth (r mod length seq) seq "000"%char.

(** The [i]-th draw of the turn is [rand i]. *)
Definition generate_booking_code (rand : nat → nat) : string :=
  "NL-" +:+ text (map (fun i => choice (chars CODE_ALPHABET) (rand i)) (seq 0 4)).

Definition secure_link_for (code : string) : string :=
  SECURE_LINK_BASE +:+ "?code=" +:+ code.

(** ** The outside world of one turn *)

(** What [gemini.models.generate_content] does with a prompt: it raises,
    or it answers with a response whose [.text] may be [None]. *)
Inductive response : Type :=
  | SvcRaises
  | SvcText (text : option string).

Record Env : Type := mkEnv {
  gemini : string → response;
  rand : nat → nat;
}.

(** ** Local fallback parser (lines 178-271) *)

Definition mk_info (intent : string) (topic day time : option string)
    : gmap string pyval :=
  <["intent" := PStr intent]>
    (<["topic" := of_opt topic]>
      (<["day_preference" := of_opt day]>
        (<["time_preference" := of_opt time]> ∅))).

Definition _json_fallback : gmap string pyval :=
  mk_info "other" None None None.

Definition infer_topic (t : string) : option string :=
  if contains "kyc" t || contains "onboard" t then Some "KYC/Onboarding"
  else if contains "sip" t || contains "mandate" t then Some "SIP/Mandates"
  else if contains "statement" t || contains "tax" t
    then Some "Statements/Tax Docs"
  else if contains "withdraw" t || contains "timeline" t
          || contains "redemption" t
    then Some "Withdrawals & Timelines"
  else if contains "nominee" t || contains "account change" t
          || contains "profile" t
    then Some "Account Changes/Nominee"
  else None.

Definition WEEKDAYS : list string :=
  ["monday"; "tuesday"; "wednesday"; "thursday"; "friday"; "saturday";
   "sunday"].

Definition infer_day (t : string) : option string :=
  if contains "tomorrow" t then Some "tomorrow"
  else if contains "today" t then Some "today"
  else find (fun d => contains d t) WEEKDAYS.

Definition infer_time (t : string) : option string :=
  if contains "morning" t then Some "morning"
  else if contains "afternoon" t then Some "afternoon"
  else if contains "evening" t || contains "night" t then Some "evening"
  else None.

(** The explicit intent commands, before any escalation. *)
Definition infer_intent (t : string) : string :=
  if any_in ["reschedule"; "move my"; "change my time"; "change slot"] t
    then "reschedule"
  else if any_in ["cancel"; "call off"; "delete booking"] t then "cancel"
  else if any_in ["prepare"; "what should i bring"; "what to prepare"] t
    then "what_to_prepare"
  else if any_in ["availability"; "available"; "check availability";
                  "any slots"] t
    then "check_availability"
  else if any_in ["book"; "appointment"; "schedule"] t then "book_new"
  else "other".

Definition local_intent_fallback (user_text : string) (st : State)
    : gmap string pyval :=
  let t := lower user_text in
  let topic_ := infer_topic t in
  let day_preference := infer_day t in
  let time_preference := infer_time t in
  let intent_ := infer_intent t in
  let gave_booking_fields :=
    truthy_s topic_ || truthy_s day_preference || truthy_s time_preference in
  let intent_ :=
    if (String.eqb intent_ "other" || String.eqb intent_ "check_availability")
       && gave_booking_fields
    then "book_new" else intent_ in
  let mid_booking :=
    truthy_s (topic st) || truthy (day_pref st) || truthy (time_pref st) in
  let intent_ :=
    if String.eqb intent_ "other" && mid_booking && gave_booking_fields
    then "book_new" else intent_ in
  mk_info intent_ topic_ day_preference time_preference.

(** ** Slot candidate selector (lines 318-328) *)

Definition mock_pick_two_slots (day_pref time_pref : pyval)
    : result (list Slot) :=
  match py_lower (py_or time_pref EmptyString) with
  | Err e => Err e
  | Ok tp =>
      let candidates :=
        if contains "even" tp || contains "5" tp || contains "6" tp
          then [mock_slot 3; mock_slot 2; mock_slot 1]
        else if contains "after" tp || contains "3" tp || contains "4" tp
          then [mock_slot 2; mock_slot 1; mock_slot 3]
        else [mock_slot 0; mock_slot 1; mock_slot 2] in
      Ok (take 2 candidates)
  end.

(** ** Extraction service adapter (lines 181-194, 274-315) *)

Section Adapter.

(** [json.loads] restricted to what the adapter hands it, a span from an
    opening to a closing brace: the decoded object, or [None] when
    decoding raises. *)
Variable json_loads : string → option (gmap string pyval).

Definition cls_any (c : ascii) : bool := true.

(** [\{[\s\S]*\}] *)
Definition RE_JSON : regex := Seq (chr "{") (Seq (Star cls_any) (chr "}")).

Definition extract_first_json_object (text : string)
    : option (gmap string pyval) :=
  if negb (nonempty text) then None
  else
    match search RE_JSON text with
    | None => None
    | Some m => json_loads m
    end.

Definition prompt_for (user_text : string) : string :=
  strip ("
Return STRICT JSON only (no markdown, no code fences).

Allowed intents:
book_new, reschedule, cancel, what_to_prepare, check_availability, other

Allowed topics (must match exactly if present):
" +:+ join ", " TOPICS +:+ "

Keys (always include):
intent, topic, day_preference, time_preference

User said:
" +:+ user_text +:+ "
").

(** The body of the [try] block: the only statement that can raise is
    the call to the service. *)
Definition detect_try (env : Env) (user_text : string)
    : result (gmap string pyval) :=
  match gemini env (prompt_for user_text) with
  | SvcRaises => Err ServiceError
  | SvcText t =>
      let raw := strip (default EmptyString t) in
      match extract_first_json_object raw with
      | Some obj => if bool_decide (obj ≠ ∅) then Ok obj else Ok _json_fallback
      | None => Ok _json_fallback
      end
  end.

Definition detect_intent_and_extract (env : Env) (user_text : string)
    (st : State) : result (gmap string pyval) :=
  if negb (nonempty user_text) || negb (nonempty (strip user_text))
  then Ok _json_fallback
  else
    match detect_try env user_text with
    | Ok obj => Ok obj
    | Err _ => Ok (local_intent_fallback user_text st)
    end.

End Adapter.

(** ** A decoder for flat JSON objects

    [json.loads] itself is not part of the module; the theorems below
    hold for every decoder.  The examples run with this one, which
    decodes the objects the prompt asks for: string keys, and values
    that are [null], [true], [false], an integer or a string without
    escapes.  On such input it returns what [json.loads] returns; it
    rejects everything else. *)

Module FlatJson.

Definition dquote : ascii := "034".
Definition backslash : ascii := "092".

Definition is_ws (c : ascii) : bool :=
  Ascii.eqb c " " || Ascii.eqb c "009" || Ascii.eqb c "010" || Ascii.eqb c "013".

Fixpoint skip_ws (l : list ascii) : list ascii :=
  match l with
  | c :: l' => if is_ws c then skip_ws l' else l
  | [] => []
  end.

(** After the opening quote: the characters up to the closing quote. *)
Fixpoint string_body (l : list ascii) : option (list ascii * list ascii) :=
  match l with
  | [] => None
  | c :: l' =>
      if Ascii.eqb c dquote then Some ([], l')
      else if Ascii.eqb c backslash || (code c <? 32) then None
      else
        match string_body l' with
        | Some (s, r) => Some (c :: s, r)
        | None => None
        end
  end.

Fixpoint span_digits (l : list ascii) : list ascii * list ascii :=
  match l with
  | c :: l' =>
      if is_digit c then let '(d, r) := span_digits l' in (c :: d, r)
      else ([], l)
  | [] => ([], [])
  end.

(** An integer literal: no leading zero, no fraction, no exponent. *)
Definition integer (l : list ascii) : option (pyval * list ascii) :=
  let '(d, r) := span_digits l in
  let plain :=
    match r with
    | c :: _ => negb (Ascii.eqb c "." || Ascii.eqb c "e" || Ascii.eqb c "E")
    | [] => true
    end in
  match d with
  | [] => None
  | [z] => if plain then Some (POther (negb (Ascii.eqb z "0")), r) else None
  | z :: _ => if plain && negb (Ascii.eqb z "0") then Some (POther true, r) else None
  end.

Definition quoted (l : list ascii) : option (list ascii * list ascii) :=
  match l with
  | c :: l' => if Ascii.eqb c dquote then string_body l' else None
  | [] => None
  end.

Definition value (l : list ascii) : option (pyval * list ascii) :=
  match l with
  | "034"%char :: _ =>
      match quoted l with
      | Some (s, r) => Some (PStr (text s), r)
      | None => None
      end
  | "n"%char :: "u"%char :: "l"%char :: "l"%char :: r => Some (PNone, r)
  | "t"%char :: "r"%char :: "u"%char :: "e"%char :: r => Some (POther true, r)
  | "f"%char :: "a"%char :: "l"%char :: "s"%char :: "e"%char :: r =>
      Some (POther false, r)
  | "-"%char :: l' => integer l'
  | _ => integer l
  end.

Fixpoint members (fuel : nat) (l : list ascii) (acc : gmap string pyval)
    : option (gmap string pyval * list ascii) :=
  match fuel with
  | 0 => None
  | S fuel' =>
      match skip_ws l with
      | [] => None
      | l1 =>
          match quoted l1 with
          | Some (k, l2) =>
              match skip_ws l2 with
              | ":"%char :: l3 =>
                  match value (skip_ws l3) with
                  | Some (v, l4) =>
                      match skip_ws l4 with
                      | ","%char :: l5 => members fuel' l5 (<[text k := v]> acc)
                      | "}"%char :: l5 => Some (<[text k := v]> acc, l5)
                      | _ => None
                      end
                  | None => None
                  end
              | _ => None
              end
          | None => None
          end
      end
  end.

Definition loads (s : string) : option (gmap string pyval) :=
  match skip_ws (chars s) with
  | "{"%char :: l1 =>
      let after_object :=
        match skip_ws l1 with
        | "}"%char :: l2 => Some (∅, l2)
        | _ => members (length l1) l1 ∅
        end in
      match after_object with
      | Some (obj, r) =>
          match skip_ws r with [] => Some obj | _ => None end
      | None => None
      end
  | _ => None
  end.

End FlatJson.

(** ** One turn as a computation over the world

    A block of the function body either falls through with a value
    ([Next]), executes a [return] ([Return]) or raises ([Raise]); the
    world carries the mutations made up to that point in all three
    cases. *)

Inductive step (A : Type) : Type :=
  | Next (a : A)
  | Return (reply : string)
  | Raise (e : exn).
Arguments Next {A} a.
Arguments Return {A} reply.
Arguments Raise {A} e.

Definition M (A : Type) : Type := World → World * step A.

Definition pure {A} (a : A) : M A := fun w => (w, Next a).

Definition bind {A B} (m : M A) (f : A → M B) : M B :=
  fun w =>
    match m w with
    | (w', Next a) => f a w'
    | (w', Return s) => (w', Return s)
    | (w', Raise e) => (w', Raise e)
    end.

Definition return_ {A} (reply : string) : M A := fun w => (w, Return reply).
Definition raise {A} (e : exn) : M A := fun w => (w, Raise e).

Definition get : M State := fun w => (w, Next (STATE w)).

Definition modify (f : State → State) : M unit :=
  fun w => (mkWorld (f (STATE w)) (BOOKINGS w), Next tt).

Definition put_booking (code : string) (b : Booking) : M unit :=
  fun w => (mkWorld (STATE w) (<[code := b]> (BOOKINGS w)), Next tt).

Definition lift {A} (r : result A) : M A :=
  match r with Ok a => pure a | Err e => raise e end.

Notation "'do' x <- m ; k" := (bind m (fun x => k))
  (at level 10, x name, m at level 99, k at level 200).
Notation "m ;; k" := (bind m (fun _ => k))
  (at level 100, k at level 200, right associativity).

(** What the caller of a turn observes. *)
Inductive outcome : Type :=
  | Reply (reply : string)
  | Raises (e : exn).

Definition run (m : M string) (w : World) : World * outcome :=
  match m w with
  | (w', Next s) => (w', Reply s)
  | (w', Return s) => (w', Reply s)
  | (w', Raise e) => (w', Raises e)
  end.

(** ** Reply templates *)

Definition SORRY : string := "Sorry, I didn’t catch that. Please repeat.".

Definition pii_warning (link : string) : string :=
  "For security, please don’t share personal details on this call. "
  +:+ "Use this secure link to add contact details: " +:+ link +:+ ". "
  +:+ "Now, what topic is this about?".

Definition DISCLAIMER : string :=
  "Hi — this is the Advisor Appointment Scheduler. "
  +:+ "This call is for informational support only and not investment advice. "
  +:+ "Would you like to book a new slot, reschedule, cancel, check availability, or ask what to prepare?".

Definition TOPIC_LIST : string :=
  "KYC/Onboarding, SIP/Mandates, Statements/Tax Docs, Withdrawals & Timelines, or Account Changes/Nominee?".

Definition ADVICE_REFUSAL : string :=
  "I can’t provide investment advice or recommendations. "
  +:+ "I can help with account processes or book an informational advisor session. "
  +:+ "Which topic is this for: " +:+ TOPIC_LIST.

Definition ASK_CODE : string :=
  "Sure. Please tell me your booking code, for example NL-A742.".

Definition cancel_done (code : string) : string :=
  "Done. I’ve noted a cancellation request for booking code " +:+ code +:+ ".".

Definition reschedule_got (code : string) : string :=
  "Got it. Booking code " +:+ code +:+ ". "
  +:+ "What topic is this for, and what day and time preference in "
  +:+ TIMEZONE_LABEL +:+ "?".

Definition ASK_PREP_TOPIC : string := "Sure — which topic: " +:+ TOPIC_LIST.
Definition ASK_TOPIC : string := "Which topic is this for: " +:+ TOPIC_LIST.

Definition ASK_CHECK_DAY : string :=
  "What day should I check for? For example tomorrow or Friday.".
Definition ASK_CHECK_TIME : string :=
  "What time preference in " +:+ TIMEZONE_LABEL
  +:+ "? Morning, afternoon, or evening?".

Definition options_text (s0 s1 : string) : string :=
  "Option 1: " +:+ s0 +:+ " " +:+ TIMEZONE_LABEL +:+ ". "
  +:+ "Option 2: " +:+ s1 +:+ " " +:+ TIMEZONE_LABEL +:+ ".".

Definition availability_reply (topic s0 s1 : string) : string :=
  "For " +:+ topic +:+ ", I see two options in " +:+ TIMEZONE_LABEL +:+ ". "
  +:+ options_text s0 s1.

Definition MENU : string :=
  "I can help you book, reschedule, cancel, check availability, or tell you what to prepare. What would you like to do?".

Definition ASK_DAY : string :=
  "What day works best for you? For example tomorrow, Friday, or next week.".
Definition ASK_TIME : string :=
  "Do you prefer morning, afternoon, or evening " +:+ TIMEZONE_LABEL +:+ "?".

Definition offer_reply (s0 s1 : string) : string :=
  "I have two options in " +:+ TIMEZONE_LABEL +:+ ". "
  +:+ options_text s0 s1 +:+ " "
  +:+ "Which option do you prefer, 1 or 2?".

Definition ASK_OPTION : string := "Please say option 1 or option 2.".

Definition confirm_reply (topic slot_start : string) : string :=
  "Just to confirm in " +:+ TIMEZONE_LABEL +:+ ": "
  +:+ topic +:+ " on " +:+ slot_start +:+ " " +:+ TIMEZONE_LABEL +:+ ". "
  +:+ "Is that correct? Say yes or no.".

Definition booked_reply (code slot_start topic link : string) : string :=
  "Great. Your booking code is " +:+ code +:+ ". "
  +:+ "Your tentative slot is " +:+ slot_start +:+ " " +:+ TIMEZONE_LABEL
  +:+ " for " +:+ topic +:+ ". "
  +:+ "For security, I can’t collect personal details on this call. "
  +:+ "Please use this secure link to finish details: " +:+ link +:+ ".".

Definition REPROMPT_OPTION : string :=
  "No problem. Do you prefer option 1 or option 2?".

Definition ALL_SET : string := "All set. Do you need anything else?".

Definition waitlist_reply (topic code link : string) : string :=
  "I don’t see a matching slot right now. "
  +:+ "I’ve placed you on a waitlist for " +:+ topic +:+ ". "
  +:+ "Your booking code is " +:+ code +:+ ". "
  +:+ "Please use this secure link to share contact details so we can notify you: "
  +:+ link +:+ ".".

(** [PREP_GUIDES.get(topic, [])] (lines 344-365) *)
Definition PREP_GUIDES (topic : string) : list string :=
  if String.eqb topic "KYC/Onboarding" then
    [ "Have your PAN and address proof handy (as applicable).";
      "Be ready to confirm your onboarding status and any KYC error message you saw." ]
  else if String.eqb topic "SIP/Mandates" then
    [ "Know your bank name and mandate status (created/pending/failed).";
      "Have approximate SIP amount and frequency you’re trying to set up." ]
  else if String.eqb topic "Statements/Tax Docs" then
    [ "Mention which period you need (FY year range).";
      "Clarify whether you need statement, capital gains, or tax certificate." ]
  else if String.eqb topic "Withdrawals & Timelines" then
    [ "Share the date you requested withdrawal and current status.";
      "Be ready to confirm the expected timeline you were told (if any)." ]
  else if String.eqb topic "Account Changes/Nominee" then
    [ "Know what change you want: address, bank, nominee, or other profile detail.";
      "Be ready to confirm whether you already attempted the change in-app." ]
  else [].

Definition str_of_nat (n : nat) : string :=
  NilEmpty.string_of_uint (Nat.to_uint n).

Definition prep_reply (topic : string) : string :=
  let tips := PREP_GUIDES topic in
  let tip_text :=
    join " " (imap (fun i t => str_of_nat (i + 1) +:+ ". " +:+ t) tips) in
  "For " +:+ topic +:+ ", here’s what to prepare: " +:+ tip_text.

(** ** Dialogue engine (lines 331-341, 370-551) *)

(** [a or b] on optional strings. *)
Definition or_s (o : option string) (d : string) : string :=
  match o with
  | Some s => if nonempty s then s else d
  | None => d
  end.

(** [x[i]] on a list, on a list that may be [None], and [x['start']] on
    a slot that may be [None]. *)
Definition index (l : list Slot) (i : nat) : result Slot :=
  match l !! i with Some s => Ok s | None => Err IndexError end.

Definition index_of (o : option (list Slot)) (i : nat) : result Slot :=
  match o with Some l => index l i | None => Err TypeError end.

Definition start_of (o : option Slot) : result string :=
  match o with Some s => Ok (start s) | None => Err TypeError end.

Definition waitlist_flow_reply (env : Env) (topic_ : option string)
    (day_pref_ time_pref_ : pyval) : M string :=
  do st <- get;
  let code := or_s (booking_code st) (generate_booking_code (rand env)) in
  modify (set_booking_code (Some code));;
  let link := secure_link_for code in
  pure (waitlist_reply (fmt topic_) code link).

Definition ADVICE_KEYWORDS : list string :=
  ["buy"; "sell"; "invest"; "stock"; "mutual fund"; "recommend"].

Section Engine.

Variable json_loads : string → option (gmap string pyval).

(** What the handlers of a turn work with: the extraction result, the
    stripped text, its lower-case form and the intent to dispatch on. *)
Record Routed : Type := mkRouted {
  r_info : gmap string pyval;
  r_text : string;
  r_lower : string;
  r_intent : string;
}.

(** Lines 371-407: the gates, the extraction and the sticky override. *)
Definition route (env : Env) (user_text : string) : M Routed :=
  let user_text := strip user_text in
  if negb (nonempty user_text) then return_ SORRY
  else
    do st <- get;
    if contains_pii user_text then
      let code := or_s (booking_code st) "NL-XXXX" in
      let link := secure_link_for code in
      return_ (pii_warning link)
    else if negb (disclaimer_done st) then
      modify (set_disclaimer_done true);;
      return_ DISCLAIMER
    else
      let lower_ := lower user_text in
      if any_in ADVICE_KEYWORDS lower_ then return_ ADVICE_REFUSAL
      else
        do info <- lift (detect_intent_and_extract json_loads env user_text st);
        do intent_ <- lift (py_strip (py_or (dict_get info "intent") "other"));
        let intent_ :=
          if truthy_l (offered_slots st) || truthy_s (topic st)
          then "book_new" else intent_ in
        modify (set_intent (Some intent_));;
        pure (mkRouted info user_text lower_ intent_).

(** Lines 410-421. *)
Definition cancel_block (r : Routed) : M unit :=
  if String.eqb (r_intent r) "cancel" then
    do st <- get;
    (if negb (truthy_s (provided_code st)) then
       match extract_booking_code (r_text r) with
       | Some code =>
           if nonempty code then modify (set_provided_code (Some code))
           else return_ ASK_CODE
       | None => return_ ASK_CODE
       end
     else pure tt);;
    do st <- get;
    let code := provided_code st in
    modify reset_booking_state;;
    modify reset_reschedule_cancel;;
    return_ (cancel_done (fmt code))
  else pure tt.

(** Lines 423-437; falls through with the intent to go on with. *)
Definition reschedule_block (r : Routed) : M string :=
  if String.eqb (r_intent r) "reschedule" then
    do st <- get;
    (if negb (truthy_s (provided_code st)) then
       match extract_booking_code (r_text r) with
       | Some code =>
           if nonempty code then
             modify (set_provided_code (Some code));;
             modify reset_booking_state;;
             return_ (reschedule_got code)
           else return_ ASK_CODE
       | None => return_ ASK_CODE
       end
     else pure tt);;
    modify (set_intent (Some "book_new"));;
    pure "book_new"
  else pure (r_intent r).

(** Lines 439-446. *)
Definition prepare_block (r : Routed) (intent_ : string) : M unit :=
  if String.eqb intent_ "what_to_prepare" then
    match in_topics (dict_get (r_info r) "topic") with
    | Some topic_ => return_ (prep_reply topic_)
    | None => return_ ASK_PREP_TOPIC
    end
  else pure tt.

(** Lines 448-466. *)
Definition availability_block (r : Routed) (intent_ : string) : M unit :=
  if String.eqb intent_ "check_availability" then
    let day_pref_ := dict_get (r_info r) "day_preference" in
    let time_pref_ := dict_get (r_info r) "time_preference" in
    match in_topics (dict_get (r_info r) "topic") with
    | None => return_ ASK_TOPIC
    | Some topic_ =>
        if negb (truthy day_pref_) then return_ ASK_CHECK_DAY
        else if negb (truthy time_pref_) then return_ ASK_CHECK_TIME
        else
          do slots <- lift (mock_pick_two_slots day_pref_ time_pref_);
          do s0 <- lift (index slots 0);
          do s1 <- lift (index slots 1);
          return_ (availability_reply topic_ (start s0) (start s1))
    end
  else pure tt.

(** Lines 468-474. *)
Definition default_block (r : Routed) (intent_ : string) : M unit :=
  if negb (String.eqb intent_ "book_new") then
    if contains "book" (r_lower r) || contains "appointment" (r_lower r)
       || contains "slot" (r_lower r)
    then modify (set_intent (Some "book_new"))
    else return_ MENU
  else pure tt.

(** Lines 476-551. *)
Definition book_new_flow (env : Env) (r : Routed) : M string :=
  do st <- get;
  (if negb (truthy_s (topic st)) then
     match in_topics (dict_get (r_info r) "topic") with
     | Some topic_ => modify (set_topic (Some topic_))
     | None => return_ ASK_TOPIC
     end
   else pure tt);;
  do st <- get;
  (if negb (truthy (day_pref st)) then
     let day_pref_ := dict_get (r_info r) "day_preference" in
     if truthy day_pref_ then modify (set_day_pref day_pref_)
     else return_ ASK_DAY
   else pure tt);;
  do st <- get;
  (if negb (truthy (time_pref st)) then
     let time_pref_ := dict_get (r_info r) "time_preference" in
     if truthy time_pref_ then modify (set_time_pref time_pref_)
     else return_ ASK_TIME
   else pure tt);;
  do st <- get;
  (if negb (truthy_l (offered_slots st)) then
     do slots <- lift (mock_pick_two_slots (day_pref st) (time_pref st));
     if negb (bool_decide (slots ≠ [])) || (length slots <? 2) then
       do reply <- waitlist_flow_reply env (topic st) (day_pref st) (time_pref st);
       return_ reply
     else
       modify (set_offered_slots (Some slots));;
       do s0 <- lift (index slots 0);
       do s1 <- lift (index slots 1);
       return_ (offer_reply (start s0) (start s1))
   else pure tt);;
  do st <- get;
  (if negb (bool_decide (is_Some (selected_slot st))) then
     (if contains "1" (r_lower r) || contains "one" (r_lower r) then
        do s <- lift (index_of (offered_slots st) 0);
        modify (set_selected_slot (Some s))
      else if contains "2" (r_lower r) || contains "two" (r_lower r) then
        do s <- lift (index_of (offered_slots st) 1);
        modify (set_selected_slot (Some s))
      else return_ ASK_OPTION);;
     do st <- get;
     let slot := selected_slot st in
     do slot_start <- lift (start_of slot);
     return_ (confirm_reply (fmt (topic st)) slot_start)
   else pure tt);;
  do st <- get;
  (if negb (truthy_s (booking_code st)) then
     if contains "yes" (r_lower r) then
       let code := generate_booking_code (rand env) in
       modify (set_booking_code (Some code));;
       do st <- get;
       let slot := selected_slot st in
       let link := secure_link_for code in
       put_booking code (mkBooking (topic st) slot TIMEZONE_LABEL);;
       do slot_start <- lift (start_of slot);
       return_ (booked_reply code slot_start (fmt (topic st)) link)
     else
       modify (set_selected_slot None);;
       return_ REPROMPT_OPTION
   else pure tt);;
  pure ALL_SET.

(** Lines 410-551: the dispatch on the routed intent. *)
Definition handlers (env : Env) (r : Routed) : M string :=
  cancel_block r;;
  do intent_ <- reschedule_block r;
  prepare_block r intent_;;
  availability_block r intent_;;
  default_block r intent_;;
  book_new_flow env r.

Definition next_agent_reply (env : Env) (user_text : string) : M string :=
  do r <- route env user_text;
  handlers env r.

(** One turn, and a conversation. *)
Definition turn (env : Env) (user_text : string) (w : World)
    : World * outcome :=
  run (next_agent_reply env user_text) w.

Definition after (turns : list (Env * string)) (w : World) : World :=
  foldl (fun w et => (turn et.1 et.2 w).1) w turns.

Inductive reachable : World → Prop :=
  | reach_init : reachable WORLD0
  | reach_turn w env user_text :
      reachable w → reachable (turn env user_text w).1.

(** The intent a turn is dispatched with, when it gets that far. *)
Definition effective_intent (env : Env) (user_text : string) (w : World)
    : option string :=
  match (route env user_text w).2 with
  | Next r => Some (r_intent r)
  | _ => None
  end.

End Engine.

(** ** Spec-side vocabulary used in the statements *)

(** The keyword buckets of the slot selector, as the specification
    names them. *)
Definition evening_like (tp : string) : bool :=
  contains "even" tp || contains "5" tp || contains "6" tp.
Definition afternoon_like (tp : string) : bool :=
  contains "after" tp || contains "3" tp || contains "4" tp.

(** [NL-] followed by four characters among [A-Z0-9]. *)
Definition is_booking_code (s : string) : bool :=
  match chars s with
  | ["N"; "L"; "-"; a; b; c; d]%char =>
      cls_code a && cls_code b && cls_code c && cls_code d
  | _ => false
  end.

(** The booking sub-state, first field first, as "is it non-null". *)
Definition filled (s : State) : list bool :=
  [ bool_decide (topic s ≠ None);
    bool_decide (day_pref s ≠ PNone);
    bool_decide (time_pref s ≠ PNone);
    bool_decide (offered_slots s ≠ None);
    bool_decide (selected_slot s ≠ None);
    bool_decide (booking_code s ≠ None) ].

(** A later field is never non-null while an earlier one is null. *)
Definition left_to_right (flags : list bool) : Prop :=
  ∀ i j, i < j → flags !! j = Some true → flags !! i = Some true.

(** Every booking sub-state field and [provided_code] are null. *)
Definition sub_state_null (s : State) : Prop :=
  topic s = None ∧ day_pref s = PNone ∧ time_pref s = PNone ∧
  offered_slots s = None ∧ selected_slot s = None ∧
  booking_code s = None ∧ provided_code s = None.

(** The sub-state (booking fields and [provided_code]) of two states
    agrees. *)
Definition same_sub_state (s s' : State) : Prop :=
  topic s' = topic s ∧ day_pref s' = day_pref s ∧
  time_pref s' = time_pref s ∧ offered_slots s' = offered_slots s ∧
  selected_slot s' = selected_slot s ∧ booking_code s' = booking_code s ∧
  provided_code s' = provided_code s.

(** A pattern that starts, respectively ends, with [\b]. *)
Definition starts_wb (r : regex) : bool :=
  match r with Seq WordB _ => true | _ => false end.

Fixpoint ends_wb (r : regex) : bool :=
  match r with
  | WordB => true
  | Seq _ r2 => ends_wb r2
  | _ => false
  end.

(** The utterances the PII guard is there for, spelled out on the
    characters of the text.  [all p l] says that every character of [l]
    is in the class [p]; a piece of text stands on its own when the
    character before it and the character after it, if any, are not
    word characters. *)
Definition all (p : ascii → bool) (l : list ascii) : Prop :=
  Forall (λ c, p c = true) l.





(** Every character of the text is an ASCII character.  On such a
    text [\w], [\d], [\s], [\b], [str.strip], [str.lower] and
    [str.upper] of Python agree with the classes of [Text]. *)
Definition ascii_only (s : string) : bool :=
  forallb (λ c, code c <? 128) (chars s).

(** The text holds the code literal [code], in upper or lower case and
    standing on its own: [NL-] and four characters among the letters
    and the digits, with no letter, digit or underscore right before it
    or right after it.  [code] is the literal in upper case. *)
Definition code_literal (s code : string) : Prop :=
  ∃ pre w post,
    chars s = pre ++ w ++ post ∧
    map to_upper w = chars code ∧
    is_booking_code code = true ∧
    word_opt (last pre) = false ∧
    word_opt (head post) = false.

(** The condition of the sticky override of line 404. *)
Definition sticky (s : State) : bool :=
  truthy_l (offered_slots s) || truthy_s (topic s).

(** The turn passes the empty-input, PII, disclaimer and advice gates. *)
Definition passes_gates (user_text : string) (s : State) : Prop :=
  nonempty (strip user_text) = true ∧
  contains_pii (strip user_text) = false ∧
  disclaimer_done s = true ∧
  any_in ADVICE_KEYWORDS (lower (strip user_text)) = false.

(** The invariant of the engine: a booking field that is not null is
    truthy, the fields are truthy in order, and nothing is filled before
    the disclaimer has been given. *)
Definition ok_s (o : option string) : Prop := o ≠ None → truthy_s o = true.
Definition ok_v (v : pyval) : Prop := v ≠ PNone → truthy v = true.
Definition ok_l (o : option (list Slot)) : Prop := o ≠ None → truthy_l o = true.

Definition engine_inv (s : State) : Prop :=
  ok_s (topic s) ∧ ok_v (day_pref s) ∧ ok_v (time_pref s) ∧
  ok_l (offered_slots s) ∧ ok_s (booking_code s) ∧
  (truthy (day_pref s) = true → truthy_s (topic s) = true) ∧
  (truthy (time_pref s) = true → truthy (day_pref s) = true) ∧
  (truthy_l (offered_slots s) = true → truthy (time_pref s) = true) ∧
  (is_Some (selected_slot s) → truthy_l (offered_slots s) = true) ∧
  (truthy_s (booking_code s) = true → is_Some (selected_slot s)) ∧
  (truthy_s (topic s) = true → disclaimer_done s = true).

(** ** Sample environments

    A service that answers every prompt with a fixed text, and one that
    is unreachable; both come with a fixed random stream. *)

Definition answers (s : string) : Env :=
  mkEnv (λ _, SvcText (Some s)) (λ _, 0).

Definition service_down : Env :=
  mkEnv (λ _, SvcRaises) (λ i, i * 7 + 30).

(** A JSON string literal, and service answers built from it. *)
Definition jstr (s : string) : string :=
  String FlatJson.dquote (s +:+ String FlatJson.dquote EmptyString).

Definition says_intent (value : string) : Env :=
  answers ("{" +:+ jstr "intent" +:+ ": " +:+ value +:+ "}").

(** ** Sample conversations

    The caller greets, asks for a KYC appointment tomorrow morning,
    picks the second option and confirms; the service is down all
    along, so the local fallback parser does the extraction. *)

Definition GREETED : World :=
  after FlatJson.loads [(service_down, "hi")] WORLD0.

Definition OFFERED : World :=
  after FlatJson.loads
    [(service_down, "I want to book a KYC appointment tomorrow morning")]
    GREETED.

Definition SELECTED : World :=
  after FlatJson.loads [(service_down, "option 2")] OFFERED.

Definition BOOKED : World :=
  after FlatJson.loads [(service_down, "yes")] SELECTED.

(** ** API layer (lines 135-174, 554-660)

    The three endpoints.  The file system and the transcription call of
    [voice_turn] are outside the module and come as a [VoiceEnv]; the
    payload of [secure_details] is read through its four fields, each
    absent, [None] or a [str] (other JSON values there are not
    modelled). *)

Record VoiceEnv : Type := mkVoiceEnv {
  (** [os.makedirs], [open] and [write] of the upload go through *)
  save_ok : bool;
  (** what [open(audio_path, "rb").read()] yields, [None] when it raises *)
  read_back : option string;
  (** the transcription call on the bytes read *)
  stt : string → response;
}.

(** Lines 135-174: any exception in the body gives the empty string. *)
Definition transcribe (venv : VoiceEnv) : string :=
  match read_back venv with
  | None => EmptyString
  | Some audio_bytes =>
      match stt venv audio_bytes with
      | SvcRaises => EmptyString
      | SvcText t => strip (default EmptyString t)
      end
  end.

(** What an endpoint answers: its JSON body, or the [HTTPException] with
    status 500 raised for a failed save or for an exception of the
    turn. *)
Inductive http (A : Type) : Type :=
  | Http200 (body : A)
  | Http500_save
  | Http500 (e : exn).
Arguments Http200 {A} body.
Arguments Http500_save {A}.
Arguments Http500 {A} e.

Record TurnBody : Type := mkTurnBody {
  transcript : string;
  reply_text : string;
}.

Section Api.

Variable json_loads : string → option (gmap string pyval).

(** Lines 556-573. *)
Definition voice_turn (venv : VoiceEnv) (env : Env) (w : World)
    : World * http TurnBody :=
  if negb (save_ok venv) then (w, Http500_save)
  else
    let transcript_ := transcribe venv in
    match turn json_loads env transcript_ w with
    | (w', Reply r) => (w', Http200 (mkTurnBody transcript_ r))
    | (w', Raises e) => (w', Http500 e)
    end.

(** Lines 575-582; an exception is left to the framework. *)
Definition text_turn (payload : gmap string pyval) (env : Env) (w : World)
    : World * http TurnBody :=
  match py_strip (py_or (dict_get payload "text") EmptyString) with
  | Err e => (w, Http500 e)
  | Ok user_text =>
      match turn json_loads env user_text w with
      | (w', Reply r) => (w', Http200 (mkTurnBody user_text r))
      | (w', Raises e) => (w', Http500 e)
      end
  end.

End Api.

(** The fields [secure_details] reads from its payload. *)
Record Details : Type := mkDetails {
  d_booking_code : option string;
  d_email : option string;
  d_phone : option string;
  d_notes : option string;
}.

(** The payloads [secure_details] is modelled on: each of the four
    fields is absent or [None], or a [str].  A payload with a field of
    another type has no such reading and is outside the model; a list
    or a dict as booking code, for one, raises [TypeError] at line 595,
    where it is used as a key. *)
Definition str_field (payload : gmap string pyval) (k : string)
    : option (option string) :=
  match dict_get payload k with
  | PNone => Some None
  | PStr s => Some (Some s)
  | POther _ => None
  end.

Definition typed_request (payload : gmap string pyval) : option Details :=
  match str_field payload "booking_code", str_field payload "email",
        str_field payload "phone", str_field payload "notes" with
  | Some c, Some e, Some p, Some n => Some (mkDetails c e p n)
  | _, _, _, _ => None
  end.

(** A value of [SECURE_DETAILS_STORE]. *)
Record Contact : Type := mkContact {
  c_email : string;
  c_phone : option string;
  c_notes : option string;
}.

Record CalendarHold : Type := mkCalendarHold {
  ch_title : string;
  ch_start : string;
  ch_timezone : string;
  ch_status : string;
}.

Record NotesEntry : Type := mkNotesEntry {
  ne_date : string;
  ne_topic : option string;
  ne_slot_id : string;
  ne_code : string;
  ne_contact_email : string;
}.

Record EmailDraft : Type := mkEmailDraft {
  ed_approval_required : bool;
  ed_to : string;
  ed_subject : string;
  ed_body : string;
}.

Inductive details_reply : Type :=
  | DetailsError (error : string)
  | DetailsOk (calendar_hold : CalendarHold) (notes_append : NotesEntry)
      (email_draft : EmailDraft).

Definition REQUIRED_ERROR : string := "booking_code and email are required".

Definition unknown_code_error (booking_code : string) : string :=
  "Unknown booking_code: " +:+ booking_code
  +:+ ". Please use the code provided by the agent.".

Definition hold_title (topic booking_code : string) : string :=
  "Advisor Q&A — " +:+ topic +:+ " — " +:+ booking_code.

Definition draft_subject (topic booking_code : string) : string :=
  "Pre-booking request — " +:+ topic +:+ " — " +:+ booking_code.

Definition draft_body (booking_code topic slot_start email phone notes : string)
    : string :=
  "Hi Advisor Team,

A caller has tentatively booked an advisor slot.

Booking Code: " +:+ booking_code +:+ "
Topic: " +:+ topic +:+ "
Slot (IST): " +:+ slot_start +:+ "
Caller Email: " +:+ email +:+ "
Caller Phone: " +:+ phone +:+ "
Notes: " +:+ notes +:+ "

Please review and confirm.
".

(** Lines 584-660, on the two stores it reads and writes. *)
Definition secure_details (d : Details) (bookings : gmap string Booking)
    (store : gmap string Contact)
    : gmap string Contact * result details_reply :=
  match d_booking_code d, d_email d with
  | Some booking_code, Some email =>
      if negb (nonempty booking_code) || negb (nonempty email) then
        (store, Ok (DetailsError REQUIRED_ERROR))
      else
        let store' :=
          <[booking_code := mkContact email (d_phone d) (d_notes d)]> store in
        match bookings !! booking_code with
        | None => (store', Ok (DetailsError (unknown_code_error booking_code)))
        | Some booking =>
            let topic_ := bk_topic booking in
            let slot := bk_slot booking in
            match slot with
            | None => (store', Err AttributeError)
            | Some slot =>
                let hold :=
                  mkCalendarHold (hold_title (fmt topic_) booking_code)
                    (start slot) TIMEZONE_LABEL "tentative" in
                let notes :=
                  mkNotesEntry (start slot) topic_ (slot_id slot)
                    booking_code email in
                let draft :=
                  mkEmailDraft true "advisor-team@example.com"
                    (draft_subject (fmt topic_) booking_code)
                    (draft_body booking_code (fmt topic_) (start slot) email
                       (or_s (d_phone d) "Not provided")
                       (or_s (d_notes d) "—")) in
                (store', Ok (DetailsOk hold notes draft))
            end
        end
  | _, _ => (store, Ok (DetailsError REQUIRED_ERROR))
  end.

(** ** Further vocabulary for the statements *)

(** [P] holds of the content of an optional value. *)
Definition opt_all {A} (P : A → Prop) (o : option A) : Prop :=
  match o with Some a => P a | None => True end.

(** Two different slots of the catalog. *)
Definition offer_ok (l : list Slot) : Prop :=
  ∃ a b, l = [a; b] ∧ a ∈ MOCK_SLOTS ∧ b ∈ MOCK_SLOTS ∧ a ≠ b.

(** A booking record as the confirmation step files it. *)
Definition booking_ok (code : string) (b : Booking) : Prop :=
  is_booking_code code = true ∧
  (∃ t, bk_topic b = Some t ∧ t ∈ TOPICS) ∧
  (∃ s, bk_slot b = Some s ∧ s ∈ MOCK_SLOTS) ∧
  bk_timezone b = TIMEZONE_LABEL.

(** What the fields of the state hold and how they relate to the
    booking store. *)
Definition store_inv (w : World) : Prop :=
  opt_all (λ t, t ∈ TOPICS) (topic (STATE w)) ∧
  opt_all offer_ok (offered_slots (STATE w)) ∧
  opt_all (λ s, ∃ l, offered_slots (STATE w) = Some l ∧ s ∈ l)
    (selected_slot (STATE w)) ∧
  opt_all (λ c, is_booking_code c = true) (provided_code (STATE w)) ∧
  (truthy_s (booking_code (STATE w)) = true →
   ∃ c, booking_code (STATE w) = Some c ∧
        BOOKINGS w !! c
        = Some (mkBooking (topic (STATE w)) (selected_slot (STATE w))
                  TIMEZONE_LABEL)) ∧
  map_Forall booking_ok (BOOKINGS w).

(** The six intents of the extraction contract. *)
Definition INTENTS : list string :=
  ["book_new"; "reschedule"; "cancel"; "what_to_prepare";
   "check_availability"; "other"].

(** Classes of characters other than a brace. *)
Definition not_open (c : ascii) : bool := negb (Ascii.eqb "{" c).
Definition not_close (c : ascii) : bool := negb (Ascii.eqb "}" c).

(** The character occurs in the text. *)
Definition has_char (p : ascii → bool) (s : string) : Prop :=
  ∃ c, c ∈ chars s ∧ p c = true.

(** * Properties *)

(** ** Text *)

Lemma chars_text l : chars (text l) = l.
Proof. apply list_ascii_of_string_of_list_ascii. Qed.

Lemma text_chars s : text (chars s) = s.
Proof. apply string_of_list_ascii_of_string. Qed.

Lemma nonempty_false s : nonempty s = false ↔ s = EmptyString.
Proof. destruct s; simpl; split; congruence. Qed.

Lemma space_not_word c : is_space c = true → is_word c = false.
Proof. destruct c as [[] [] [] [] [] [] [] []]; vm_compute; congruence. Qed.

Lemma to_lower_space c : is_space c = true → to_lower c = c.
Proof. destruct c as [[] [] [] [] [] [] [] []]; vm_compute; congruence. Qed.

Lemma lstrip_nil_blank l : lstrip_l l = [] → Forall (λ c, is_space c = true) l.
Proof.
  induction l as [|c l IH]; simpl; [constructor|].
  destruct (is_space c) eqn:Hc; [|discriminate].
  intros H. constructor; auto.
Qed.

Lemma lstrip_suffix l : ∃ ws, l = ws ++ lstrip_l l ∧ Forall (λ c, is_space c = true) ws.
Proof.
  induction l as [|c l (ws & Heq & Hws)]; simpl.
  - exists []. split; [done|constructor].
  - destruct (is_space c) eqn:Hc.
    + exists (c :: ws). split; [simpl; congruence|by constructor].
    + exists []. split; [done|constructor].
Qed.

Lemma rstrip_snoc l c :
  rstrip_l (l ++ [c]) = if is_space c then rstrip_l l else l ++ [c].
Proof.
  unfold rstrip_l. rewrite rev_unit. simpl.
  destruct (is_space c); [done|].
  simpl. by rewrite rev_involutive.
Qed.

Lemma rstrip_nil_blank l : rstrip_l l = [] → Forall (λ c, is_space c = true) l.
Proof.
  induction l as [|c l IH] using rev_ind; [constructor|].
  rewrite rstrip_snoc. destruct (is_space c) eqn:Hc.
  - intros H. apply Forall_app. split; [auto|]. by repeat constructor.
  - by destruct l.
Qed.

Lemma strip_nil_blank l : strip_l l = [] → Forall (λ c, is_space c = true) l.
Proof.
  unfold strip_l. intros H%rstrip_nil_blank.
  destruct (lstrip_suffix l) as (ws & Heq & Hws).
  rewrite Heq. apply Forall_app. done.
Qed.

Lemma strip_empty_blank s :
  nonempty (strip s) = false → Forall (λ c, is_space c = true) (chars s).
Proof.
  rewrite nonempty_false. unfold strip. intros H.
  apply strip_nil_blank. by rewrite <- (chars_text (strip_l _)), H.
Qed.

Lemma prefix_head c k d s : String.prefix (String c k) (String d s) = true → c = d.
Proof. simpl. destruct (ascii_dec c d); [done|discriminate]. Qed.

(** A keyword that starts with a visible character does not occur in
    blank text. *)
Lemma contains_blank c k s :
  is_space c = false →
  Forall (λ x, is_space x = true) (chars s) →
  contains (String c k) s = false.
Proof.
  intros Hc. induction s as [|d s IH]; intros Hs; [done|].
  inversion Hs as [|? ? Hd Hs']; subst.
  cbn [contains]. rewrite IH by done. rewrite orb_false_r.
  destruct (String.prefix (String c k) (String d s)) eqn:Hp; [|done].
  apply prefix_head in Hp. congruence.
Qed.

Lemma lower_blank s :
  Forall (λ x, is_space x = true) (chars s) →
  Forall (λ x, is_space x = true) (chars (lower s)).
Proof.
  unfold lower. rewrite chars_text. intros H.
  induction H as [|c l Hc _ IH]; simpl; constructor; auto.
  by rewrite to_lower_space.
Qed.

(** ** Local fallback parser *)

Lemma infer_topic_truthy t : infer_topic t ≠ None → truthy_s (infer_topic t) = true.
Proof. unfold infer_topic. repeat case_match; done. Qed.

Lemma infer_day_truthy t : infer_day t ≠ None → truthy_s (infer_day t) = true.
Proof. unfold infer_day, WEEKDAYS. cbn [find]. repeat case_match; done. Qed.

Lemma infer_time_truthy t : infer_time t ≠ None → truthy_s (infer_time t) = true.
Proof. unfold infer_time. repeat case_match; done. Qed.

Lemma mk_info_intent i t d tm : mk_info i t d tm !! "intent" = Some (PStr i).
Proof. unfold mk_info. by rewrite lookup_insert_eq. Qed.

(** On blank text the parser finds nothing: its result is the default
    extraction result. *)
Lemma local_intent_fallback_blank user_text st :
  Forall (λ c, is_space c = true) (chars user_text) →
  local_intent_fallback user_text st = _json_fallback.
Proof.
  intros H%lower_blank. unfold local_intent_fallback.
  assert (infer_topic (lower user_text) = None) as ->.
  { unfold infer_topic. by rewrite !contains_blank. }
  assert (infer_day (lower user_text) = None) as ->.
  { unfold infer_day, WEEKDAYS. cbn [find]. by rewrite !contains_blank. }
  assert (infer_time (lower user_text) = None) as ->.
  { unfold infer_time. by rewrite !contains_blank. }
  assert (infer_intent (lower user_text) = "other") as ->.
  { unfold infer_intent, any_in. cbn [existsb]. by rewrite !contains_blank. }
  cbn. by rewrite andb_false_r.
Qed.

(** C6 — whenever the keyword rules infer [other] or
    [check_availability] and a topic, a day or a time is extracted from
    the text, [local_intent_fallback] answers with intent [book_new]. *)
Theorem C6_fallback_escalates_to_book_new (user_text : string) (st : State) :
  let t := lower user_text in
  infer_intent t = "other" ∨ infer_intent t = "check_availability" →
  infer_topic t ≠ None ∨ infer_day t ≠ None ∨ infer_time t ≠ None →
  local_intent_fallback user_text st !! "intent" = Some (PStr "book_new").
Proof.
  intros t Hi Hf. unfold local_intent_fallback. fold t.
  rewrite mk_info_intent.
  assert (truthy_s (infer_topic t) || truthy_s (infer_day t)
          || truthy_s (infer_time t) = true) as ->.
  { destruct Hf as [H|[H|H]].
    - by rewrite infer_topic_truthy.
    - rewrite (infer_day_truthy t) by done. by rewrite orb_true_r.
    - rewrite (infer_time_truthy t) by done. by rewrite !orb_true_r. }
  destruct Hi as [-> | ->]; done.
Qed.

Lemma C6_witness :
  local_intent_fallback "Is anything available on Friday?" STATE0 !! "intent"
  = Some (PStr "book_new").
Proof.
  apply C6_fallback_escalates_to_book_new.
  - right. vm_compute. reflexivity.
  - right. left. vm_compute. discriminate.
Defined.

(** ** Slot candidate selector *)

(** C7 — the selector returns the first two candidates of the list
    chosen by the time-preference bucket alone: evening-like gives
    slots 4 and 3, otherwise afternoon-like gives slots 3 and 2,
    otherwise slots 1 and 2; both come from the catalog and the day
    preference plays no part. *)
Theorem C7_selector_buckets (day day' : pyval) (time_pref : option string) :
  let tp := lower (default EmptyString time_pref) in
  let offer :=
    if evening_like tp then [SLOT_104; SLOT_103]
    else if afternoon_like tp then [SLOT_103; SLOT_102]
    else [SLOT_101; SLOT_102] in
  mock_pick_two_slots day (of_opt time_pref) = Ok offer
  ∧ mock_pick_two_slots day' (of_opt time_pref)
    = mock_pick_two_slots day (of_opt time_pref)
  ∧ length offer = 2
  ∧ ∀ s, s ∈ offer → s ∈ MOCK_SLOTS.
Proof.
  intros tp offer.
  assert (py_lower (py_or (of_opt time_pref) EmptyString) = Ok tp) as Htp.
  { destruct time_pref as [[|c s]|]; done. }
  split_and!.
  - unfold mock_pick_two_slots. rewrite Htp.
    unfold offer, evening_like, afternoon_like. by repeat case_match.
  - done.
  - unfold offer. by repeat case_match.
  - intros s. unfold offer, MOCK_SLOTS.
    destruct (evening_like tp), (afternoon_like tp);
      rewrite !elem_of_cons; tauto.
Qed.

(** ** Extraction service adapter *)

Section AdapterFacts.

Variable json_loads : string → option (gmap string pyval).

Lemma detect_blank env user_text st :
  nonempty user_text = false ∨ nonempty (strip user_text) = false →
  detect_intent_and_extract json_loads env user_text st = Ok _json_fallback.
Proof.
  intros H. unfold detect_intent_and_extract.
  destruct H as [-> | ->]; by rewrite ?orb_true_r.
Qed.

Lemma blank_cases user_text :
  nonempty user_text = false ∨ nonempty (strip user_text) = false →
  Forall (λ c, is_space c = true) (chars user_text).
Proof.
  intros [H|H]; [|by apply strip_empty_blank].
  apply nonempty_false in H as ->. constructor.
Qed.

(** C1 (amended) — the adapter always returns a dict.  When the service
    call raises, the dict is the local fallback parser's result for the
    text.  When the service answers and its response holds no brace
    span that decodes to a JSON object, the dict is the fixed default
    [{intent: other, topic: None, day_preference: None,
    time_preference: None}]. *)
Theorem C1_adapter_never_fails_and_falls_back
    (env : Env) (user_text : string) (st : State) :
  (∃ info, detect_intent_and_extract json_loads env user_text st = Ok info)
  ∧ (gemini env (prompt_for user_text) = SvcRaises →
     detect_intent_and_extract json_loads env user_text st
     = Ok (local_intent_fallback user_text st))
  ∧ (∀ t, gemini env (prompt_for user_text) = SvcText t →
     extract_first_json_object json_loads (strip (default EmptyString t)) = None →
     detect_intent_and_extract json_loads env user_text st = Ok _json_fallback).
Proof.
  split_and!.
  - unfold detect_intent_and_extract. repeat case_match; eauto.
  - intros Hsvc.
    destruct (negb (nonempty user_text) || negb (nonempty (strip user_text)))
      eqn:Hb.
    + rewrite local_intent_fallback_blank, detect_blank; [done| |].
      * apply orb_true_iff in Hb as [H|H]; apply negb_true_iff in H; auto.
      * apply blank_cases.
        apply orb_true_iff in Hb as [H|H]; apply negb_true_iff in H; auto.
    + unfold detect_intent_and_extract, detect_try. by rewrite Hb, Hsvc.
  - intros t Hsvc Hnone.
    unfold detect_intent_and_extract, detect_try. rewrite Hsvc, Hnone.
    by case_match.
Qed.

End AdapterFacts.

(** C1 as stated fails: a response without any brace yields the default
    result, not the fallback parser's. *)
Lemma C1_counterexample :
  extract_first_json_object FlatJson.loads (strip "I cannot help with that.")
  = None
  ∧ detect_intent_and_extract FlatJson.loads
      (answers "I cannot help with that.") "book kyc tomorrow" STATE0
    = Ok _json_fallback
  ∧ local_intent_fallback "book kyc tomorrow" STATE0 !! "intent"
    = Some (PStr "book_new")
  ∧ detect_intent_and_extract FlatJson.loads
      (answers "I cannot help with that.") "book kyc tomorrow" STATE0
    ≠ Ok (local_intent_fallback "book kyc tomorrow" STATE0).
Proof.
  split_and!; [vm_compute; reflexivity..|].
  intros H.
  apply (f_equal (λ r, match r with Ok d => d !! "intent" | Err _ => None end))
    in H.
  vm_compute in H. discriminate.
Qed.

(** ** Regular expressions: the matcher against the declarative semantics *)

Section RegexFacts.

Lemma last_of_nil prev : last_of prev [] = prev.
Proof. done. Qed.

Lemma last_of_cons prev c w : last_of prev (c :: w) = last_of (Some c) w.
Proof.
  unfold last_of. destruct w as [|d w]; [done|].
  rewrite last_cons_cons. destruct (last (d :: w)) eqn:E; [done|].
  by apply last_None in E.
Qed.

Lemma last_of_app prev w1 w2 :
  last_of prev (w1 ++ w2) = last_of (last_of prev w1) w2.
Proof.
  revert prev. induction w1 as [|c w1 IH]; intros prev; [done|].
  rewrite <- app_comm_cons, !last_of_cons. apply IH.
Qed.

Lemma last_of_None pre : last_of None pre = last pre.
Proof. unfold last_of. by destruct (last pre). Qed.

Lemma is_Some_or_else_l {A} (x y : option A) : is_Some x → is_Some (or_else x y).
Proof. by destruct x. Qed.

Lemma is_Some_or_else_r {A} (x y : option A) : is_Some y → is_Some (or_else x y).
Proof. destruct x; [eauto|done]. Qed.

Lemma star_k_skip {A} p (k : option ascii → list ascii → option A) prev s :
  is_Some (k prev s) → is_Some (star_k p k prev s).
Proof.
  destruct s as [|c s]; [done|]. simpl.
  destruct (p c); [apply is_Some_or_else_r|done].
Qed.

(** Completeness: whatever the semantics matches, the matcher finds. *)
Lemma mt_complete r prev w rest :
  matches r prev w rest →
  ∀ A (k : option ascii → list ascii → option A),
    is_Some (k (last_of prev w) rest) → is_Some (mt r prev (w ++ rest) k).
Proof.
  induction 1 as
    [prev rest|p prev c rest Hp|prev rest Hb
    |r1 r2 prev w1 w2 rest _ IH1 _ IH2
    |r1 r2 prev w rest _ IH|r1 r2 prev w rest _ IH
    |p prev rest|p prev c w rest Hp _ IH]; intros A k Hk; simpl.
  - done.
  - by rewrite Hp.
  - by rewrite Hb.
  - rewrite <- app_assoc. apply IH1, IH2. by rewrite <- last_of_app.
  - by apply is_Some_or_else_l, IH.
  - by apply is_Some_or_else_r, IH.
  - by apply star_k_skip.
  - rewrite Hp. apply is_Some_or_else_l, IH. by rewrite <- (last_of_cons prev).
Qed.

Lemma star_k_sound {A} p (k : option ascii → list ascii → option A) s :
  ∀ prev a, star_k p k prev s = Some a →
  ∃ w rest, s = w ++ rest ∧ matches (Star p) prev w rest
            ∧ k (last_of prev w) rest = Some a.
Proof.
  induction s as [|c s IH]; intros prev a; simpl.
  - intros H. exists [], []. split_and!; [done|constructor|done].
  - destruct (p c) eqn:Hp.
    + destruct (star_k p k (Some c) s) as [a'|] eqn:Hs; simpl.
      * intros [= ->]. destruct (IH _ _ Hs) as (w & rest & -> & Hm & Hk).
        exists (c :: w), rest. split_and!; [done|by constructor|].
        by rewrite last_of_cons.
      * intros H. exists [], (c :: s). split_and!; [done|constructor|done].
    + intros H. exists [], (c :: s). split_and!; [done|constructor|done].
Qed.

(** Soundness: a success of the matcher is a match of the semantics. *)
Lemma mt_sound {A} r :
  ∀ prev s (k : option ascii → list ascii → option A) a,
  mt r prev s k = Some a →
  ∃ w rest, s = w ++ rest ∧ matches r prev w rest
            ∧ k (last_of prev w) rest = Some a.
Proof.
  induction r as [|p| |r1 IH1 r2 IH2|r1 IH1 r2 IH2|p]; intros prev s k a; simpl.
  - intros H. exists [], s. split_and!; [done|constructor|done].
  - destruct s as [|c s]; [done|]. destruct (p c) eqn:Hp; [|done].
    intros H. exists [c], s. split_and!; [done|by constructor|done].
  - destruct (boundary prev s) eqn:Hb; [|done].
    intros H. exists [], s. split_and!; [done|by constructor|done].
  - intros H. apply IH1 in H as (w1 & rest1 & -> & Hm1 & H).
    apply IH2 in H as (w2 & rest & -> & Hm2 & H).
    exists (w1 ++ w2), rest. rewrite app_assoc. split_and!; [done| |].
    + by constructor.
    + by rewrite last_of_app.
  - destruct (mt r1 prev s k) as [a'|] eqn:H1; simpl.
    + intros [= ->]. apply IH1 in H1 as (w & rest & -> & Hm & H).
      exists w, rest. split_and!; [done|by apply M_alt_l|done].
    + intros H2. apply IH2 in H2 as (w & rest & -> & Hm & H).
      exists w, rest. split_and!; [done|by apply M_alt_r|done].
  - apply star_k_sound.
Qed.

Lemma match_here_sound r prev s m :
  match_here r prev s = Some m →
  ∃ rest, s = m ++ rest ∧ matches r prev m rest.
Proof.
  unfold match_here.
  destruct (mt r prev s _) as [rest|] eqn:H; [|done].
  apply mt_sound in H as (w & rest' & -> & Hm & [= ->]).
  intros [= <-]. exists rest.
  rewrite length_app, Nat.add_sub, take_app_length. done.
Qed.

Lemma match_here_complete r prev w rest :
  matches r prev w rest → is_Some (match_here r prev (w ++ rest)).
Proof.
  intros H. unfold match_here.
  destruct (mt_complete _ _ _ _ H _ (λ _ rest, Some rest)) as [x ->]; eauto.
Qed.

Lemma search_from_sound r : ∀ s prev m,
  search_from r prev s = Some m →
  ∃ pre post, s = pre ++ m ++ post ∧ matches r (last_of prev pre) m post.
Proof.
  induction s as [|c s IH]; intros prev m; simpl.
  - destruct (match_here r prev []) as [m'|] eqn:H; [|done].
    intros [= ->]. apply match_here_sound in H as (rest & Hs & Hm).
    exists [], rest. done.
  - destruct (match_here r prev (c :: s)) as [m'|] eqn:H.
    + intros [= ->]. apply match_here_sound in H as (rest & Hs & Hm).
      exists [], rest. done.
    + intros (pre & post & -> & Hm)%IH.
      exists (c :: pre), post. split; [done|]. by rewrite last_of_cons.
Qed.

Lemma search_from_complete r pre w post : ∀ prev,
  matches r (last_of prev pre) w post →
  is_Some (search_from r prev (pre ++ w ++ post)).
Proof.
  induction pre as [|c pre IH]; intros prev Hm.
  - rewrite last_of_nil in Hm.
    destruct (match_here_complete _ _ _ _ Hm) as [m Hh].
    simpl. destruct (w ++ post); simpl; rewrite Hh; eauto.
  - simpl. destruct (match_here r prev _); [eauto|].
    apply IH. by rewrite <- (last_of_cons prev).
Qed.

(** [re.search] finds a match exactly when the text has an occurrence
    of the pattern. *)
Lemma search_occurs r s : is_Some (search r s) ↔ occurs r (chars s).
Proof.
  unfold search, occurs. rewrite fmap_is_Some. split.
  - intros [m (pre & post & Hs & Hm)%search_from_sound].
    exists pre, m, post. by rewrite <- last_of_None.
  - intros (pre & w & post & -> & Hm).
    apply search_from_complete. by rewrite last_of_None.
Qed.

End RegexFacts.

(** ** Patterns framed by word boundaries survive [strip] *)

Section Framed.

Lemma matches_ctx r prev w rest :
  matches r prev w rest →
  ∀ prev' rest',
    word_opt prev' = word_opt prev →
    word_opt (head rest') = word_opt (head rest) →
    matches r prev' w rest'.
Proof.
  induction 1 as
    [prev rest|p prev c rest Hp|prev rest Hb
    |r1 r2 prev w1 w2 rest _ IH1 _ IH2
    |r1 r2 prev w rest _ IH|r1 r2 prev w rest _ IH
    |p prev rest|p prev c w rest Hp _ IH]; intros prev' rest' Hprev Hrest.
  - constructor.
  - by constructor.
  - constructor. unfold boundary in *. by rewrite Hprev, Hrest.
  - constructor.
    + apply IH1; [done|]. by destruct w2.
    + apply IH2; [|done]. unfold last_of. by destruct (last w1).
  - apply M_alt_l. by apply IH.
  - apply M_alt_r. by apply IH.
  - constructor.
  - constructor; [done|]. by apply IH.
Qed.

Lemma starts_wb_boundary r prev w rest :
  starts_wb r = true → matches r prev w rest →
  boundary prev (w ++ rest) = true.
Proof.
  destruct r as [| | |[] r2| |]; try done. intros _ H.
  inversion H as [| | |? ? ? w1 w2 ? H1 H2| | | |]; subst.
  inversion H1; subst. done.
Qed.

Lemma ends_wb_boundary r : ∀ prev w rest,
  ends_wb r = true → matches r prev w rest →
  boundary (last_of prev w) rest = true.
Proof.
  induction r as [| | |r1 _ r2 IH| |]; intros prev w rest; try done.
  - intros _ H. by inversion H; subst.
  - simpl. intros Hr H.
    inversion H as [| | |? ? ? w1 w2 ? H1 H2| | | |]; subst.
    rewrite last_of_app. by apply IH.
Qed.

Lemma word_opt_last_blank c (pre : list ascii) :
  is_space c = true → word_opt (last pre) = word_opt (last (c :: pre)).
Proof.
  intros Hc. destruct pre as [|d pre]; [|by rewrite last_cons_cons].
  simpl. by rewrite space_not_word.
Qed.

Lemma word_opt_head_blank c (post : list ascii) :
  is_space c = true → word_opt (head post) = word_opt (head (post ++ [c])).
Proof.
  intros Hc. destruct post as [|d post]; [|done].
  simpl. by rewrite space_not_word.
Qed.

Lemma occurs_drop_l r c l :
  starts_wb r = true → is_space c = true → occurs r (c :: l) → occurs r l.
Proof.
  intros Hr Hc (pre & w & post & Heq & Hm).
  destruct pre as [|c' pre].
  - apply (starts_wb_boundary _ _ _ _ Hr) in Hm.
    simpl in Heq. rewrite <- Heq in Hm.
    unfold boundary in Hm. simpl in Hm. by rewrite space_not_word in Hm.
  - injection Heq as <- ->. exists pre, w, post. split; [done|].
    eapply matches_ctx; [done| |done]. by apply word_opt_last_blank.
Qed.

Lemma occurs_lstrip r l :
  starts_wb r = true → occurs r l → occurs r (lstrip_l l).
Proof.
  intros Hr. induction l as [|c l IH]; [done|]. simpl.
  destruct (is_space c) eqn:Hc; [|done].
  intros H. by apply IH, (occurs_drop_l r c).
Qed.

Lemma occurs_drop_r r c l :
  ends_wb r = true → is_space c = true → occurs r (l ++ [c]) → occurs r l.
Proof.
  intros Hr Hc (pre & w & post & Heq & Hm).
  destruct post as [|c' post _] using rev_ind.
  - apply (ends_wb_boundary _ _ _ _ Hr) in Hm.
    rewrite app_nil_r in Heq.
    rewrite <- last_of_None, <- last_of_app, last_of_None, <- Heq in Hm.
    rewrite last_snoc in Hm.
    unfold boundary in Hm. simpl in Hm. by rewrite space_not_word in Hm.
  - rewrite !app_assoc in Heq. apply app_inj_tail in Heq as [-> ->].
    exists pre, w, post. split; [by rewrite app_assoc|].
    eapply matches_ctx; [done|done|]. by apply word_opt_head_blank.
Qed.

Lemma occurs_rstrip r l :
  ends_wb r = true → occurs r l → occurs r (rstrip_l l).
Proof.
  intros Hr. induction l as [|c l IH] using rev_ind; [done|].
  rewrite rstrip_snoc. destruct (is_space c) eqn:Hc; [|done].
  intros H. by apply IH, (occurs_drop_r r c).
Qed.

Lemma occurs_strip r s :
  starts_wb r = true → ends_wb r = true →
  occurs r (chars s) → occurs r (chars (strip s)).
Proof.
  intros H1 H2 H. unfold strip, strip_l. rewrite chars_text.
  by apply occurs_rstrip, occurs_lstrip.
Qed.

Lemma contains_pii_occurs s :
  contains_pii s = true ↔ ∃ p, p ∈ PII_PATTERNS ∧ occurs p (chars s).
Proof.
  unfold contains_pii. rewrite existsb_exists.
  split; intros (p & Hp & H); exists p.
  - apply bool_decide_eq_true, search_occurs in H.
    by rewrite list_elem_of_In.
  - rewrite <- list_elem_of_In. split; [done|].
    by apply bool_decide_eq_true, search_occurs.
Qed.



(** A code recognised in a text has the booking-code format. *)
Lemma extract_booking_code_format s code :
  extract_booking_code s = Some code → is_booking_code code = true.
Proof.
  unfold extract_booking_code, search.
  destruct (search_from _ _ _) as [m|] eqn:H; [|done].
  intros [= <-].
  apply search_from_sound in H as (pre & post & _ & H).
  cbv [RE_CODE lit_with rep chr] in H.
  repeat match goal with
  | H : matches (Seq _ _) _ _ _ |- _ => inversion H; clear H; subst
  | H : matches (Cls _) _ _ _ |- _ => inversion H; clear H; subst
  | H : matches WordB _ _ _ |- _ => inversion H; clear H; subst
  | H : Ascii.eqb _ _ = true |- _ => apply Ascii.eqb_eq in H; subst
  end.
  unfold is_booking_code. rewrite chars_text. simpl.
  repeat match goal with H : cls_code _ = true |- _ => rewrite H; clear H end.
  done.
Qed.

End Framed.

(** ** The PII patterns, from the characters of the text *)


Section PiiPatterns.

Lemma matches_wordb_seq r prev w rest :
  boundary prev (w ++ rest) = true →
  matches r prev w rest → matches (Seq WordB r) prev w rest.
Proof.
  intros Hb Hm. change w with ([] ++ w). constructor; [by constructor|done].
Qed.

Lemma matches_cls_seq (p : ascii → bool) r prev c w rest :
  p c = true →
  matches r (Some c) w rest → matches (Seq (Cls p) r) prev (c :: w) rest.
Proof.
  intros Hp Hm. change (c :: w) with ([c] ++ w).
  constructor; [by constructor|done].
Qed.














End PiiPatterns.

(** ** Code literals, from the characters of the text *)

Lemma is_word_upper c : is_word (to_upper c) = is_word c.
Proof. destruct c as [[] [] [] [] [] [] [] []]; vm_compute; reflexivity. Qed.

Lemma is_space_upper c : is_space (to_upper c) = is_space c.
Proof. destruct c as [[] [] [] [] [] [] [] []]; vm_compute; reflexivity. Qed.

Lemma word_opt_last_upper l :
  word_opt (last (map to_upper l)) = word_opt (last l).
Proof.
  induction l as [|c l _] using rev_ind; [done|].
  rewrite map_app. simpl. rewrite !last_snoc. simpl. apply is_word_upper.
Qed.

Lemma word_opt_head_upper l :
  word_opt (head (map to_upper l)) = word_opt (head l).
Proof. destruct l; [done|]. simpl. apply is_word_upper. Qed.

Lemma chars_upper s : chars (upper s) = map to_upper (chars s).
Proof. unfold upper. apply chars_text. Qed.

Lemma is_booking_code_chars s :
  is_booking_code s = true →
  ∃ a b c d,
    chars s = ["N"; "L"; "-"; a; b; c; d]%char ∧
    cls_code a = true ∧ cls_code b = true ∧
    cls_code c = true ∧ cls_code d = true.
Proof.
  unfold is_booking_code.
  destruct (chars s) as [|x1 [|x2 [|x3 [|a [|b [|c [|d [|? ?]]]]]]]];
    try (repeat case_match; discriminate).
  destruct x1 as [[] [] [] [] [] [] [] []]; try discriminate.
  destruct x2 as [[] [] [] [] [] [] [] []]; try discriminate.
  destruct x3 as [[] [] [] [] [] [] [] []]; try discriminate.
  intros H. apply andb_prop in H as [H Hd].
    apply andb_prop in H as [H Hc]. apply andb_prop in H as [Ha Hb].
    by exists a, b, c, d.
Qed.

Lemma cls_code_upper c : cls_code c = true → to_upper c = c.
Proof. destruct c as [[] [] [] [] [] [] [] []]; vm_compute; congruence. Qed.

Lemma cls_code_word c : cls_code c = true → is_word c = true.
Proof. destruct c as [[] [] [] [] [] [] [] []]; vm_compute; congruence. Qed.

(** A code literal of the text is an occurrence of the pattern in the
    upper-cased text. *)
Lemma code_literal_occurs s code :
  code_literal s code → occurs RE_CODE (chars (upper s)).
Proof.
  intros (pre & w & post & Hs & Hw & Hfmt & Hpre & Hpost).
  apply is_booking_code_chars in Hfmt
    as (a & b & c & d & Hch & Ha & Hb & Hc & Hd).
  exists (map to_upper pre), (chars code), (map to_upper post).
  split; [by rewrite chars_upper, Hs, !map_app, Hw|].
  rewrite Hch. unfold RE_CODE, chr. cbn [lit_with rep].
  apply matches_wordb_seq.
  { unfold boundary. by rewrite word_opt_last_upper, Hpre. }
  do 7 (apply matches_cls_seq; [done|]).
  constructor. unfold boundary. simpl.
  by rewrite word_opt_head_upper, Hpost, (cls_code_word d Hd).
Qed.

(** What [extract_booking_code] returns is a code literal of the
    text. *)
Lemma extract_booking_code_literal s code :
  extract_booking_code s = Some code → code_literal s code.
Proof.
  intros H. pose proof (extract_booking_code_format _ _ H) as Hfmt.
  unfold extract_booking_code, search in H.
  destruct (search_from _ _ _) as [m|] eqn:Hm; [|done].
  injection H as <-.
  apply search_from_sound in Hm as (pre' & post' & Hs & Hmatch).
  rewrite chars_upper in Hs.
  apply map_eq_app in Hs as (pre & rest & Hs1 & Hpre & Hrest).
  apply map_eq_app in Hrest as (w & post & Hs2 & Hw & Hpost).
  pose proof Hfmt as (a & b & c & d & Hch & _ & _ & _ & Hd)%is_booking_code_chars.
  rewrite chars_text in Hch.
  exists pre, w, post. split_and!.
  - by rewrite Hs1, Hs2.
  - by rewrite chars_text.
  - done.
  - apply starts_wb_boundary in Hmatch; [|done].
    rewrite Hch, <- Hpre in Hmatch. unfold boundary in Hmatch.
    rewrite last_of_None, word_opt_last_upper in Hmatch. simpl in Hmatch.
    by destruct (word_opt (last pre)).
  - apply ends_wb_boundary in Hmatch; [|done].
    rewrite Hch, <- Hpost in Hmatch. unfold boundary, last_of in Hmatch.
    simpl last in Hmatch. rewrite word_opt_head_upper in Hmatch.
    simpl in Hmatch. rewrite (cls_code_word d Hd) in Hmatch.
    by destruct (word_opt (head post)).
Qed.

Lemma rstrip_prefix l :
  ∃ ws, l = rstrip_l l ++ ws ∧ Forall (λ c, is_space c = true) ws.
Proof.
  induction l as [|c l (ws & Heq & Hws)] using rev_ind.
  - exists []. split; [done|constructor].
  - rewrite rstrip_snoc. destruct (is_space c) eqn:Hc.
    + exists (ws ++ [c]). split.
      * rewrite app_assoc. by rewrite <- Heq.
      * apply Forall_app. split; [done|by repeat constructor].
    + exists []. split; [by rewrite app_nil_r|constructor].
Qed.

Lemma word_opt_last_blanks ws (pre : list ascii) :
  Forall (λ c, is_space c = true) ws →
  word_opt (last (ws ++ pre)) = word_opt (last pre).
Proof.
  induction 1 as [|c ws Hc _ IH]; [done|].
  rewrite <- app_comm_cons, <- (word_opt_last_blank c) by done. done.
Qed.

Lemma word_opt_head_blanks ws (post : list ascii) :
  Forall (λ c, is_space c = true) ws →
  word_opt (head (post ++ ws)) = word_opt (head post).
Proof.
  intros Hws. destruct post as [|d post]; [|done]. simpl.
  destruct Hws as [|c ws Hc _]; [done|]. simpl. by rewrite space_not_word.
Qed.

(** A code literal of the stripped text is one of the text. *)
Lemma code_literal_strip s code :
  code_literal (strip s) code → code_literal s code.
Proof.
  intros (pre & w & post & Hs & Hw & Hfmt & Hpre & Hpost).
  unfold strip in Hs. rewrite chars_text in Hs. unfold strip_l in Hs.
  destruct (lstrip_suffix (chars s)) as (ws1 & H1 & Hws1).
  destruct (rstrip_prefix (lstrip_l (chars s))) as (ws2 & H2 & Hws2).
  exists (ws1 ++ pre), w, (post ++ ws2). split_and!.
  - rewrite H1, H2, Hs. by rewrite <- !app_assoc.
  - done.
  - done.
  - by rewrite word_opt_last_blanks.
  - by rewrite word_opt_head_blanks.
Qed.

Lemma lstrip_map_upper l :
  lstrip_l (map to_upper l) = map to_upper (lstrip_l l).
Proof.
  induction l as [|c l IH]; [done|]. simpl.
  rewrite is_space_upper. by destruct (is_space c).
Qed.

Lemma rstrip_map_upper l :
  rstrip_l (map to_upper l) = map to_upper (rstrip_l l).
Proof. unfold rstrip_l. by rewrite <- map_rev, lstrip_map_upper, map_rev. Qed.

Lemma upper_strip s : upper (strip s) = strip (upper s).
Proof.
  unfold upper, strip, strip_l. rewrite !chars_text.
  by rewrite lstrip_map_upper, rstrip_map_upper.
Qed.

(** A text with a code literal has one recognised, surrounding white
    space or not. *)
Lemma code_literal_found s code :
  code_literal s code → is_Some (extract_booking_code (strip s)).
Proof.
  intros H%code_literal_occurs.
  apply (occurs_strip RE_CODE (upper s)) in H; [|done..].
  rewrite <- upper_strip in H. by apply search_occurs in H.
Qed.

(** ** The dialogue engine: routing *)

(** The engine is reasoned about symbolically: its text primitives and
    collaborators stay folded under [cbn] and [simpl]. *)
Arguments contains : simpl never.
Arguments any_in : simpl never.
Arguments lower : simpl never.
Arguments upper : simpl never.
Arguments strip : simpl never.
Arguments nonempty : simpl nomatch.
Arguments contains_pii : simpl never.
Arguments extract_booking_code : simpl never.
Arguments generate_booking_code : simpl never.
Arguments secure_link_for : simpl never.
Arguments mock_pick_two_slots : simpl never.
Arguments in_topics : simpl never.
Arguments local_intent_fallback : simpl never.
Arguments detect_intent_and_extract : simpl never.
Arguments prep_reply : simpl never.
Arguments dict_get : simpl never.
Arguments py_or : simpl never.
Arguments py_strip : simpl never.

(** Unfold the monad and the record plumbing, nothing else. *)
Ltac mred :=
  cbn [bind get pure return_ raise modify put_booking lift run fst snd negb
       String.eqb Ascii.eqb Bool.eqb STATE BOOKINGS
       disclaimer_done intent topic day_pref time_pref offered_slots
       selected_slot booking_code provided_code
       set_disclaimer_done set_intent set_topic set_day_pref set_time_pref
       set_offered_slots set_selected_slot set_booking_code set_provided_code
       reset_booking_state reset_reschedule_cancel
       r_info r_text r_lower r_intent] in *.

(** Symbolic execution of a block: [stuck] finds the scrutinee the
    computation is waiting for, [mexec] splits on it until the block has
    returned. *)
Ltac stuck t :=
  lazymatch t with
  | match ?x with _ => _ end => stuck x
  | ?f _ =>
      lazymatch f with
      | match _ with _ => _ end => stuck f
      | _ => constr:(t)
      end
  | _ => constr:(t)
  end.

Ltac munfold H :=
  cbv beta iota zeta delta
    [bind pure return_ raise get modify put_booking lift run] in H.

Ltac mexec H :=
  munfold H; mred;
  lazymatch type of H with
  | (_, _) = _ => idtac
  | ?lhs = _ =>
      let x := stuck lhs in
      lazymatch x with
      | negb ?b => destruct b eqn:?
      | _ => destruct x eqn:?
      end;
      mexec H
  end.

Section EngineFacts.

Variable json_loads : string → option (gmap string pyval).

#[local] Abbreviation route := (route json_loads).
#[local] Abbreviation turn := (turn json_loads).
#[local] Abbreviation next_agent_reply := (next_agent_reply json_loads).
#[local] Abbreviation effective_intent := (effective_intent json_loads).
#[local] Abbreviation reachable := (reachable json_loads).
#[local] Abbreviation after := (after json_loads).
#[local] Abbreviation detect := (detect_intent_and_extract json_loads).

Lemma route_next env user_text w w' r :
  route env user_text w = (w', Next r) →
  passes_gates user_text (STATE w) ∧
  r_text r = strip user_text ∧
  r_lower r = lower (strip user_text) ∧
  detect env (strip user_text) (STATE w) = Ok (r_info r) ∧
  (∃ i, py_strip (py_or (dict_get (r_info r) "intent") "other") = Ok i ∧
        r_intent r = if sticky (STATE w) then "book_new" else i) ∧
  w' = mkWorld (set_intent (Some (r_intent r)) (STATE w)) (BOOKINGS w).
Proof.
  unfold route, passes_gates, sticky.
  destruct (nonempty (strip user_text)) eqn:Hne; [|discriminate].
  mred. destruct (contains_pii (strip user_text)) eqn:Hpii; [discriminate|].
  destruct (disclaimer_done (STATE w)) eqn:Hd; [|discriminate].
  mred. destruct (any_in ADVICE_KEYWORDS _) eqn:Hadv; [discriminate|].
  mred. destruct (detect_intent_and_extract _ _ _ _) as [info|] eqn:Hinfo;
    [|discriminate].
  mred. destruct (py_strip _) as [i|] eqn:Hi; [|discriminate].
  mred. intros [= <- <-]. mred. split_and!; try reflexivity. by exists i.
Qed.

Lemma route_exit env user_text w :
  (∀ r, (route env user_text w).2 ≠ Next r) →
  (route env user_text w).1 = w
  ∨ (disclaimer_done (STATE w) = false
     ∧ (route env user_text w).2 = Return DISCLAIMER
     ∧ (route env user_text w).1
       = mkWorld (set_disclaimer_done true (STATE w)) (BOOKINGS w)).
Proof.
  unfold route.
  destruct (nonempty (strip user_text)); [|by left].
  mred. destruct (contains_pii (strip user_text)); [by left|].
  destruct (disclaimer_done (STATE w)); [|by right].
  mred. destruct (any_in ADVICE_KEYWORDS _); [by left|].
  mred. destruct (detect_intent_and_extract _ _ _ _) as [info|]; [|by left].
  mred. destruct (py_strip _) as [i|]; [|by left].
  mred. intros H. exfalso. by eapply H.
Qed.

(** A sticky state dispatches on [book_new]. *)
Lemma route_sticky env user_text w w' r :
  sticky (STATE w) = true →
  route env user_text w = (w', Next r) → r_intent r = "book_new".
Proof.
  intros Hs (_ & _ & _ & _ & (i & _ & Hr) & _)%route_next.
  by rewrite Hs in Hr.
Qed.

(** ** The dialogue engine: handlers *)

Lemma mock_pick_two d t l : mock_pick_two_slots d t = Ok l → ∃ a b, l = [a; b].
Proof.
  unfold mock_pick_two_slots. destruct (py_lower _); [|done].
  intros [= <-]. repeat case_match; simpl; eauto.
Qed.

Lemma in_topics_truthy v t : in_topics v = Some t → truthy_s (Some t) = true.
Proof.
  unfold in_topics. destruct v as [|s|]; try done.
  case_bool_decide as H; [|done]. intros [= <-].
  unfold TOPICS in H. rewrite !elem_of_cons, elem_of_nil in H.
  destruct H as [->|[->|[->|[->|[->|[]]]]]]; done.
Qed.

Lemma generate_truthy rnd : truthy_s (Some (generate_booking_code rnd)) = true.
Proof. done. Qed.

Ltac facts :=
  repeat match goal with
  | H : mock_pick_two_slots _ _ = Ok ?a |- _ =>
      apply mock_pick_two in H as (? & ? & ->)
  | H : in_topics _ = Some _ |- _ => apply in_topics_truthy in H
  | H : bool_decide _ = true |- _ => apply bool_decide_eq_true in H
  | H : bool_decide _ = false |- _ => apply bool_decide_eq_false in H
  end.

Ltac inv_solve :=
  facts; simplify_eq/=;
  unfold engine_inv, ok_s, ok_v, ok_l in *; mred;
  destruct_and?; split_and?; intros;
  first [done | congruence | auto 4 using generate_truthy].

Lemma book_new_flow_inv env r w w' out :
  engine_inv (STATE w) → disclaimer_done (STATE w) = true →
  book_new_flow env r w = (w', out) →
  engine_inv (STATE w').
Proof.
  destruct w as [[dd i t d tm o s c p] bk].
  unfold book_new_flow, waitlist_flow_reply.
  intros Hinv Hd H. mred. subst dd.
  mexec H; inv_solve.
Qed.

(** Once truthy, the topic, the preferences, the offer and the booking
    code are left alone by the booking flow, and so are the disclaimer
    flag and the code on file. *)
Lemma book_new_flow_keeps env r w w' out :
  book_new_flow env r w = (w', out) →
  (truthy_s (topic (STATE w)) = true → topic (STATE w') = topic (STATE w)) ∧
  (truthy (day_pref (STATE w)) = true →
     day_pref (STATE w') = day_pref (STATE w)) ∧
  (truthy (time_pref (STATE w)) = true →
     time_pref (STATE w') = time_pref (STATE w)) ∧
  (truthy_l (offered_slots (STATE w)) = true →
     offered_slots (STATE w') = offered_slots (STATE w)) ∧
  (truthy_s (booking_code (STATE w)) = true →
     booking_code (STATE w') = booking_code (STATE w)) ∧
  provided_code (STATE w') = provided_code (STATE w) ∧
  disclaimer_done (STATE w') = disclaimer_done (STATE w) ∧
  intent (STATE w') = intent (STATE w).
Proof.
  destruct w as [[dd i t d tm o s c p] bk].
  unfold book_new_flow, waitlist_flow_reply.
  intros H. mred.
  mexec H; simplify_eq/=; split_and!; intros;
    first [done | congruence | by destruct c as [[]|]].
Qed.

(** With every field filled there is nothing left to do. *)
Lemma book_new_flow_all_set env r w :
  truthy_s (topic (STATE w)) = true →
  truthy (day_pref (STATE w)) = true →
  truthy (time_pref (STATE w)) = true →
  truthy_l (offered_slots (STATE w)) = true →
  is_Some (selected_slot (STATE w)) →
  truthy_s (booking_code (STATE w)) = true →
  book_new_flow env r w = (w, Next ALL_SET).
Proof.
  destruct w as [[dd i t d tm o s c p] bk]. mred.
  intros Ht Hd Htm Ho Hs Hc.
  assert (bool_decide (is_Some s) = true) as Hs' by by apply bool_decide_eq_true_2.
  destruct (book_new_flow _ _ _) as [w' out] eqn:H.
  unfold book_new_flow in H.
  mexec H; first [congruence | by simplify_eq].
Qed.

(** A turn dispatched on [book_new] goes straight to the booking flow. *)
Lemma handlers_book_new env r w :
  r_intent r = "book_new" → handlers env r w = book_new_flow env r w.
Proof.
  intros H. unfold handlers, cancel_block, reschedule_block, prepare_block,
    availability_block, default_block.
  rewrite H. done.
Qed.

Lemma handlers_inv env r w w' out :
  engine_inv (STATE w) → disclaimer_done (STATE w) = true →
  handlers env r w = (w', out) →
  engine_inv (STATE w').
Proof.
  destruct w as [[dd i t d tm o s c p] bk].
  unfold handlers, cancel_block, reschedule_block, prepare_block,
    availability_block, default_block.
  intros Hinv Hd H. mred. subst dd.
  mexec H; simplify_eq;
    try (eapply book_new_flow_inv; [| |eassumption]; mred);
    inv_solve.
Qed.

(** ** The dialogue engine: turns *)

(** A turn is either stopped by the router or handed to the handlers. *)
Lemma turn_cases env user_text w :
  (∃ w1 r o,
      route env user_text w = (w1, Next r) ∧
      handlers env r w1 = ((turn env user_text w).1, o) ∧
      (turn env user_text w).2
      = match o with
        | Next s | Return s => Reply s
        | Raise e => Raises e
        end)
  ∨ ((∀ r, (route env user_text w).2 ≠ Next r) ∧
     (turn env user_text w).1 = (route env user_text w).1 ∧
     (turn env user_text w).2
     = match (route env user_text w).2 with
       | Next _ => Reply EmptyString
       | Return s => Reply s
       | Raise e => Raises e
       end).
Proof.
  unfold turn, run, next_agent_reply, bind.
  destruct (route env user_text w) as [w1 [r|s|e]] eqn:Hr.
  - left. destruct (handlers env r w1) as [w2 o] eqn:Hh.
    exists w1, r, o. split_and!; [done|by destruct o|by destruct o].
  - right. done.
  - right. done.
Qed.

Lemma turn_inv env user_text w :
  engine_inv (STATE w) → engine_inv (STATE (turn env user_text w).1).
Proof.
  intros Hinv.
  destruct (turn_cases env user_text w) as
    [(w1 & r & o & Hr & Hh & _) | (Hne & -> & _)].
  - apply route_next in Hr as ((_ & _ & Hd & _) & _ & _ & _ & _ & ->).
    eapply handlers_inv; [| |exact Hh]; [|done].
    destruct w as [[dd i t d tm os s c p] bk]. exact Hinv.
  - destruct (route_exit env user_text w Hne) as [-> | (Hd & _ & ->)]; [done|].
    destruct w as [[dd i t d tm os s c p] bk]. mred. subst dd.
    unfold engine_inv in *. mred. destruct_and?. split_and!; done.
Qed.

Lemma engine_inv_init : engine_inv (STATE WORLD0).
Proof. unfold engine_inv, ok_s, ok_v, ok_l. simpl. split_and!; done. Qed.

Lemma reachable_inv w : reachable w → engine_inv (STATE w).
Proof.
  induction 1 as [|w env user_text _ IH]; [apply engine_inv_init|].
  by apply turn_inv.
Qed.

Lemma reachable_after turns w : reachable w → reachable (after turns w).
Proof.
  revert w. induction turns as [|[env user_text] turns IH]; intros w Hw; [done|].
  apply IH. by constructor.
Qed.

(** A sticky state is handled by the booking flow, whatever was
    extracted. *)
Lemma turn_sticky env user_text w w1 r :
  sticky (STATE w) = true →
  route env user_text w = (w1, Next r) →
  r_intent r = "book_new" ∧
  ∃ o, book_new_flow env r w1 = ((turn env user_text w).1, o) ∧
       (turn env user_text w).2
       = match o with Next s | Return s => Reply s | Raise e => Raises e end.
Proof.
  intros Hs Hr. pose proof (route_sticky _ _ _ _ _ Hs Hr) as Hi.
  split; [done|].
  destruct (turn_cases env user_text w) as
    [(w1' & r' & o & Hr' & Hh & Ho) | (Hne & _)].
  - rewrite Hr in Hr'. injection Hr' as <- <-.
    rewrite handlers_book_new in Hh by done. eauto.
  - rewrite Hr in Hne. by destruct (Hne r).
Qed.

(** What a turn does to a sticky state: the topic, the preferences, the
    offer and the booking code stay as they are once truthy. *)
Lemma turn_keeps env user_text w :
  sticky (STATE w) = true →
  let w' := (turn env user_text w).1 in
  (truthy_s (topic (STATE w)) = true → topic (STATE w') = topic (STATE w)) ∧
  (truthy_l (offered_slots (STATE w)) = true →
     offered_slots (STATE w') = offered_slots (STATE w)) ∧
  (truthy_s (booking_code (STATE w)) = true →
     booking_code (STATE w') = booking_code (STATE w)).
Proof.
  intros Hs w'. subst w'.
  destruct (route env user_text w) as [w1 [r|s|e]] eqn:Hr.
  - destruct (turn_sticky _ _ _ _ _ Hs Hr) as (_ & o & Hb & _).
    apply route_next in Hr as (_ & _ & _ & _ & _ & ->).
    apply book_new_flow_keeps in Hb as (Ht & _ & _ & Ho & Hc & _).
    destruct w as [[dd i t d tm os s c p] bk]. done.
  - destruct (turn_cases env user_text w) as
      [(w1' & r' & o & Hr' & _) | (Hne & -> & _)]; [congruence|].
    destruct (route_exit env user_text w Hne) as [-> | (_ & _ & ->)]; [done|].
    by destruct w as [[dd i t d tm os s' c p] bk].
  - destruct (turn_cases env user_text w) as
      [(w1' & r' & o & Hr' & _) | (Hne & -> & _)]; [congruence|].
    destruct (route_exit env user_text w Hne) as [-> | (_ & _ & ->)]; [done|].
    by destruct w as [[dd i t d tm os s' c p] bk].
Qed.

Lemma sticky_cases s :
  sticky s = true ↔
  truthy_l (offered_slots s) = true ∨ truthy_s (topic s) = true.
Proof. unfold sticky. apply orb_true_iff. Qed.

Lemma turn_sticky_pres env user_text w :
  sticky (STATE w) = true → sticky (STATE (turn env user_text w).1) = true.
Proof.
  intros Hs. destruct (turn_keeps env user_text w Hs) as (Ht & Ho & _).
  apply sticky_cases. apply sticky_cases in Hs as [H|H].
  - left. by rewrite Ho.
  - right. by rewrite Ht.
Qed.

Lemma after_sticky turns : ∀ w,
  sticky (STATE w) = true → sticky (STATE (after turns w)) = true.
Proof.
  induction turns as [|[env user_text] turns IH]; intros w Hs; [done|].
  apply IH. by apply turn_sticky_pres.
Qed.

Lemma after_cons env user_text turns w :
  after ((env, user_text) :: turns) w = after turns (turn env user_text w).1.
Proof. done. Qed.

Lemma after_keeps turns : ∀ w,
  truthy_s (topic (STATE w)) = true →
  topic (STATE (after turns w)) = topic (STATE w) ∧
  (truthy_s (booking_code (STATE w)) = true →
   booking_code (STATE (after turns w)) = booking_code (STATE w)).
Proof.
  induction turns as [|[env user_text] turns IH]; intros w Ht; [done|].
  assert (sticky (STATE w) = true) as Hs by (apply sticky_cases; by right).
  destruct (turn_keeps env user_text w Hs) as (Ht' & _ & Hc').
  specialize (Ht' Ht).
  destruct (IH (turn env user_text w).1) as (IHt & IHc).
  { by rewrite Ht'. }
  rewrite after_cons. split.
  - by rewrite IHt.
  - intros Hc. specialize (Hc' Hc). rewrite IHc by (by rewrite Hc').
    done.
Qed.

(** In a reachable state a non-null field is truthy. *)
Lemma reachable_sticky w :
  reachable w →
  offered_slots (STATE w) ≠ None ∨ topic (STATE w) ≠ None →
  sticky (STATE w) = true.
Proof.
  intros (Ht & _ & _ & Ho & _)%reachable_inv H. apply sticky_cases.
  destruct H as [H|H]; [left; by apply Ho|right; by apply Ht].
Qed.

Lemma truthy_s_non_null o : truthy_s o = true → o ≠ None.
Proof. by destruct o. Qed.

Lemma truthy_l_non_null o : truthy_l o = true → o ≠ None.
Proof. by destruct o. Qed.

Lemma effective_intent_route env user_text w i :
  effective_intent env user_text w = Some i →
  ∃ w1 r, route env user_text w = (w1, Next r) ∧ r_intent r = i.
Proof.
  unfold effective_intent.
  destruct (route env user_text w) as [w1 [r|s|e]]; [|done..].
  intros [= <-]. eauto.
Qed.

(** ** The claims about the dialogue engine *)

Lemma truthy_non_null v : truthy v = true → v ≠ PNone.
Proof. by destruct v. Qed.

Lemma inv_left_to_right s : engine_inv s → left_to_right (filled s).
Proof.
  intros (Ht & Hd & Htm & Ho & Hc & Hdt & Htd & Hotm & Hso & Hcs & _).
  assert (bool_decide (day_pref s ≠ PNone) = true →
          bool_decide (topic s ≠ None) = true) as B1.
  { rewrite !bool_decide_eq_true. intros H.
    by apply truthy_s_non_null, Hdt, Hd. }
  assert (bool_decide (time_pref s ≠ PNone) = true →
          bool_decide (day_pref s ≠ PNone) = true) as B2.
  { rewrite !bool_decide_eq_true. intros H.
    by apply truthy_non_null, Htd, Htm. }
  assert (bool_decide (offered_slots s ≠ None) = true →
          bool_decide (time_pref s ≠ PNone) = true) as B3.
  { rewrite !bool_decide_eq_true. intros H.
    by apply truthy_non_null, Hotm, Ho. }
  assert (bool_decide (selected_slot s ≠ None) = true →
          bool_decide (offered_slots s ≠ None) = true) as B4.
  { rewrite !bool_decide_eq_true. intros H.
    apply truthy_l_non_null, Hso. by destruct (selected_slot s). }
  assert (bool_decide (booking_code s ≠ None) = true →
          bool_decide (selected_slot s ≠ None) = true) as B5.
  { rewrite !bool_decide_eq_true. intros H.
    destruct (Hcs (Hc H)) as [x ->]. done. }
  unfold left_to_right, filled. intros i j Hij.
  do 6 (destruct j as [|j];
    [do 6 (destruct i as [|i]; [try lia; simpl; intros [= H]; f_equal; auto 6|]);
     lia|]).
  done.
Qed.

(** C3 — in every state reachable from the initial one, the booking
    sub-state is filled left to right, topic, day, time, offered slots,
    selected slot, booking code: a later field is never non-null while
    an earlier one is null. *)
Theorem C3_fields_filled_left_to_right (w : World) :
  reachable w → left_to_right (filled (STATE w)).
Proof. intros H. by apply inv_left_to_right, reachable_inv. Qed.

(** C2 — from a reachable state whose [offered_slots] or [topic] is
    non-null, after any further turns one of the two is still non-null,
    and every turn that gets to the dispatch does so with intent
    [book_new], which is also the intent it records, whatever the
    extraction returned. *)
Theorem C2_sticky_flow_forces_book_new
    (w : World) (turns : list (Env * string)) (env : Env) (user_text : string) :
  reachable w →
  offered_slots (STATE w) ≠ None ∨ topic (STATE w) ≠ None →
  let w' := after turns w in
  (offered_slots (STATE w') ≠ None ∨ topic (STATE w') ≠ None)
  ∧ ∀ i, effective_intent env user_text w' = Some i →
      i = "book_new"
      ∧ intent (STATE (turn env user_text w').1) = Some "book_new".
Proof.
  intros Hw Hnn w'.
  assert (sticky (STATE w') = true) as Hs.
  { by apply after_sticky, reachable_sticky. }
  split.
  - apply sticky_cases in Hs as [H|H];
      [left; by apply truthy_l_non_null|right; by apply truthy_s_non_null].
  - intros i (w1 & r & Hr & <-)%effective_intent_route.
    destruct (turn_sticky _ _ _ _ _ Hs Hr) as (Hi & o & Hb & _).
    split; [done|].
    apply book_new_flow_keeps in Hb as (_ & _ & _ & _ & _ & _ & _ & ->).
    apply route_next in Hr as (_ & _ & _ & _ & _ & ->).
    by rewrite Hi.
Qed.

(** C10 (amended) — once the topic is non-null in a reachable state it
    keeps its value through all later turns, and no later turn is
    dispatched on [cancel] or [reschedule]; once the booking code is
    set as well it stays, and every later turn that passes the
    empty-input, PII and advice checks and raises no exception answers
    "All set. Do you need anything else?". *)
Theorem C10_started_booking_cannot_be_left
    (w : World) (turns : list (Env * string)) (env : Env) (user_text : string) :
  reachable w →
  topic (STATE w) ≠ None →
  let w' := after turns w in
  topic (STATE w') = topic (STATE w)
  ∧ effective_intent env user_text w' ≠ Some "cancel"
  ∧ effective_intent env user_text w' ≠ Some "reschedule"
  ∧ (booking_code (STATE w) ≠ None →
     booking_code (STATE w') = booking_code (STATE w)
     ∧ (nonempty (strip user_text) = true →
        contains_pii (strip user_text) = false →
        any_in ADVICE_KEYWORDS (lower (strip user_text)) = false →
        (∀ e, (turn env user_text w').2 ≠ Raises e) →
        (turn env user_text w').2 = Reply ALL_SET)).
Proof.
  intros Hw Hnn w'.
  pose proof (reachable_inv w Hw) as Hinv.
  assert (truthy_s (topic (STATE w)) = true) as Ht.
  { destruct Hinv as (H & _). by apply H. }
  destruct (after_keeps turns w Ht) as (Hkt & Hkc). fold w' in Hkt, Hkc.
  assert (sticky (STATE w') = true) as Hs.
  { apply sticky_cases. right. by rewrite Hkt. }
  split_and!.
  - done.
  - intros (w1 & r & Hr & Hi)%effective_intent_route.
    apply (route_sticky _ _ _ _ _ Hs) in Hr. by rewrite Hr in Hi.
  - intros (w1 & r & Hr & Hi)%effective_intent_route.
    apply (route_sticky _ _ _ _ _ Hs) in Hr. by rewrite Hr in Hi.
  - intros Hc.
    assert (truthy_s (booking_code (STATE w)) = true) as Hc'.
    { destruct Hinv as (_ & _ & _ & _ & H & _). by apply H. }
    split; [by apply Hkc|].
    intros Hne Hpii Hadv Hraise.
    assert (reachable w') as Hw' by by apply reachable_after.
    destruct (reachable_inv w' Hw')
      as (_ & _ & _ & _ & _ & Hdt & Htd & Hotm & Hso & Hcs & Hdd).
    assert (truthy_s (booking_code (STATE w')) = true) as Hc2.
    { by rewrite Hkc. }
    destruct (route env user_text w') as [w1 [r|s|e]] eqn:Hr.
    + destruct (turn_sticky _ _ _ _ _ Hs Hr) as (_ & o & Hb & ->).
      apply route_next in Hr as (_ & _ & _ & _ & _ & ->).
      rewrite book_new_flow_all_set in Hb.
      * by injection Hb as _ <-.
      * mred. rewrite Hkt. done.
      * mred. auto.
      * mred. auto.
      * mred. auto.
      * mred. auto.
      * mred. done.
    + destruct (turn_cases env user_text w') as
        [(w1' & r' & o & Hr' & _) | (_ & _ & Ho)]; [congruence|].
      exfalso. revert Hr. unfold route. rewrite Hne. mred.
      rewrite Hpii. rewrite (Hdd ltac:(by rewrite Hkt)). mred.
      rewrite Hadv. mred.
      destruct (detect _ _ _); mred; [|done].
      destruct (py_strip _); mred; done.
    + destruct (turn_cases env user_text w') as
        [(w1' & r' & o & Hr' & _) | (_ & _ & Ho)]; [congruence|].
      rewrite Hr in Ho. by destruct (Hraise e).
Qed.

(** C5 (amended) — on a first turn (disclaimer not yet given) whose text
    is not blank and does not trigger the PII guard, the engine answers
    with the disclaimer, sets [disclaimer_done] and changes nothing
    else. *)
Theorem C5_first_turn_gives_disclaimer
    (env : Env) (user_text : string) (w : World) :
  disclaimer_done (STATE w) = false →
  nonempty (strip user_text) = true →
  contains_pii (strip user_text) = false →
  turn env user_text w
  = (mkWorld (set_disclaimer_done true (STATE w)) (BOOKINGS w),
     Reply DISCLAIMER).
Proof.
  intros Hd Hne Hpii.
  unfold turn, run, next_agent_reply, route, bind.
  rewrite Hne. mred. rewrite Hpii, Hd. done.
Qed.



(** What a turn dispatched on [cancel] does, by what
    [extract_booking_code] finds in the stripped text. *)
Lemma cancel_on_found (env : Env) (user_text : string) (w : World) :
  effective_intent env user_text w = Some "cancel" →
  let w' := (turn env user_text w).1 in
  let out := (turn env user_text w).2 in
  let stored := provided_code (STATE w) in
  let found := extract_booking_code (strip user_text) in
  (truthy_s stored = false → found = None →
     out = Reply ASK_CODE ∧ same_sub_state (STATE w) (STATE w')
     ∧ BOOKINGS w' = BOOKINGS w)
  ∧ (truthy_s stored = true →
     out = Reply (cancel_done (fmt stored)) ∧ sub_state_null (STATE w'))
  ∧ (truthy_s stored = false → ∀ code, found = Some code →
     out = Reply (cancel_done code) ∧ sub_state_null (STATE w')).
Proof.
  intros (w1 & r & Hr & Hi)%effective_intent_route w' out stored found.
  subst w' out stored found.
  destruct (turn_cases env user_text w) as
    [(w1' & r' & o & Hr' & Hh & ->) | (Hne & _)];
    [|rewrite Hr in Hne; by destruct (Hne r)].
  rewrite Hr in Hr'. injection Hr' as <- <-.
  apply route_next in Hr as (_ & Htext & _ & _ & _ & ->).
  destruct (turn env user_text w).1 as [st' bk'].
  destruct w as [[dd i t d tm os s c p] bk].
  unfold handlers, cancel_block in Hh. rewrite Hi, Htext in Hh. mred.
  unfold sub_state_null, same_sub_state. mred.
  destruct (extract_booking_code (strip user_text)) as [code|] eqn:Hx.
  - pose proof (extract_booking_code_format _ _ Hx) as Hfmt.
    assert (nonempty code = true) as Hcode by by destruct code.
    split_and!; [done| |]; intros Hp; [|intros code' [= <-]];
      mexec Hh; simplify_eq/=; done.
  - split_and!; [intros Hp _|intros Hp|done];
      mexec Hh; simplify_eq/=; done.
Qed.

(** C9 (amended) — a turn on a text of ASCII characters dispatched on
    [cancel].  Without a stored code and without a code literal standing
    on its own in the text ([NL-] and four letters or digits, in upper
    or lower case, with no letter, digit or underscore right before or
    after) the engine asks for a code and leaves the sub-state alone.
    With a stored code it confirms the cancellation for the stored code;
    without one and with such a literal in the text it confirms the
    cancellation for a code literal of the text, in upper case.  In
    both cases every booking field and [provided_code] are null
    afterwards. *)
Theorem C9_cancel_flow (env : Env) (user_text : string) (w : World) :
  ascii_only user_text = true →
  effective_intent env user_text w = Some "cancel" →
  let w' := (turn env user_text w).1 in
  let out := (turn env user_text w).2 in
  let stored := provided_code (STATE w) in
  (truthy_s stored = false → (∀ code, ¬ code_literal user_text code) →
     out = Reply ASK_CODE ∧ same_sub_state (STATE w) (STATE w')
     ∧ BOOKINGS w' = BOOKINGS w)
  ∧ (truthy_s stored = true →
     out = Reply (cancel_done (fmt stored)) ∧ sub_state_null (STATE w'))
  ∧ (truthy_s stored = false → (∃ code, code_literal user_text code) →
     ∃ code, code_literal user_text code
       ∧ out = Reply (cancel_done code) ∧ sub_state_null (STATE w')).
Proof.
  intros _ Hi w' out stored. subst w' out stored.
  destruct (cancel_on_found env user_text w Hi) as (H1 & H2 & H3).
  split_and!.
  - intros Hp Hno. apply H1; [done|].
    destruct (extract_booking_code (strip user_text)) as [c|] eqn:Hx; [|done].
    destruct (Hno c). by apply code_literal_strip, extract_booking_code_literal.
  - exact H2.
  - intros Hp (code & Hl).
    destruct (code_literal_found _ _ Hl) as (c & Hc).
    exists c. split; [by apply code_literal_strip, extract_booking_code_literal|].
    by apply H3.
Qed.

Lemma chars_app a b : chars (a +:+ b) = chars a ++ chars b.
Proof. induction a as [|c a IH]; [done|]. simpl. by rewrite <- IH. Qed.

Lemma choice_code r : cls_code (choice (chars CODE_ALPHABET) r) = true.
Proof.
  unfold choice. change (length (chars CODE_ALPHABET)) with 36.
  assert (r mod 36 < 36) as Hk by (apply Nat.mod_upper_bound; lia).
  revert Hk. generalize (r mod 36). intros k Hk.
  do 36 (destruct k as [|k]; [reflexivity|]). lia.
Qed.

(** Every generated code has the booking-code format. *)
Lemma generate_booking_code_format rnd :
  is_booking_code (generate_booking_code rnd) = true.
Proof.
  unfold is_booking_code, generate_booking_code.
  rewrite chars_app, chars_text.
  cbn [seq map chars list_ascii_of_string app].
  by rewrite !choice_code.
Qed.

(** C8 (amended) — in a state past the disclaimer where topic, day,
    time, offered slots and selected slot are set and the booking code
    is null, a turn whose text contains "yes", passes the empty-input,
    PII and advice gates and raises no exception generates a code of the
    form [NL-] plus four characters among [A-Z0-9], stores it in
    [booking_code] and files under it a booking with the topic, the
    selected slot and the timezone label just confirmed; looking the
    code up in [BOOKINGS] right after the turn returns that record. *)
Theorem C8_confirmation_creates_booking
    (env : Env) (user_text : string) (w : World) (slot : Slot) :
  passes_gates user_text (STATE w) →
  truthy_s (topic (STATE w)) = true →
  truthy (day_pref (STATE w)) = true →
  truthy (time_pref (STATE w)) = true →
  truthy_l (offered_slots (STATE w)) = true →
  selected_slot (STATE w) = Some slot →
  booking_code (STATE w) = None →
  contains "yes" (lower (strip user_text)) = true →
  (∀ e, (turn env user_text w).2 ≠ Raises e) →
  let code := generate_booking_code (rand env) in
  let w' := (turn env user_text w).1 in
  is_booking_code code = true
  ∧ booking_code (STATE w') = Some code
  ∧ BOOKINGS w' !! code
    = Some (mkBooking (topic (STATE w)) (Some slot) TIMEZONE_LABEL)
  ∧ (turn env user_text w).2
    = Reply (booked_reply code (start slot) (fmt (topic (STATE w)))
               (secure_link_for code)).
Proof.
  intros (Hne & Hpii & Hdd & Hadv) Ht Hd Htm Ho Hs Hc Hyes Hraise code w'.
  subst code w'.
  split; [apply generate_booking_code_format|].
  assert (sticky (STATE w) = true) as Hst.
  { apply sticky_cases. by right. }
  destruct (route env user_text w) as [w1 [r|s|e]] eqn:Hr.
  - destruct (turn_sticky _ _ _ _ _ Hst Hr) as (_ & o & Hb & ->).
    apply route_next in Hr as (_ & _ & Hlow & _ & _ & ->).
    destruct (turn env user_text w).1 as [st' bk'].
    destruct w as [[dd i t d tm os s c p] bk]. mred. subst s c.
    unfold book_new_flow in Hb. rewrite Hlow in Hb.
    mexec Hb; simplify_eq/=.
    split_and!; [done|by rewrite lookup_insert_eq|done].
  - exfalso. revert Hr. unfold route. rewrite Hne. mred.
    rewrite Hpii, Hdd. mred. rewrite Hadv. mred.
    destruct (detect _ _ _); mred; [|done].
    destruct (py_strip _); mred; done.
  - destruct (turn_cases env user_text w) as
      [(w1' & r' & o & Hr' & _) | (_ & _ & Hout)]; [congruence|].
    rewrite Hr in Hout. by destruct (Hraise e).
Qed.

End EngineFacts.

(** ** The claims on concrete conversations *)

Lemma reachable_GREETED : reachable FlatJson.loads GREETED.
Proof. apply reachable_after, reach_init. Qed.

Lemma reachable_OFFERED : reachable FlatJson.loads OFFERED.
Proof. apply reachable_after, reachable_GREETED. Qed.

Lemma reachable_SELECTED : reachable FlatJson.loads SELECTED.
Proof. apply reachable_after, reachable_OFFERED. Qed.

Lemma reachable_BOOKED : reachable FlatJson.loads BOOKED.
Proof. apply reachable_after, reachable_SELECTED. Qed.

(** Scenario 2: topic, day and time are set in one turn and the default
    pair is offered. *)
Example scenario_offer :
  topic (STATE OFFERED) = Some "KYC/Onboarding"
  ∧ day_pref (STATE OFFERED) = PStr "tomorrow"
  ∧ time_pref (STATE OFFERED) = PStr "morning"
  ∧ offered_slots (STATE OFFERED) = Some [SLOT_101; SLOT_102].
Proof. vm_compute. done. Qed.

(** Scenario 3: the confirmed booking holds the second offered slot. *)
Example scenario_booked :
  booking_code (STATE BOOKED) = Some "NL-4BIP"
  ∧ BOOKINGS BOOKED !! "NL-4BIP"
    = Some (mkBooking (Some "KYC/Onboarding") (Some SLOT_102) "IST").
Proof. vm_compute. done. Qed.

(** Scenario 5: with the service raising, the extraction is the local
    fallback parser's. *)
Example scenario_service_down :
  detect_intent_and_extract FlatJson.loads service_down
    "I want to book a KYC appointment tomorrow morning" (STATE GREETED)
  = Ok (mk_info "book_new" (Some "KYC/Onboarding") (Some "tomorrow")
          (Some "morning")).
Proof. vm_compute. reflexivity. Qed.

(** Scenario 4: cancelling with a code and no booking under way. *)
Example scenario_cancel :
  turn FlatJson.loads service_down "cancel NL-A742" GREETED
  = (mkWorld (set_intent (Some "cancel") (STATE GREETED)) ∅,
     Reply (cancel_done "NL-A742")).
Proof. vm_compute. done. Qed.

Lemma C3_witness : left_to_right (filled (STATE OFFERED)).
Proof.
  apply (C3_fields_filled_left_to_right FlatJson.loads OFFERED).
  apply reachable_OFFERED.
Defined.

Lemma C2_witness :
  (∀ i,
     effective_intent FlatJson.loads (says_intent (jstr "cancel"))
       "cancel NL-A742" (after FlatJson.loads [(service_down, "option 2")] OFFERED)
     = Some i →
     i = "book_new")
  ∧ effective_intent FlatJson.loads (says_intent (jstr "cancel"))
      "cancel NL-A742" (after FlatJson.loads [(service_down, "option 2")] OFFERED)
    = Some "book_new".
Proof.
  split.
  - intros i Hi.
    apply (C2_sticky_flow_forces_book_new FlatJson.loads OFFERED
             [(service_down, "option 2")] (says_intent (jstr "cancel"))
             "cancel NL-A742").
    + apply reachable_OFFERED.
    + right. vm_compute. discriminate.
    + exact Hi.
  - vm_compute. reflexivity.
Defined.



Lemma C5_witness :
  turn FlatJson.loads service_down "hello" WORLD0
  = (mkWorld (set_disclaimer_done true STATE0) ∅, Reply DISCLAIMER).
Proof.
  apply (C5_first_turn_gives_disclaimer FlatJson.loads service_down
           "hello" WORLD0); vm_compute; reflexivity.
Defined.

(** C5 as stated fails: a first turn that carries a phone number gets
    the PII warning and the disclaimer is still due; so does a first
    turn of blanks, which is asked to repeat. *)
Lemma C5_counterexample :
  disclaimer_done (STATE WORLD0) = false
  ∧ nonempty "call me on 9876543210" = true
  ∧ turn FlatJson.loads service_down "call me on 9876543210" WORLD0
    = (WORLD0, Reply (pii_warning (secure_link_for "NL-XXXX")))
  ∧ (turn FlatJson.loads service_down "call me on 9876543210" WORLD0).2
    ≠ Reply DISCLAIMER
  ∧ disclaimer_done
      (STATE (turn FlatJson.loads service_down "call me on 9876543210" WORLD0).1)
    = false
  ∧ nonempty "   " = true
  ∧ turn FlatJson.loads service_down "   " WORLD0 = (WORLD0, Reply SORRY).
Proof. vm_compute. split_and!; done. Qed.

Lemma C8_witness :
  booking_code
    (STATE (turn FlatJson.loads service_down "Yes, that is right" SELECTED).1)
  = Some (generate_booking_code (rand service_down))
  ∧ BOOKINGS (turn FlatJson.loads service_down "Yes, that is right" SELECTED).1
    !! generate_booking_code (rand service_down)
    = Some (mkBooking (topic (STATE SELECTED)) (Some SLOT_102) TIMEZONE_LABEL).
Proof.
  destruct (C8_confirmation_creates_booking FlatJson.loads service_down
              "Yes, that is right" SELECTED SLOT_102)
    as (_ & Hcode & Hbook & _).
  - vm_compute. split_and!; reflexivity.
  - vm_compute. reflexivity.
  - vm_compute. reflexivity.
  - vm_compute. reflexivity.
  - vm_compute. reflexivity.
  - vm_compute. reflexivity.
  - vm_compute. reflexivity.
  - vm_compute. reflexivity.
  - intros e. vm_compute. discriminate.
  - split; [exact Hcode|exact Hbook].
Defined.

(** C8 as stated fails: a confirmation that also mentions investing is
    answered by the advice refusal, one that carries a phone number by
    the PII warning, and nothing is booked. *)
Lemma C8_counterexample :
  truthy_s (topic (STATE SELECTED)) = true
  ∧ truthy (day_pref (STATE SELECTED)) = true
  ∧ truthy (time_pref (STATE SELECTED)) = true
  ∧ truthy_l (offered_slots (STATE SELECTED)) = true
  ∧ selected_slot (STATE SELECTED) = Some SLOT_102
  ∧ booking_code (STATE SELECTED) = None
  ∧ BOOKINGS SELECTED = ∅
  ∧ contains "yes" "yes, and should I invest more?" = true
  ∧ turn FlatJson.loads service_down "yes, and should I invest more?" SELECTED
    = (SELECTED, Reply ADVICE_REFUSAL)
  ∧ contains "yes" "yes, call me on 9876543210" = true
  ∧ turn FlatJson.loads service_down "yes, call me on 9876543210" SELECTED
    = (SELECTED, Reply (pii_warning (secure_link_for "NL-XXXX"))).
Proof. vm_compute. split_and!; done. Qed.

Lemma C9_witness :
  ∃ code,
    code_literal "please cancel nl-a742, thanks" code
    ∧ (turn FlatJson.loads service_down "please cancel nl-a742, thanks"
         GREETED).2
      = Reply (cancel_done code)
    ∧ sub_state_null
        (STATE (turn FlatJson.loads service_down
                  "please cancel nl-a742, thanks" GREETED).1).
Proof.
  destruct (C9_cancel_flow FlatJson.loads service_down
              "please cancel nl-a742, thanks" GREETED)
    as (_ & _ & H).
  - reflexivity.
  - vm_compute. reflexivity.
  - apply H; [reflexivity|].
    exists "NL-A742", (chars "please cancel "), (chars "nl-a742"),
      (chars ", thanks").
    split_and!; reflexivity.
Defined.

(** C9 as stated fails: a text that contains a code literal right after
    an underscore, or followed by one more digit, is asked for the code
    although no code is stored. *)
Lemma C9_counterexample :
  ascii_only "cancel ref_NL-A742" = true
  ∧ ascii_only "cancel NL-A7421" = true
  ∧ effective_intent FlatJson.loads service_down "cancel ref_NL-A742" GREETED
    = Some "cancel"
  ∧ provided_code (STATE GREETED) = None
  ∧ contains "NL-A742" "cancel ref_NL-A742" = true
  ∧ is_booking_code "NL-A742" = true
  ∧ turn FlatJson.loads service_down "cancel ref_NL-A742" GREETED
    = (mkWorld (set_intent (Some "cancel") (STATE GREETED)) (BOOKINGS GREETED),
       Reply ASK_CODE)
  ∧ (turn FlatJson.loads service_down "cancel ref_NL-A742" GREETED).2
    ≠ Reply (cancel_done "NL-A742")
  ∧ contains "NL-A742" "cancel NL-A7421" = true
  ∧ (turn FlatJson.loads service_down "cancel NL-A7421" GREETED).2
    = Reply ASK_CODE.
Proof. vm_compute. split_and!; done. Qed.

Lemma C10_witness :
  topic (STATE (after FlatJson.loads
                  [(says_intent (jstr "cancel"), "cancel NL-4BIP")] BOOKED))
  = topic (STATE BOOKED)
  ∧ (turn FlatJson.loads (says_intent (jstr "reschedule")) "reschedule NL-4BIP"
       (after FlatJson.loads
          [(says_intent (jstr "cancel"), "cancel NL-4BIP")] BOOKED)).2
    = Reply ALL_SET.
Proof.
  destruct (C10_started_booking_cannot_be_left FlatJson.loads BOOKED
              [(says_intent (jstr "cancel"), "cancel NL-4BIP")]
              (says_intent (jstr "reschedule")) "reschedule NL-4BIP")
    as (Ht & _ & _ & Hc).
  - apply reachable_BOOKED.
  - vm_compute. discriminate.
  - split; [exact Ht|].
    apply Hc.
    + vm_compute. discriminate.
    + vm_compute. reflexivity.
    + vm_compute. reflexivity.
    + vm_compute. reflexivity.
    + intros e. vm_compute. discriminate.
Defined.

(** C10 as stated fails in its last part: after the booking is
    complete, a turn that passes the three checks but whose extraction
    result carries a number as intent raises instead of answering. *)
Lemma C10_counterexample :
  reachable FlatJson.loads BOOKED
  ∧ topic (STATE BOOKED) ≠ None
  ∧ booking_code (STATE BOOKED) ≠ None
  ∧ nonempty (strip "thanks") = true
  ∧ contains_pii (strip "thanks") = false
  ∧ any_in ADVICE_KEYWORDS (lower (strip "thanks")) = false
  ∧ FlatJson.loads ("{" +:+ jstr "intent" +:+ ": 7}")
    = Some {["intent" := POther true]}
  ∧ turn FlatJson.loads (says_intent "7") "thanks" BOOKED
    = (BOOKED, Raises AttributeError)
  ∧ (turn FlatJson.loads (says_intent "7") "thanks" BOOKED).2 ≠ Reply ALL_SET.
Proof.
  split; [apply reachable_BOOKED|].
  vm_compute. split_and!; done.
Qed.

(** * Further properties of the module *)

(** ** Local fallback parser (lines 197-271) *)

(** X1 — the result of [local_intent_fallback] does not depend on the
    conversation state: the mid-booking rule of lines 262-264 never
    changes an intent the rule of lines 257-259 has left. *)
Theorem X1_fallback_ignores_state (user_text : string) (st st' : State) :
  local_intent_fallback user_text st = local_intent_fallback user_text st'.
Proof.
  unfold local_intent_fallback.
  destruct (truthy_s (infer_topic (lower user_text))
            || truthy_s (infer_day (lower user_text))
            || truthy_s (infer_time (lower user_text))).
  - rewrite !andb_true_r.
    destruct (String.eqb (infer_intent (lower user_text)) "other") eqn:Ho;
      [done|].
    destruct (String.eqb (infer_intent (lower user_text)) "check_availability");
      [done|].
    simpl. by rewrite Ho.
  - by rewrite !andb_false_r.
Qed.

Lemma infer_intent_cases t : infer_intent t ∈ INTENTS.
Proof.
  unfold infer_intent, INTENTS. repeat case_match; rewrite !elem_of_cons; tauto.
Qed.

Lemma infer_topic_cases t : opt_all (λ x, x ∈ TOPICS) (infer_topic t).
Proof.
  unfold infer_topic, TOPICS.
  repeat case_match; simpl; rewrite ?elem_of_cons; tauto.
Qed.

Lemma infer_day_cases t :
  opt_all (λ x, x ∈ "tomorrow" :: "today" :: WEEKDAYS) (infer_day t).
Proof.
  unfold infer_day, WEEKDAYS. cbn [find].
  repeat case_match; simpl; rewrite ?elem_of_cons; tauto.
Qed.

Lemma infer_time_cases t :
  opt_all (λ x, x ∈ ["morning"; "afternoon"; "evening"]) (infer_time t).
Proof.
  unfold infer_time. repeat case_match; simpl; rewrite ?elem_of_cons; tauto.
Qed.

(** X2 — [local_intent_fallback] always returns a dict with exactly the
    four keys of the extraction contract; the intent is one of the six
    intents, the topic is [None] or one of [TOPICS], the day is [None],
    tomorrow, today or a weekday, the time is [None], morning,
    afternoon or evening. *)
Theorem X2_fallback_result_is_well_formed (user_text : string) (st : State) :
  ∃ i tp d tm,
    local_intent_fallback user_text st = mk_info i tp d tm
    ∧ dom (local_intent_fallback user_text st)
      = ({["intent"; "topic"; "day_preference"; "time_preference"]}
          : gset string)
    ∧ i ∈ INTENTS
    ∧ opt_all (λ x, x ∈ TOPICS) tp
    ∧ opt_all (λ x, x ∈ "tomorrow" :: "today" :: WEEKDAYS) d
    ∧ opt_all (λ x, x ∈ ["morning"; "afternoon"; "evening"]) tm.
Proof.
  unfold local_intent_fallback.
  eexists _, _, _, _. split; [reflexivity|]. split_and!.
  - unfold mk_info. rewrite !dom_insert_L, dom_empty_L. set_solver.
  - pose proof (infer_intent_cases (lower user_text)) as H.
    repeat case_match; try done; unfold INTENTS; rewrite !elem_of_cons; tauto.
  - apply infer_topic_cases.
  - apply infer_day_cases.
  - apply infer_time_cases.
Qed.

(** X3 — explicit commands win over extracted fields: a text with a
    reschedule keyword is classified [reschedule], and a text with a
    cancel keyword and no reschedule keyword is classified [cancel],
    whatever topic, day or time it mentions and whatever other keywords
    it holds. *)
Theorem X3_fallback_explicit_commands_win (user_text : string) (st : State) :
  let t := lower user_text in
  (any_in ["reschedule"; "move my"; "change my time"; "change slot"] t = true →
   local_intent_fallback user_text st !! "intent" = Some (PStr "reschedule"))
  ∧ (any_in ["reschedule"; "move my"; "change my time"; "change slot"] t = false →
     any_in ["cancel"; "call off"; "delete booking"] t = true →
     local_intent_fallback user_text st !! "intent" = Some (PStr "cancel")).
Proof.
  intros t. unfold local_intent_fallback. fold t. rewrite mk_info_intent.
  split.
  - intros H. unfold infer_intent. rewrite H. done.
  - intros H1 H2. unfold infer_intent. rewrite H1, H2. done.
Qed.

Lemma X3_witness :
  local_intent_fallback "Please cancel my KYC booking for tomorrow" STATE0
  !! "intent" = Some (PStr "cancel").
Proof.
  apply (X3_fallback_explicit_commands_win
           "Please cancel my KYC booking for tomorrow" STATE0);
    vm_compute; reflexivity.
Defined.

(** ** Slot candidate selector (lines 318-328) *)

Lemma mock_slots_distinct :
  SLOT_101 ≠ SLOT_102 ∧ SLOT_102 ≠ SLOT_103 ∧ SLOT_103 ≠ SLOT_104.
Proof. split_and!; discriminate. Qed.

(** X4 — for arguments of any kind the selector either raises
    [AttributeError], which it does exactly when the time preference is
    a truthy value that is not a [str], or returns two different slots
    of the catalog. *)
Theorem X4_selector_total (day time_pref : pyval) :
  match time_pref with
  | POther true => mock_pick_two_slots day time_pref = Err AttributeError
  | _ => ∃ l, mock_pick_two_slots day time_pref = Ok l ∧ offer_ok l
  end.
Proof.
  assert (∀ tp, ∃ l,
    Ok (take 2
      (if contains "even" tp || contains "5" tp || contains "6" tp
       then [mock_slot 3; mock_slot 2; mock_slot 1]
       else if contains "after" tp || contains "3" tp || contains "4" tp
       then [mock_slot 2; mock_slot 1; mock_slot 3]
       else [mock_slot 0; mock_slot 1; mock_slot 2])) = Ok l ∧ offer_ok l) as H.
  { intros tp. eexists. split; [reflexivity|].
    unfold offer_ok, MOCK_SLOTS.
    repeat case_match; simpl; eexists _, _;
      (split_and!; [reflexivity|rewrite !elem_of_cons; tauto..|discriminate]). }
  unfold mock_pick_two_slots.
  destruct time_pref as [|s|[]]; [apply H| |done|apply H].
  destruct s; apply H.
Qed.

(** ** PII guard and booking codes (lines 101-128) *)

Ltac inv_matches :=
  repeat match goal with
  | H : matches (Seq _ _) _ _ _ |- _ => inversion H; clear H; subst
  | H : matches (Cls _) _ _ _ |- _ => inversion H; clear H; subst
  | H : matches WordB _ _ _ |- _ => inversion H; clear H; subst
  | H : matches (Alt _ _) _ _ _ |- _ => inversion H; clear H; subst
  | H : matches Eps _ _ _ |- _ => inversion H; clear H; subst
  end.

Lemma has_char_intro (p : ascii → bool) s pre w post c :
  p c = true → chars s = pre ++ w ++ post → c ∈ w → has_char p s.
Proof.
  intros Hp Hs Hc. exists c. split; [|done].
  rewrite Hs, !elem_of_app. tauto.
Qed.

(** X5 — on a text of ASCII characters the guard never fires unless the
    text has a digit or an at sign: every one of the five patterns
    needs one of the two.  (On other texts [\d] also takes the decimal
    digits of other scripts.) *)
Theorem X5_pii_needs_digit_or_at (s : string) :
  ascii_only s = true →
  contains_pii s = true →
  has_char is_digit s ∨ has_char (Ascii.eqb "@") s.
Proof.
  intros _ (p & Hp & pre & w & post & Hs & Hm)%contains_pii_occurs.
  unfold PII_PATTERNS in Hp. rewrite !elem_of_cons, elem_of_nil in Hp.
  destruct Hp as [->|[->|[->|[->|[->|[]]]]]].
  - right. cbv [RE_EMAIL plus chr rep] in Hm. inv_matches.
    eapply has_char_intro; [eassumption|done|].
    rewrite !elem_of_app, !elem_of_cons. tauto.
  - left. cbv [RE_PHONE opt chr rep] in Hm. inv_matches;
      (eapply has_char_intro; [eassumption|done|]);
      rewrite !elem_of_app, !elem_of_cons; tauto.
  - left. cbv [RE_DIGITS rep] in Hm. inv_matches.
    eapply has_char_intro; [eassumption|done|].
    rewrite !elem_of_app, !elem_of_cons; tauto.
  - left. cbv [RE_DIGITS rep] in Hm. inv_matches.
    eapply has_char_intro; [eassumption|done|].
    rewrite !elem_of_app, !elem_of_cons; tauto.
  - left. cbv [RE_ACCOUNT lit_with chr_i plus] in Hm. inv_matches.
    eapply has_char_intro; [eassumption|done|].
    rewrite !elem_of_app, !elem_of_cons; tauto.
Qed.

Lemma X5_witness :
  has_char is_digit "my number is 9876543210"
  ∨ has_char (Ascii.eqb "@") "my number is 9876543210".
Proof.
  apply (X5_pii_needs_digit_or_at "my number is 9876543210");
    vm_compute; reflexivity.
Defined.

Lemma cls_code_lower_upper c : cls_code c = true → to_upper (to_lower c) = c.
Proof. destruct c as [[] [] [] [] [] [] [] []]; vm_compute; congruence. Qed.

Lemma search_code a b c d :
  cls_code a = true → cls_code b = true → cls_code c = true →
  cls_code d = true →
  search_from RE_CODE None ["N"; "L"; "-"; a; b; c; d]%char
  = Some ["N"; "L"; "-"; a; b; c; d]%char.
Proof.
  intros Ha Hb Hc Hd.
  cbv [search_from match_here RE_CODE lit_with rep chr mt boundary word_opt
       head].
  change (is_word "N") with true. cbn [xorb Ascii.eqb Bool.eqb].
  rewrite Ha, Hb, Hc, Hd, (cls_code_word d Hd). done.
Qed.

(** X6 — generating and recognising codes agree: a code made by
    [generate_booking_code] is recognised by [extract_booking_code] as
    itself, also when it is typed in lower case; and whatever
    [extract_booking_code] returns for a text has the format [NL-] plus
    four characters among [A-Z0-9]. *)
Theorem X6_booking_code_round_trip (rnd : nat → nat) (s code : string) :
  extract_booking_code (generate_booking_code rnd)
  = Some (generate_booking_code rnd)
  ∧ extract_booking_code (lower (generate_booking_code rnd))
    = Some (generate_booking_code rnd)
  ∧ (extract_booking_code s = Some code → is_booking_code code = true).
Proof.
  pose proof (generate_booking_code_format rnd) as Hfmt.
  apply is_booking_code_chars in Hfmt as (a & b & c & d & Hch & Ha & Hb & Hc & Hd).
  split_and!.
  - unfold extract_booking_code, search, upper. rewrite chars_text, Hch.
    cbn [map].
    rewrite (cls_code_upper a), (cls_code_upper b), (cls_code_upper c),
      (cls_code_upper d) by assumption.
    change (to_upper "N") with "N"%char. change (to_upper "L") with "L"%char.
    change (to_upper "-") with "-"%char.
    rewrite search_code by assumption. cbn [fmap option_fmap option_map].
    by rewrite <- Hch, text_chars.
  - unfold extract_booking_code, search, upper, lower.
    rewrite !chars_text, Hch. cbn [map].
    rewrite (cls_code_lower_upper a), (cls_code_lower_upper b),
      (cls_code_lower_upper c), (cls_code_lower_upper d) by assumption.
    change (to_upper (to_lower "N")) with "N"%char.
    change (to_upper (to_lower "L")) with "L"%char.
    change (to_upper (to_lower "-")) with "-"%char.
    rewrite search_code by assumption. cbn [fmap option_fmap option_map].
    by rewrite <- Hch, text_chars.
  - apply extract_booking_code_format.
Qed.

(** ** Extraction service adapter (lines 181-194) *)

Lemma contains_char_false c s :
  contains (String c EmptyString) s = false →
  all (λ x, negb (Ascii.eqb c x)) (chars s).
Proof.
  induction s as [|d s IH]; [constructor|].
  intros H.
  assert (String.prefix (String c EmptyString) (String d s) = false
          ∧ contains (String c EmptyString) s = false) as [H1 H2].
  { by apply orb_false_iff. }
  constructor; [|by apply IH].
  simpl in H1. destruct (ascii_dec c d) as [->|Hne].
  - by destruct s.
  - apply negb_true_iff, Ascii.eqb_neq. done.
Qed.

Section JsonSpan.

Variable json_loads : string → option (gmap string pyval).

#[local] Abbreviation K_close :=
  (λ (p : option ascii) (s : list ascii),
     mt (chr "}") p s (λ _ rest, Some rest)).

Lemma star_k_no_close post : ∀ prev,
  all not_close post → star_k cls_any K_close prev post = None.
Proof.
  induction post as [|c post IH]; intros prev Hp; [done|].
  inversion Hp as [|? ? Hc Hp']; subst. cbn [star_k cls_any].
  rewrite IH by done. cbn [or_else mt chr].
  unfold not_close in Hc. by apply negb_true_iff in Hc as ->.
Qed.

Lemma star_k_last_close body post : ∀ prev,
  all not_close post →
  star_k cls_any K_close prev (body ++ "}"%char :: post) = Some post.
Proof.
  induction body as [|c body IH]; intros prev Hp.
  - cbn [app star_k cls_any]. by rewrite star_k_no_close.
  - cbn [app star_k cls_any]. by rewrite IH.
Qed.

Lemma search_json_span pre body post : ∀ prev,
  all not_open pre → all not_close post →
  search_from RE_JSON prev (pre ++ "{"%char :: body ++ "}"%char :: post)
  = Some ("{"%char :: body ++ ["}"%char]).
Proof.
  induction pre as [|c pre IH]; intros prev Hpre Hpost.
  - cbn [app]. unfold search_from, match_here, RE_JSON.
    destruct (body ++ "}"%char :: post) eqn:E; [by destruct body|].
    rewrite <- E. cbn [mt chr Ascii.eqb Bool.eqb].
    rewrite star_k_last_close by done. f_equal.
    assert ("{"%char :: body ++ "}"%char :: post
            = ("{"%char :: body ++ ["}"%char]) ++ post) as ->.
    { by rewrite <- app_comm_cons, <- app_assoc. }
    by rewrite length_app, Nat.add_sub, take_app_length.
  - inversion Hpre as [|? ? Hc Hpre']; subst.
    cbn [app search_from]. unfold match_here at 1. unfold RE_JSON at 1.
    cbn [mt chr]. unfold not_open in Hc. apply negb_true_iff in Hc as ->.
    by apply IH.
Qed.

(** X7 — in a response that holds braces, the span handed to
    [json.loads] runs from the first opening brace to the last closing
    brace, whatever prose or code fence stands before and after; so a
    response with two objects is decoded as one span covering both. *)
Theorem X7_json_span_first_open_to_last_close (pre body post : string) :
  contains "{" pre = false →
  contains "}" post = false →
  extract_first_json_object json_loads
    (pre +:+ "{" +:+ body +:+ "}" +:+ post)
  = json_loads ("{" +:+ body +:+ "}").
Proof.
  intros Hpre%contains_char_false Hpost%contains_char_false.
  unfold extract_first_json_object.
  assert (nonempty (pre +:+ "{" +:+ body +:+ "}" +:+ post) = true) as ->.
  { destruct pre; [done|done]. }
  cbn [negb]. unfold search.
  rewrite !chars_app. cbn [chars list_ascii_of_string app].
  rewrite search_json_span by done.
  cbn [fmap option_fmap option_map]. f_equal.
  rewrite <- (text_chars ("{" +:+ body +:+ "}")). f_equal.
  by rewrite !chars_app.
Qed.

End JsonSpan.

Lemma X7_witness :
  extract_first_json_object FlatJson.loads
    ("Sure: " +:+ "{" +:+ (jstr "intent" +:+ ": null} and {") +:+ "}" +:+ " done")
  = FlatJson.loads ("{" +:+ (jstr "intent" +:+ ": null} and {") +:+ "}").
Proof.
  apply (X7_json_span_first_open_to_last_close FlatJson.loads);
    vm_compute; reflexivity.
Defined.

(** ** The dialogue engine and the booking store *)

Lemma in_topics_elem v t : in_topics v = Some t → t ∈ TOPICS.
Proof.
  unfold in_topics. destruct v as [|s|]; try done.
  case_bool_decide as H; [|done]. by intros [= <-].
Qed.

Lemma mock_pick_offer_ok d t l : mock_pick_two_slots d t = Ok l → offer_ok l.
Proof.
  unfold mock_pick_two_slots. destruct (py_lower _); [|done].
  intros [= <-]. unfold offer_ok, MOCK_SLOTS.
  repeat case_match; simpl; eexists _, _;
    (split_and!; [reflexivity|rewrite !elem_of_cons; tauto..|discriminate]).
Qed.

Lemma index_elem l i s : index l i = Ok s → s ∈ l.
Proof.
  unfold index. destruct (l !! i) eqn:E; [|done]. intros [= <-].
  by eapply list_elem_of_lookup_2.
Qed.

Lemma index_of_elem o i s :
  index_of o i = Ok s → ∃ l, o = Some l ∧ s ∈ l.
Proof.
  destruct o as [l|]; [|done]. simpl. intros H%index_elem. eauto.
Qed.

Lemma index_offer_ok l i : offer_ok l → i < 2 → ∃ s, index l i = Ok s.
Proof.
  intros (a & b & -> & _) Hi. destruct i as [|[|i]]; [by eexists..|lia].
Qed.

Lemma offer_ok_elem l s : offer_ok l → s ∈ l → s ∈ MOCK_SLOTS.
Proof.
  intros (a & b & -> & Ha & Hb & _). rewrite !elem_of_cons, elem_of_nil.
  intros [->|[->|[]]]; done.
Qed.

Lemma booking_ok_intro rnd t s l :
  truthy_s t = true → opt_all (λ x, x ∈ TOPICS) t →
  offer_ok l → s ∈ l →
  booking_ok (generate_booking_code rnd) (mkBooking t (Some s) TIMEZONE_LABEL).
Proof.
  intros Ht Htop Hl Hs. split_and!.
  - apply generate_booking_code_format.
  - destruct t as [x|]; [|done]. by exists x.
  - exists s. split; [done|]. by eapply offer_ok_elem.
  - done.
Qed.

Lemma booking_ok_state rnd t s o :
  truthy_s t = true → opt_all (λ x, x ∈ TOPICS) t →
  is_Some s → opt_all offer_ok o →
  opt_all (λ x, ∃ l, o = Some l ∧ x ∈ l) s →
  booking_ok (generate_booking_code rnd) (mkBooking t s TIMEZONE_LABEL).
Proof.
  intros Ht Htop [x ->] Ho (l & -> & Hx).
  by eapply booking_ok_intro.
Qed.

Lemma waitlist_dead l :
  offer_ok l → negb (bool_decide (l ≠ [])) || (length l <? 2) = false.
Proof. intros (a & b & -> & _). done. Qed.

(** Forward chaining on the implications at hand. *)
Ltac saturate :=
  repeat match goal with
  | H : ?P → _, H' : ?P |- _ => specialize (H H')
  | H : bool_decide _ = true |- _ => apply bool_decide_eq_true in H
  | H : bool_decide _ = false |- _ => apply bool_decide_eq_false in H
  | H : is_Some (Some _) → _ |- _ => specialize (H (mk_is_Some _ _ eq_refl))
  end.

Ltac store_facts :=
  repeat match goal with
  | H : in_topics _ = Some _ |- _ => apply in_topics_elem in H
  | H : mock_pick_two_slots _ _ = Ok _ |- _ => apply mock_pick_offer_ok in H
  | H : offer_ok ?a, H' : negb (bool_decide (?a ≠ [])) || _ = true |- _ =>
      rewrite (waitlist_dead a H) in H'; discriminate
  | H : index_of _ _ = Ok _ |- _ =>
      apply index_of_elem in H as (? & ? & ?); simplify_eq/=
  | H : extract_booking_code _ = Some _ |- _ =>
      apply extract_booking_code_format in H
  end.

Ltac store_solve s :=
  simplify_eq/=; saturate; try congruence; store_facts;
  split_and?; try done;
  try (intros; congruence);
  try (eexists; split;
       [reflexivity|first [assumption|by rewrite lookup_insert_eq]]);
  try (apply map_Forall_insert_2; [by eapply booking_ok_state|assumption]);
  try (destruct s; [exfalso; saturate; congruence|done]);
  try (intros; exfalso; saturate; first [contradiction|congruence]).

Lemma book_new_flow_store env r w w' out :
  engine_inv (STATE w) → store_inv w →
  book_new_flow env r w = (w', out) →
  store_inv w'.
Proof.
  destruct w as [[dd i t d tm o s c p] bk].
  unfold book_new_flow, waitlist_flow_reply, store_inv, engine_inv,
    ok_s, ok_v, ok_l.
  intros Hinv Hst H. mred. destruct_and?.
  mexec H; store_solve s.
Qed.

Lemma handlers_store env r w w' out :
  engine_inv (STATE w) → store_inv w →
  handlers env r w = (w', out) →
  store_inv w'.
Proof.
  destruct w as [[dd i t d tm o s c p] bk].
  unfold handlers, cancel_block, reschedule_block, prepare_block,
    availability_block, default_block.
  intros Hinv Hst H. mred.
  mexec H; simplify_eq;
    try (match goal with
         | Hb : book_new_flow ?env ?r ?w1 = (_, _) |- _ =>
             exact (book_new_flow_store env r w1 _ _ Hinv Hst Hb)
         end);
    try exact Hst;
    unfold store_inv in *; mred; destruct_and?; store_solve s.
Qed.

Section StoreFacts.

Variable json_loads : string → option (gmap string pyval).

#[local] Abbreviation route := (route json_loads).
#[local] Abbreviation turn := (turn json_loads).
#[local] Abbreviation effective_intent := (effective_intent json_loads).
#[local] Abbreviation reachable := (reachable json_loads).
#[local] Abbreviation after := (after json_loads).
#[local] Abbreviation detect := (detect_intent_and_extract json_loads).

Lemma turn_store env user_text w :
  engine_inv (STATE w) → store_inv w → store_inv (turn env user_text w).1.
Proof.
  intros Hinv Hst. destruct w as [[dd i t d tm os s c p] bk].
  destruct (turn_cases json_loads env user_text
              (mkWorld (mkState dd i t d tm os s c p) bk)) as
    [(w1 & r & o & Hr & Hh & _) | (Hne & -> & _)].
  - apply route_next in Hr as (_ & _ & _ & _ & _ & ->).
    eapply handlers_store; [| |exact Hh]; [exact Hinv|exact Hst].
  - destruct (route_exit json_loads env user_text _ Hne)
      as [-> | (_ & _ & ->)]; [done|].
    exact Hst.
Qed.

Lemma store_inv_init : store_inv WORLD0.
Proof.
  unfold store_inv. simpl. split_and!; done.
Qed.

Lemma reachable_store w : reachable w → store_inv w.
Proof.
  induction 1 as [|w env user_text Hw IH]; [apply store_inv_init|].
  apply turn_store; [by apply (reachable_inv json_loads)|done].
Qed.

(** X8 — every record of [BOOKINGS], in every world reachable from the
    initial one, is filed under a key of the form [NL-] plus four
    characters among [A-Z0-9] and holds one of the five topics, a slot
    of the catalog and the timezone label. *)
Theorem X8_bookings_are_well_formed (w : World) (code : string) (b : Booking) :
  reachable w →
  BOOKINGS w !! code = Some b →
  booking_ok code b.
Proof.
  intros (_ & _ & _ & _ & _ & H)%reachable_store Hb. by eapply H.
Qed.

(** X9 — in every reachable world, a booking code held by the
    conversation state resolves in [BOOKINGS] to the record of this
    conversation: its topic is the state's topic and its slot the
    state's selected slot. *)
Theorem X9_live_code_resolves (w : World) (code : string) :
  reachable w →
  booking_code (STATE w) = Some code →
  BOOKINGS w !! code
  = Some (mkBooking (topic (STATE w)) (selected_slot (STATE w)) TIMEZONE_LABEL).
Proof.
  intros Hw Hc.
  pose proof (reachable_inv json_loads w Hw) as (_ & _ & _ & _ & Hok & _).
  pose proof (reachable_store w Hw) as (_ & _ & _ & _ & H & _).
  destruct H as (c & Hc' & Hb).
  - apply Hok. by rewrite Hc.
  - congruence.
Qed.

(** X10 — in every reachable world the offer, when there is one, is a
    pair of different catalog slots, and the selected slot, when there
    is one, is one of the two offered. *)
Theorem X10_offer_and_selection (w : World) :
  reachable w →
  opt_all offer_ok (offered_slots (STATE w))
  ∧ opt_all (λ s, ∃ l, offered_slots (STATE w) = Some l ∧ s ∈ l)
      (selected_slot (STATE w)).
Proof. intros (_ & H1 & H2 & _)%reachable_store. done. Qed.

End StoreFacts.

(** ** What a turn does to the stores and to the flags *)

Lemma book_new_flow_frame env r w w' out :
  book_new_flow env r w = (w', out) →
  (BOOKINGS w' = BOOKINGS w
   ∨ (truthy_s (booking_code (STATE w)) = false
      ∧ booking_code (STATE w') = Some (generate_booking_code (rand env))
      ∧ BOOKINGS w'
        = <[generate_booking_code (rand env) :=
              mkBooking (topic (STATE w')) (selected_slot (STATE w'))
                TIMEZONE_LABEL]> (BOOKINGS w))).
Proof.
  destruct w as [[dd i t d tm o s c p] bk].
  unfold book_new_flow, waitlist_flow_reply.
  intros H. mred.
  mexec H; simplify_eq/=; first [by left|by right].
Qed.

Lemma handlers_frame env r w w' out :
  handlers env r w = (w', out) →
  disclaimer_done (STATE w') = disclaimer_done (STATE w)
  ∧ (BOOKINGS w' = BOOKINGS w
     ∨ (truthy_s (booking_code (STATE w)) = false
        ∧ booking_code (STATE w') = Some (generate_booking_code (rand env))
        ∧ BOOKINGS w'
          = <[generate_booking_code (rand env) :=
                mkBooking (topic (STATE w')) (selected_slot (STATE w'))
                  TIMEZONE_LABEL]> (BOOKINGS w))).
Proof.
  destruct w as [[dd i t d tm o s c p] bk].
  unfold handlers, cancel_block, reschedule_block, prepare_block,
    availability_block, default_block.
  intros H. mred.
  mexec H; simplify_eq;
    try (match goal with
         | Hb : book_new_flow _ _ _ = (_, _) |- _ =>
             pose proof (book_new_flow_keeps _ _ _ _ _ Hb)
               as (_ & _ & _ & _ & _ & _ & Hd & _);
             apply book_new_flow_frame in Hb; mred; split; [exact Hd|exact Hb]
         end);
    mred; (split; [done|by left]).
Qed.

Lemma mock_pick_err d t e : mock_pick_two_slots d t = Err e → e = AttributeError.
Proof.
  unfold mock_pick_two_slots, py_lower.
  destruct (py_or t EmptyString); [by intros [= <-]|done|by intros [= <-]].
Qed.

Lemma py_strip_err v e : py_strip v = Err e → e = AttributeError.
Proof. destruct v; [by intros [= <-]|done|by intros [= <-]]. Qed.

Lemma index_of_offer_ok o i :
  truthy_l o = true → opt_all offer_ok o → i < 2 → ∃ s, index_of o i = Ok s.
Proof.
  destruct o as [l|]; [|done]. simpl. intros _ H Hi. by apply index_offer_ok.
Qed.

Ltac raise_facts :=
  repeat match goal with
  | H : mock_pick_two_slots _ _ = Err _ |- _ => apply mock_pick_err in H
  | H : mock_pick_two_slots _ _ = Ok _ |- _ => apply mock_pick_offer_ok in H
  | H : offer_ok ?l, H' : index ?l ?i = Err _ |- _ =>
      destruct (index_offer_ok l i H ltac:(lia)); congruence
  | H : opt_all offer_ok ?o, H' : index_of ?o ?i = Err _, Ht : truthy_l ?o = true
    |- _ =>
      destruct (index_of_offer_ok o i Ht H ltac:(lia)); congruence
  end.

Lemma book_new_flow_raises env r w w' e :
  store_inv w →
  book_new_flow env r w = (w', Raise e) → e = AttributeError.
Proof.
  destruct w as [[dd i t d tm o s c p] bk].
  unfold book_new_flow, waitlist_flow_reply, store_inv.
  intros Hst H. mred. destruct_and?.
  mexec H; simplify_eq/=; saturate; raise_facts; try done.
  all: try (destruct s; simpl in *; [congruence|by exfalso]).
Qed.

Lemma handlers_raises env r w w' e :
  store_inv w →
  handlers env r w = (w', Raise e) → e = AttributeError.
Proof.
  destruct w as [[dd i t d tm o s c p] bk].
  unfold handlers, cancel_block, reschedule_block, prepare_block,
    availability_block, default_block.
  intros Hst H. mred.
  mexec H; simplify_eq;
    try (match goal with
         | Hb : book_new_flow ?env ?r ?w1 = (_, Raise _) |- _ =>
             exact (book_new_flow_raises env r w1 _ _ Hst Hb)
         end);
    raise_facts; done.
Qed.

Section TurnFacts.

Variable json_loads : string → option (gmap string pyval).

#[local] Abbreviation route := (route json_loads).
#[local] Abbreviation turn := (turn json_loads).
#[local] Abbreviation effective_intent := (effective_intent json_loads).
#[local] Abbreviation reachable := (reachable json_loads).
#[local] Abbreviation after := (after json_loads).
#[local] Abbreviation detect := (detect_intent_and_extract json_loads).

Lemma route_raises env user_text w w' e :
  route env user_text w = (w', Raise e) → e = AttributeError.
Proof.
  unfold route.
  destruct (nonempty (strip user_text)); [|discriminate].
  mred. destruct (contains_pii (strip user_text)); [discriminate|].
  destruct (disclaimer_done (STATE w)); [|discriminate].
  mred. destruct (any_in ADVICE_KEYWORDS _); [discriminate|].
  mred. unfold detect_intent_and_extract.
  destruct (negb _ || negb _); mred;
    [|destruct (detect_try _ _ _); mred];
    (destruct (py_strip _) eqn:Hs; mred; [discriminate|];
     intros [= _ <-]; by apply py_strip_err in Hs).
Qed.

Lemma turn_raises env user_text w e :
  store_inv w → (turn env user_text w).2 = Raises e → e = AttributeError.
Proof.
  intros Hst.
  destruct (turn_cases json_loads env user_text w) as
    [(w1 & r & o & Hr & Hh & ->) | (Hne & _ & ->)].
  - apply route_next in Hr as (_ & _ & _ & _ & _ & ->).
    destruct o as [s|s|e']; [done..|]. intros [= <-].
    eapply handlers_raises; [|exact Hh].
    by destruct w as [[dd i t d tm os s c p] bk].
  - destruct (route env user_text w) as [w1 [r|s|e']] eqn:Hr; [done..|].
    intros [= <-]. by eapply route_raises.
Qed.

Lemma turn_frame env user_text w :
  (disclaimer_done (STATE w) = true →
   disclaimer_done (STATE (turn env user_text w).1) = true)
  ∧ (BOOKINGS (turn env user_text w).1 = BOOKINGS w
     ∨ (truthy_s (booking_code (STATE w)) = false
        ∧ booking_code (STATE (turn env user_text w).1)
          = Some (generate_booking_code (rand env))
        ∧ BOOKINGS (turn env user_text w).1
          = <[generate_booking_code (rand env) :=
                mkBooking (topic (STATE (turn env user_text w).1))
                  (selected_slot (STATE (turn env user_text w).1))
                  TIMEZONE_LABEL]> (BOOKINGS w))).
Proof.
  destruct (turn_cases json_loads env user_text w) as
    [(w1 & r & o & Hr & Hh & _) | (Hne & -> & _)].
  - apply route_next in Hr as (_ & _ & _ & _ & _ & ->).
    apply handlers_frame in Hh as (Hd & Hb).
    destruct w as [[dd i t d tm os s c p] bk]. mred.
    split; [congruence|exact Hb].
  - destruct (route_exit json_loads env user_text w Hne)
      as [-> | (_ & _ & ->)]; [by split; [|left]|].
    destruct w as [[dd i t d tm os s c p] bk]. by split; [|left].
Qed.

Lemma turn_dispatch env user_text w i :
  effective_intent env user_text w = Some i →
  passes_gates user_text (STATE w) ∧
  ∃ r o,
    r_intent r = i ∧ r_text r = strip user_text ∧
    r_lower r = lower (strip user_text) ∧
    detect env (strip user_text) (STATE w) = Ok (r_info r) ∧
    handlers env r (mkWorld (set_intent (Some i) (STATE w)) (BOOKINGS w))
    = ((turn env user_text w).1, o) ∧
    (turn env user_text w).2
    = match o with Next s | Return s => Reply s | Raise e => Raises e end.
Proof.
  intros (w1 & r & Hr & Hi)%effective_intent_route.
  destruct (turn_cases json_loads env user_text w) as
    [(w1' & r' & o & Hr' & Hh & Ho) | (Hne & _)];
    [|rewrite Hr in Hne; by destruct (Hne r)].
  rewrite Hr in Hr'. injection Hr' as <- <-.
  apply route_next in Hr as (Hg & Htext & Hlow & Hdet & _ & ->).
  split; [done|]. exists r, o. rewrite Hi in Hh. done.
Qed.

(** X11 — in every world reachable from the initial one the booking
    store holds at most one record: none while the conversation state
    has no booking code, and otherwise exactly the record of the state's
    code, topic and selected slot. *)
Theorem X11_at_most_one_booking (w : World) :
  reachable w →
  match booking_code (STATE w) with
  | Some c =>
      BOOKINGS w
      = {[ c := mkBooking (topic (STATE w)) (selected_slot (STATE w))
                  TIMEZONE_LABEL ]}
  | None => BOOKINGS w = ∅
  end.
Proof.
  induction 1 as [|w env user_text Hw IH]; [done|].
  assert (reachable (turn env user_text w).1) as Hw' by by constructor.
  pose proof (reachable_inv json_loads _ Hw') as (_ & _ & _ & _ & Hok' & _).
  pose proof (reachable_store json_loads _ Hw') as (_ & _ & _ & _ & Hst' & _).
  pose proof (reachable_inv json_loads _ Hw)
    as (_ & _ & _ & _ & Hok & H1 & H2 & H3 & H4 & H5 & _).
  destruct (turn_frame env user_text w) as (_ & Hfr).
  destruct (booking_code (STATE w)) as [c|] eqn:Hc.
  - assert (truthy_s (Some c) = true) as Htc by by apply Hok.
    assert (truthy_s (topic (STATE w)) = true) as Ht
      by (apply H1, H2, H3, H4, H5, Htc).
    destruct (turn_keeps json_loads env user_text w) as (_ & _ & Hk).
    { apply sticky_cases. by right. }
    rewrite Hc in Hk. specialize (Hk Htc). rewrite Hk in Hst', Hok' |- *.
    destruct Hfr as [Hfr | (Hf & _)]; [|congruence].
    destruct (Hst' Htc) as (c' & [= <-] & Hl).
    rewrite Hfr, IH in Hl |- *. rewrite lookup_singleton_eq in Hl.
    by injection Hl as -> ->.
  - destruct Hfr as [Hfr | (_ & Hcode & Hfr)].
    + destruct (booking_code (STATE (turn env user_text w).1)) as [c'|] eqn:Hc';
        [|congruence].
      destruct Hst' as (c'' & _ & Hl); [by apply Hok'|].
      rewrite Hfr, IH in Hl. by rewrite lookup_empty in Hl.
    + rewrite Hcode, Hfr, IH. by rewrite insert_empty.
Qed.

(** X12 — in every reachable world a turn either replies or raises
    [AttributeError] (a value of the extraction result that should be a
    string is not one): indexing the offer, reading the start of the
    selected slot and the other look-ups of the handlers never fail. *)
Theorem X12_turn_raises_only_attribute_error
    (env : Env) (user_text : string) (w : World) :
  reachable w →
  match (turn env user_text w).2 with
  | Reply _ => True
  | Raises e => e = AttributeError
  end.
Proof.
  intros Hw%(reachable_store json_loads).
  destruct (turn env user_text w).2 as [s|e] eqn:Ho; [done|].
  by eapply turn_raises.
Qed.

(** X13 — whatever the world, a turn leaves [BOOKINGS] as it is or adds
    one record to it, filed under the code it has just generated and
    stored in the state, and it adds one only when the state held no
    booking code; no turn, a cancellation included, removes a record. *)
Theorem X13_turn_only_adds_a_booking
    (env : Env) (user_text : string) (w : World) :
  let w' := (turn env user_text w).1 in
  BOOKINGS w' = BOOKINGS w
  ∨ (truthy_s (booking_code (STATE w)) = false
     ∧ booking_code (STATE w') = Some (generate_booking_code (rand env))
     ∧ BOOKINGS w'
       = <[generate_booking_code (rand env) :=
             mkBooking (topic (STATE w')) (selected_slot (STATE w'))
               TIMEZONE_LABEL]> (BOOKINGS w)).
Proof. intros w'. subst w'. apply turn_frame. Qed.

(** X14 — a turn that does not pass the empty-input, PII, disclaimer
    and advice checks is answered without the extraction service and
    the random source: the outcome is the same under any two
    environments, it is a reply, and the turn changes nothing in the
    state but, possibly, the disclaimer flag. *)
Theorem X14_stopped_turn_is_local
    (env env' : Env) (user_text : string) (w : World) :
  ¬ passes_gates user_text (STATE w) →
  let w' := (turn env user_text w).1 in
  turn env user_text w = turn env' user_text w
  ∧ (∃ reply, (turn env user_text w).2 = Reply reply)
  ∧ same_sub_state (STATE w) (STATE w')
  ∧ intent (STATE w') = intent (STATE w)
  ∧ BOOKINGS w' = BOOKINGS w.
Proof.
  unfold passes_gates, same_sub_state, turn, run, next_agent_reply, route, bind.
  intros Hg. destruct w as [[dd i t d tm os s c p] bk]. mred.
  destruct (nonempty (strip user_text)); mred; [|split_and!; eauto].
  destruct (contains_pii (strip user_text)); mred; [split_and!; eauto|].
  destruct dd; mred; [|split_and!; eauto].
  destruct (any_in ADVICE_KEYWORDS _); mred; [split_and!; eauto|].
  by destruct Hg.
Qed.

Lemma after_disclaimer turns : ∀ w,
  disclaimer_done (STATE w) = true →
  disclaimer_done (STATE (after turns w)) = true.
Proof.
  induction turns as [|[env user_text] turns IH]; intros w Hd; [done|].
  rewrite after_cons. apply IH. by apply turn_frame.
Qed.

End TurnFacts.

(** ** The steps of the dialogue *)

Section FlowFacts.

Variable json_loads : string → option (gmap string pyval).

#[local] Abbreviation route := (route json_loads).
#[local] Abbreviation turn := (turn json_loads).
#[local] Abbreviation effective_intent := (effective_intent json_loads).
#[local] Abbreviation reachable := (reachable json_loads).
#[local] Abbreviation after := (after json_loads).
#[local] Abbreviation detect := (detect_intent_and_extract json_loads).

(** A turn that gets as far as the dispatch in a state where the
    booking has started runs the booking flow on the routed text. *)
Lemma turn_book_flow env user_text w i :
  effective_intent env user_text w = Some i →
  sticky (STATE w) = true →
  ∃ info o,
    book_new_flow env
      (mkRouted info (strip user_text) (lower (strip user_text)) "book_new")
      (mkWorld (set_intent (Some "book_new") (STATE w)) (BOOKINGS w))
    = ((turn env user_text w).1, o) ∧
    (turn env user_text w).2
    = match o with Next s | Return s => Reply s | Raise e => Raises e end.
Proof.
  intros Hi Hs.
  pose proof Hi as (w1 & r & Hr & Hri)%effective_intent_route.
  pose proof (route_sticky json_loads _ _ _ _ _ Hs Hr) as Hb.
  rewrite Hri in Hb. subst i.
  apply (turn_dispatch json_loads) in Hi
    as (_ & r' & o & Hint & Htext & Hlow & _ & Hh & Ho).
  rewrite handlers_book_new in Hh by congruence.
  rewrite Hb in Hh.
  exists (r_info r'), o. split; [|done].
  destruct r' as [info tx lo it]. simpl in *. by subst.
Qed.

Ltac flow_rest :=
  match goal with
  | Hb : book_new_flow _ _ _ = (_, _) |- _ =>
      pose proof (book_new_flow_keeps _ _ _ _ _ Hb)
        as (_ & _ & _ & _ & _ & ? & _ & ?);
      simplify_eq; mred; split_and!; [done|done|eexists _, _; eauto]
  end.

(** X15 — a turn dispatched on [reschedule]: without a code on file and
    without a code in the text the engine asks for one and changes
    nothing; with a code found in the text it files the code, clears
    every booking field and asks for topic, day and time; with a code
    already on file it goes on as a new booking, the state's intent
    becoming [book_new].  [BOOKINGS] is not touched by the first two. *)
Theorem X15_reschedule_flow (env : Env) (user_text : string) (w : World) :
  effective_intent env user_text w = Some "reschedule" →
  let w' := (turn env user_text w).1 in
  let out := (turn env user_text w).2 in
  let stored := provided_code (STATE w) in
  let found := extract_booking_code (strip user_text) in
  (truthy_s stored = false → found = None →
     out = Reply ASK_CODE ∧ same_sub_state (STATE w) (STATE w')
     ∧ BOOKINGS w' = BOOKINGS w)
  ∧ (truthy_s stored = false → ∀ code, found = Some code →
     out = Reply (reschedule_got code)
     ∧ provided_code (STATE w') = Some code
     ∧ topic (STATE w') = None ∧ day_pref (STATE w') = PNone
     ∧ time_pref (STATE w') = PNone ∧ offered_slots (STATE w') = None
     ∧ selected_slot (STATE w') = None ∧ booking_code (STATE w') = None
     ∧ BOOKINGS w' = BOOKINGS w)
  ∧ (truthy_s stored = true →
     intent (STATE w') = Some "book_new"
     ∧ provided_code (STATE w') = stored
     ∧ ∃ info o,
         detect env (strip user_text) (STATE w) = Ok info
         ∧ book_new_flow env
             (mkRouted info (strip user_text) (lower (strip user_text))
                "reschedule")
             (mkWorld (set_intent (Some "book_new") (STATE w)) (BOOKINGS w))
           = (w', o)
         ∧ out = match o with
                 | Next s | Return s => Reply s
                 | Raise e => Raises e
                 end).
Proof.
  intros (_ & r & o & Hi & Htext & Hlow & Hdet & Hh & ->)%turn_dispatch
    w' out stored found.
  subst w' out stored found.
  destruct (turn env user_text w).1 as [st' bk'].
  destruct r as [info tx lo it]. simpl in Hi, Htext, Hlow, Hdet. subst tx lo it.
  destruct w as [[dd i t d tm os s c p] bk].
  unfold handlers, cancel_block, reschedule_block, prepare_block,
    availability_block, default_block in Hh. mred.
  cbn [String.eqb Ascii.eqb Bool.eqb] in Hh.
  unfold same_sub_state. mred.
  destruct (extract_booking_code (strip user_text)) as [code|] eqn:Hx.
  - pose proof (extract_booking_code_format _ _ Hx) as Hfmt.
    assert (nonempty code = true) as Hcode by by destruct code.
    split_and!; [done| |]; intros Hp; [intros code' [= <-]|].
    + mexec Hh; simplify_eq/=; done.
    + mexec Hh; try congruence; flow_rest.
  - split_and!; [intros Hp _|done|intros Hp].
    + mexec Hh; simplify_eq/=; done.
    + mexec Hh; try congruence; flow_rest.
Qed.

(** X16 — the choice step.  With topic, day, time and an offer of two
    slots on file and nothing selected, a dispatched turn whose
    lower-cased text contains "1" or "one" selects the first offered
    slot, otherwise one that contains "2" or "two" selects the second,
    and both are asked to confirm; any other text is asked to say
    option 1 or option 2.  The first test wins when both apply, and no
    booking is made at this step. *)
Theorem X16_option_choice
    (env : Env) (user_text : string) (w : World) (i : string) (a b : Slot) :
  effective_intent env user_text w = Some i →
  truthy_s (topic (STATE w)) = true →
  truthy (day_pref (STATE w)) = true →
  truthy (time_pref (STATE w)) = true →
  offered_slots (STATE w) = Some [a; b] →
  selected_slot (STATE w) = None →
  let lo := lower (strip user_text) in
  let w' := (turn env user_text w).1 in
  let out := (turn env user_text w).2 in
  BOOKINGS w' = BOOKINGS w
  ∧ booking_code (STATE w') = booking_code (STATE w)
  ∧ offered_slots (STATE w') = Some [a; b]
  ∧ if contains "1" lo || contains "one" lo then
      selected_slot (STATE w') = Some a
      ∧ out = Reply (confirm_reply (fmt (topic (STATE w))) (start a))
    else if contains "2" lo || contains "two" lo then
      selected_slot (STATE w') = Some b
      ∧ out = Reply (confirm_reply (fmt (topic (STATE w))) (start b))
    else
      selected_slot (STATE w') = None ∧ out = Reply ASK_OPTION.
Proof.
  intros Hi Ht Hd Htm Ho Hs lo w' out. subst lo w' out.
  destruct (turn_book_flow env user_text w i Hi) as (info & o & Hb & ->).
  { apply sticky_cases. by right. }
  destruct (turn env user_text w).1 as [st' bk'].
  destruct w as [[dd i0 t d tm os s c p] bk]. mred. subst os s.
  unfold book_new_flow in Hb. mred.
  destruct (contains "1" _ || contains "one" _);
    [|destruct (contains "2" _ || contains "two" _)];
    mexec Hb; simplify_eq/=;
    repeat match goal with
    | H : index _ _ = Ok _ |- _ => cbv in H; injection H as <-
    end;
    done.
Qed.

(** X17 — the confirmation step.  With a slot selected and no booking
    code, a dispatched turn whose lower-cased text does not contain
    "yes" is taken as a refusal, whatever it says: the selection is
    dropped, the caller is asked again for option 1 or 2, the offer and
    the topic stay and nothing is booked. *)
Theorem X17_no_yes_drops_selection
    (env : Env) (user_text : string) (w : World) (i : string) (slot : Slot) :
  effective_intent env user_text w = Some i →
  truthy_s (topic (STATE w)) = true →
  truthy (day_pref (STATE w)) = true →
  truthy (time_pref (STATE w)) = true →
  truthy_l (offered_slots (STATE w)) = true →
  selected_slot (STATE w) = Some slot →
  truthy_s (booking_code (STATE w)) = false →
  contains "yes" (lower (strip user_text)) = false →
  let w' := (turn env user_text w).1 in
  (turn env user_text w).2 = Reply REPROMPT_OPTION
  ∧ selected_slot (STATE w') = None
  ∧ offered_slots (STATE w') = offered_slots (STATE w)
  ∧ topic (STATE w') = topic (STATE w)
  ∧ booking_code (STATE w') = booking_code (STATE w)
  ∧ BOOKINGS w' = BOOKINGS w.
Proof.
  intros Hi Ht Hd Htm Ho Hs Hc Hyes w'. subst w'.
  destruct (turn_book_flow env user_text w i Hi) as (info & o & Hb & ->).
  { apply sticky_cases. by right. }
  destruct (turn env user_text w).1 as [st' bk'].
  destruct w as [[dd i0 t d tm os s c p] bk]. mred. subst s.
  unfold book_new_flow in Hb. mred.
  mexec Hb; simplify_eq/=; done.
Qed.

(** X18 — a whole request in one turn.  With no topic, day, time or
    offer on file, a turn dispatched on [book_new] whose extraction
    result carries one of the five topics, a truthy day and a non-empty
    time string files the three of them, offers the two slots the
    selector picks for that time, and selects and books nothing. *)
Theorem X18_request_in_one_turn
    (env : Env) (user_text : string) (w : World)
    (info : gmap string pyval) (topic_ time_ : string) :
  effective_intent env user_text w = Some "book_new" →
  detect env (strip user_text) (STATE w) = Ok info →
  truthy_s (topic (STATE w)) = false →
  truthy (day_pref (STATE w)) = false →
  truthy (time_pref (STATE w)) = false →
  truthy_l (offered_slots (STATE w)) = false →
  dict_get info "topic" = PStr topic_ → topic_ ∈ TOPICS →
  truthy (dict_get info "day_preference") = true →
  dict_get info "time_preference" = PStr time_ → nonempty time_ = true →
  let w' := (turn env user_text w).1 in
  ∃ s0 s1,
    mock_pick_two_slots (dict_get info "day_preference") (PStr time_)
    = Ok [s0; s1]
    ∧ topic (STATE w') = Some topic_
    ∧ day_pref (STATE w') = dict_get info "day_preference"
    ∧ time_pref (STATE w') = PStr time_
    ∧ offered_slots (STATE w') = Some [s0; s1]
    ∧ selected_slot (STATE w') = selected_slot (STATE w)
    ∧ booking_code (STATE w') = booking_code (STATE w)
    ∧ BOOKINGS w' = BOOKINGS w
    ∧ (turn env user_text w).2 = Reply (offer_reply (start s0) (start s1)).
Proof.
  intros (_ & r & o & Hi & Htext & Hlow & Hdet & Hh & ->)%turn_dispatch
    Hdet' Ht Hd Htm Ho Htop Hin Hday Htime Hne w'.
  subst w'. rewrite Hdet in Hdet'. injection Hdet' as Hinfo.
  rewrite handlers_book_new in Hh by done.
  destruct (turn env user_text w).1 as [st' bk'].
  destruct r as [info' tx lo it]. simpl in Hi, Htext, Hlow, Hinfo.
  subst tx lo it info'.
  destruct w as [[dd i t d tm os s c p] bk]. mred.
  assert (in_topics (dict_get info "topic") = Some topic_) as Hit.
  { rewrite Htop. unfold in_topics. by rewrite bool_decide_eq_true_2. }
  destruct (mock_pick_two_slots (dict_get info "day_preference") (PStr time_))
    as [l|e] eqn:Hpick.
  2:{ unfold mock_pick_two_slots, py_or in Hpick. cbn [truthy] in Hpick.
      by rewrite Hne in Hpick. }
  pose proof (mock_pick_offer_ok _ _ _ Hpick) as (s0 & s1 & -> & _).
  exists s0, s1. split; [done|].
  unfold book_new_flow in Hh. mred.
  rewrite Ht in Hh. mred. rewrite Hit in Hh.
  mexec Hh; rewrite ?Htime in *; rewrite ?Hpick in *; cbn [truthy] in *;
    simplify_eq/=;
    try congruence;
    repeat match goal with
    | H : index _ _ = _ |- _ => cbv in H; simplify_eq
    | H : negb (bool_decide ([_; _] ≠ [])) || _ = true |- _ =>
        rewrite bool_decide_eq_true_2 in H by done; discriminate
    end;
    done.
Qed.

(** X19 — a turn dispatched on [what_to_prepare] or on
    [check_availability] records the intent and changes nothing else:
    no field of the booking is filled, so no booking is started, and
    [BOOKINGS] is left alone.  A [what_to_prepare] turn always
    replies. *)
Theorem X19_prepare_and_availability_only_read
    (env : Env) (user_text : string) (w : World) (i : string) :
  effective_intent env user_text w = Some i →
  i = "what_to_prepare" ∨ i = "check_availability" →
  (turn env user_text w).1
  = mkWorld (set_intent (Some i) (STATE w)) (BOOKINGS w)
  ∧ (i = "what_to_prepare" → ∃ reply, (turn env user_text w).2 = Reply reply).
Proof.
  intros (_ & r & o & Hi & Htext & Hlow & Hdet & Hh & ->)%turn_dispatch Hor.
  destruct (turn env user_text w).1 as [st' bk'].
  destruct r as [info tx lo it]. simpl in Hi, Htext, Hlow, Hdet. subst tx lo it.
  destruct w as [[dd i0 t d tm os s c p] bk].
  unfold handlers, cancel_block, reschedule_block, prepare_block,
    availability_block, default_block in Hh. mred.
  destruct Hor as [-> | ->]; cbn [String.eqb Ascii.eqb Bool.eqb] in Hh;
    mexec Hh; simplify_eq/=; (split; [done|]); first [by eauto|done].
Qed.

(** X20 — a turn dispatched on an intent that is none of the five the
    engine handles (such as [other]) is answered with the menu, and
    only the intent is recorded, unless its lower-cased text contains
    "book", "appointment" or "slot": then the intent becomes [book_new]
    and the turn goes on in the booking flow. *)
Theorem X20_other_intent_menu_or_booking
    (env : Env) (user_text : string) (w : World) (i : string) :
  effective_intent env user_text w = Some i →
  i ∉ ["cancel"; "reschedule"; "what_to_prepare"; "check_availability";
       "book_new"] →
  let lo := lower (strip user_text) in
  let w' := (turn env user_text w).1 in
  let out := (turn env user_text w).2 in
  if contains "book" lo || contains "appointment" lo || contains "slot" lo
  then
    intent (STATE w') = Some "book_new"
    ∧ ∃ info o,
        detect env (strip user_text) (STATE w) = Ok info
        ∧ book_new_flow env (mkRouted info (strip user_text) lo i)
            (mkWorld (set_intent (Some "book_new") (STATE w)) (BOOKINGS w))
          = (w', o)
        ∧ out = match o with
                | Next s | Return s => Reply s
                | Raise e => Raises e
                end
  else
    w' = mkWorld (set_intent (Some i) (STATE w)) (BOOKINGS w)
    ∧ out = Reply MENU.
Proof.
  intros (_ & r & o & Hi & Htext & Hlow & Hdet & Hh & ->)%turn_dispatch
    Hnot lo w' out.
  subst lo w' out.
  rewrite !not_elem_of_cons in Hnot.
  destruct Hnot as (H1 & H2 & H3 & H4 & H5 & _).
  apply String.eqb_neq in H1, H2, H3, H4, H5.
  destruct (turn env user_text w).1 as [st' bk'].
  destruct r as [info tx lo it]. simpl in Hi, Htext, Hlow, Hdet. subst tx lo it.
  destruct w as [[dd i0 t d tm os s c p] bk].
  unfold handlers, cancel_block, reschedule_block, prepare_block,
    availability_block, default_block in Hh. mred.
  rewrite H1, H2 in Hh. mred. rewrite H3 in Hh. mred.
  rewrite H4 in Hh. mred. rewrite H5 in Hh. mred.
  destruct (contains "book" _ || contains "appointment" _ || contains "slot" _).
  - mexec Hh;
      match goal with
      | Hb : book_new_flow _ _ _ = (_, _) |- _ =>
          pose proof (book_new_flow_keeps _ _ _ _ _ Hb)
            as (_ & _ & _ & _ & _ & _ & _ & ?);
          simplify_eq; mred; split; [done|eexists _, _; eauto]
      end.
  - mexec Hh; simplify_eq/=; done.
Qed.

End FlowFacts.

(** ** The disclaimer *)

Lemma book_new_flow_head env r w w' o :
  book_new_flow env r w = (w', o) →
  match o with
  | Next s | Return s => String.prefix "H" s = false
  | Raise _ => True
  end.
Proof.
  destruct w as [[dd i t d tm os s c p] bk].
  unfold book_new_flow, waitlist_flow_reply.
  intros H. mred.
  mexec H; simplify_eq; first [exact I | vm_compute; reflexivity].
Qed.

Lemma handlers_head env r w w' o :
  handlers env r w = (w', o) →
  match o with
  | Next s | Return s => String.prefix "H" s = false
  | Raise _ => True
  end.
Proof.
  destruct w as [[dd i t d tm os s c p] bk].
  unfold handlers, cancel_block, reschedule_block, prepare_block,
    availability_block, default_block.
  intros H. mred.
  mexec H;
    try match goal with
        | Hb : book_new_flow _ _ _ = (_, _) |- _ =>
            apply book_new_flow_head in Hb
        end;
    simplify_eq; first [assumption | exact I | vm_compute; reflexivity].
Qed.

Section DisclaimerFacts.

Variable json_loads : string → option (gmap string pyval).

#[local] Abbreviation route := (route json_loads).
#[local] Abbreviation turn := (turn json_loads).
#[local] Abbreviation after := (after json_loads).

Lemma route_head env user_text w w' s :
  disclaimer_done (STATE w) = true →
  route env user_text w = (w', Return s) → String.prefix "H" s = false.
Proof.
  unfold route. intros Hd.
  destruct (nonempty (strip user_text));
    [|intros [= _ <-]; vm_compute; reflexivity].
  mred. destruct (contains_pii (strip user_text));
    [intros [= _ <-]; vm_compute; reflexivity|].
  rewrite Hd.
  mred. destruct (any_in ADVICE_KEYWORDS _);
    [intros [= _ <-]; vm_compute; reflexivity|].
  mred. destruct (detect_intent_and_extract _ _ _ _) as [info|]; [|discriminate].
  mred. destruct (py_strip _) as [i|]; discriminate.
Qed.

Lemma turn_head env user_text w s :
  disclaimer_done (STATE w) = true →
  (turn env user_text w).2 = Reply s → String.prefix "H" s = false.
Proof.
  intros Hd.
  destruct (turn_cases json_loads env user_text w) as
    [(w1 & r & o & Hr & Hh & ->) | (Hne & _ & ->)].
  - apply handlers_head in Hh. destruct o; [by intros [= <-]..|done].
  - destruct (route env user_text w) as [w1 [r|s'|e]] eqn:Hr.
    + by destruct (Hne r).
    + intros [= <-]. by eapply route_head.
    + done.
Qed.

(** X21 — the disclaimer is given once per process.  Once the
    disclaimer flag is set, no conversation, of whatever length and
    whatever happens in it, clears the flag, and no later turn is
    answered with the disclaimer again. *)
Theorem X21_disclaimer_given_once
    (w : World) (turns : list (Env * string)) (env : Env) (user_text : string) :
  disclaimer_done (STATE w) = true →
  disclaimer_done (STATE (after turns w)) = true
  ∧ (turn env user_text (after turns w)).2 ≠ Reply DISCLAIMER.
Proof.
  intros Hd%(after_disclaimer json_loads turns). split; [done|].
  intros H. by apply (turn_head _ _ _ _ Hd) in H.
Qed.

End DisclaimerFacts.

(** ** The endpoints *)

Lemma lstrip_idem l : lstrip_l (lstrip_l l) = lstrip_l l.
Proof.
  induction l as [|c l IH]; [done|]. simpl.
  destruct (is_space c) eqn:E; [done|]. simpl. by rewrite E.
Qed.

Lemma lstrip_snoc_visible x c :
  is_space c = false → lstrip_l (x ++ [c]) = lstrip_l x ++ [c].
Proof.
  intros Hc. induction x as [|a x IH]; simpl; [by rewrite Hc|].
  by destruct (is_space a).
Qed.

Lemma rstrip_idem l : rstrip_l (rstrip_l l) = rstrip_l l.
Proof. unfold rstrip_l. by rewrite rev_involutive, lstrip_idem. Qed.

Lemma lstrip_length l : length (lstrip_l l) ≤ length l.
Proof.
  induction l as [|c l IH]; simpl; [done|].
  destruct (is_space c); simpl; lia.
Qed.

Lemma lstrip_rstrip l : lstrip_l l = l → lstrip_l (rstrip_l l) = rstrip_l l.
Proof.
  destruct l as [|c l]; [done|]. simpl.
  destruct (is_space c) eqn:E.
  - intros H. pose proof (lstrip_length l) as Hl. rewrite H in Hl. simpl in Hl. lia.
  - intros _. unfold rstrip_l. simpl rev.
    rewrite lstrip_snoc_visible by done. rewrite rev_unit. simpl. by rewrite E.
Qed.

Lemma strip_l_idem l : strip_l (strip_l l) = strip_l l.
Proof.
  unfold strip_l.
  rewrite (lstrip_rstrip (lstrip_l l)) by apply lstrip_idem.
  apply rstrip_idem.
Qed.

Lemma strip_idem s : strip (strip s) = strip s.
Proof. unfold strip. by rewrite chars_text, strip_l_idem. Qed.

Lemma strip_blank s :
  Forall (λ c, is_space c = true) (chars s) → strip s = EmptyString.
Proof.
  unfold strip, strip_l. intros H.
  assert (lstrip_l (chars s) = []) as ->.
  { induction H as [|c l Hc _ IH]; [done|]. simpl. by rewrite Hc. }
  done.
Qed.

Section ApiFacts.

Variable json_loads : string → option (gmap string pyval).

#[local] Abbreviation route := (route json_loads).
#[local] Abbreviation turn := (turn json_loads).
#[local] Abbreviation reachable := (reachable json_loads).
#[local] Abbreviation text_turn := (text_turn json_loads).
#[local] Abbreviation voice_turn := (voice_turn json_loads).

Lemma turn_strip env user_text w :
  turn env (strip user_text) w = turn env user_text w.
Proof.
  unfold turn, next_agent_reply, route. by rewrite strip_idem.
Qed.

Lemma turn_empty env w : turn env EmptyString w = (w, Reply SORRY).
Proof. done. Qed.

(** X22 — the text endpoint.  A payload whose [text] is a string is
    answered like a turn of the engine on that string, and the
    transcript sent back is the string without its surrounding blanks;
    a payload without [text], or with a [text] that is [None] or
    another falsy value, is asked to repeat and changes nothing; any
    other [text] fails with [AttributeError] and changes nothing. *)
Theorem X22_text_turn (payload : gmap string pyval) (env : Env) (w : World) :
  text_turn payload env w
  = match dict_get payload "text" with
    | PStr t =>
        ((turn env t w).1,
         match (turn env t w).2 with
         | Reply r => Http200 (mkTurnBody (strip t) r)
         | Raises e => Http500 e
         end)
    | PNone | POther false => (w, Http200 (mkTurnBody EmptyString SORRY))
    | POther true => (w, Http500 AttributeError)
    end.
Proof.
  unfold text_turn, py_or.
  destruct (dict_get payload "text") as [|t|[]]; cbn [truthy];
    unfold py_strip.
  - change (strip EmptyString) with EmptyString. by rewrite turn_empty.
  - destruct (nonempty t) eqn:Hne.
    + rewrite turn_strip. by destruct (turn env t w) as [w' []].
    + apply nonempty_false in Hne as ->.
      change (strip EmptyString) with EmptyString. by rewrite turn_empty.
  - done.
  - change (strip EmptyString) with EmptyString. by rewrite turn_empty.
Qed.

(** X23 — the voice endpoint when nothing could be transcribed.  If the
    upload was saved but reading it back fails, or the transcription
    call raises, or it answers without text or with blank text, the
    endpoint replies with status 200, an empty transcript and the
    request to repeat, and the conversation state does not change; in
    particular such a turn does not use up the disclaimer. *)
Theorem X23_voice_turn_without_transcript
    (venv : VoiceEnv) (env : Env) (w : World) :
  save_ok venv = true →
  (read_back venv = None
   ∨ ∃ audio_bytes, read_back venv = Some audio_bytes
       ∧ (stt venv audio_bytes = SvcRaises
          ∨ stt venv audio_bytes = SvcText None
          ∨ ∃ t, stt venv audio_bytes = SvcText (Some t)
                 ∧ Forall (λ c, is_space c = true) (chars t))) →
  transcribe venv = EmptyString
  ∧ voice_turn venv env w = (w, Http200 (mkTurnBody EmptyString SORRY)).
Proof.
  intros Hs H.
  assert (transcribe venv = EmptyString) as Ht.
  { unfold transcribe.
    destruct H as [-> | (b & -> & [-> | [-> | (t & -> & Hb)]])]; try done.
    simpl. by apply strip_blank. }
  split; [done|].
  unfold voice_turn. rewrite Hs, Ht. cbn [negb]. by rewrite turn_empty.
Qed.

(** X24 — the details endpoint stores the contact before it looks the
    booking up.  A request without a booking code or without an e-mail
    address is refused and nothing is stored; a request with both whose
    code is not in [BOOKINGS] is refused as well, but its contact
    details have been stored under that code. *)
Theorem X24_secure_details_refusals
    (d : Details) (bookings : gmap string Booking) (store : gmap string Contact) :
  (truthy_s (d_booking_code d) = false ∨ truthy_s (d_email d) = false →
   secure_details d bookings store = (store, Ok (DetailsError REQUIRED_ERROR)))
  ∧ (∀ code email,
       d_booking_code d = Some code → d_email d = Some email →
       nonempty code = true → nonempty email = true →
       bookings !! code = None →
       secure_details d bookings store
       = (<[code := mkContact email (d_phone d) (d_notes d)]> store,
          Ok (DetailsError (unknown_code_error code)))).
Proof.
  unfold secure_details. split.
  - destruct (d_booking_code d) as [c|], (d_email d) as [e|]; simpl;
      intros [H|H]; try done; rewrite H; simpl; by rewrite ?orb_true_r.
  - intros code email -> -> -> -> ->. done.
Qed.

(** X25 — in every reachable world the details endpoint does not fail
    on a request whose four fields are each absent, [None] or a string
    ([typed_request]): whatever the code in it, it answers with an
    error message or with the three payloads, since every record of
    [BOOKINGS] holds a slot. *)
Theorem X25_secure_details_never_raises
    (w : World) (payload : gmap string pyval) (d : Details)
    (store : gmap string Contact) :
  reachable w →
  typed_request payload = Some d →
  ∃ reply, (secure_details d (BOOKINGS w) store).2 = Ok reply.
Proof.
  intros (_ & _ & _ & _ & _ & Hall)%(reachable_store json_loads) _.
  unfold secure_details.
  destruct (d_booking_code d) as [c|]; [|by eexists].
  destruct (d_email d) as [e|]; [|by eexists].
  destruct (negb (nonempty c) || negb (nonempty e)); [by eexists|].
  destruct (BOOKINGS w !! c) as [b|] eqn:Hb; [|by eexists].
  apply Hall in Hb as (_ & _ & (s & -> & _) & _). by eexists.
Qed.

(** X26 — the engine and the details endpoint fit together.  In every
    reachable world, a request that carries the booking code held by
    the conversation state and a non-empty e-mail address stores the
    contact and gets the three payloads, built from the topic and the
    slot the caller confirmed. *)
Theorem X26_secure_details_of_live_booking
    (w : World) (d : Details) (store : gmap string Contact)
    (code email : string) :
  reachable w →
  booking_code (STATE w) = Some code →
  d_booking_code d = Some code →
  d_email d = Some email → nonempty email = true →
  ∃ slot,
    selected_slot (STATE w) = Some slot
    ∧ secure_details d (BOOKINGS w) store
      = (<[code := mkContact email (d_phone d) (d_notes d)]> store,
         Ok (DetailsOk
               (mkCalendarHold (hold_title (fmt (topic (STATE w))) code)
                  (start slot) TIMEZONE_LABEL "tentative")
               (mkNotesEntry (start slot) (topic (STATE w)) (slot_id slot)
                  code email)
               (mkEmailDraft true "advisor-team@example.com"
                  (draft_subject (fmt (topic (STATE w))) code)
                  (draft_body code (fmt (topic (STATE w))) (start slot) email
                     (or_s (d_phone d) "Not provided")
                     (or_s (d_notes d) "—"))))).
Proof.
  intros Hw Hc Hd He Hne.
  pose proof (reachable_inv json_loads w Hw)
    as (_ & _ & _ & _ & Hok & _ & _ & _ & _ & Hsel & _).
  pose proof (reachable_store json_loads w Hw) as (_ & _ & _ & _ & Hlive & _).
  assert (truthy_s (booking_code (STATE w)) = true) as Htc.
  { apply Hok. by rewrite Hc. }
  destruct (Hsel Htc) as [slot Hslot]. exists slot. split; [done|].
  destruct (Hlive Htc) as (c' & Hc' & Hb).
  rewrite Hc in Hc'. injection Hc' as <-.
  rewrite Hc in Htc. simpl in Htc.
  unfold secure_details. rewrite Hd, He, Htc, Hne, Hb. cbn [negb orb bk_slot bk_topic].
  by rewrite Hslot.
Qed.

End ApiFacts.

(** ** The further properties on concrete inputs *)

Lemma X6_witness : is_booking_code "NL-A742" = true.
Proof.
  destruct (X6_booking_code_round_trip (λ _, 0) "cancel nl-a742 please" "NL-A742")
    as (_ & _ & H).
  apply H. vm_compute. reflexivity.
Defined.

Lemma X8_witness :
  booking_ok "NL-4BIP" (mkBooking (Some "KYC/Onboarding") (Some SLOT_102) "IST").
Proof.
  apply (X8_bookings_are_well_formed FlatJson.loads BOOKED).
  - apply reachable_BOOKED.
  - vm_compute. reflexivity.
Defined.

Lemma X9_witness :
  BOOKINGS BOOKED !! "NL-4BIP"
  = Some (mkBooking (topic (STATE BOOKED)) (selected_slot (STATE BOOKED))
            TIMEZONE_LABEL).
Proof.
  apply (X9_live_code_resolves FlatJson.loads BOOKED).
  - apply reachable_BOOKED.
  - vm_compute. reflexivity.
Defined.

Lemma X10_witness :
  opt_all offer_ok (offered_slots (STATE SELECTED))
  ∧ opt_all (λ s, ∃ l, offered_slots (STATE SELECTED) = Some l ∧ s ∈ l)
      (selected_slot (STATE SELECTED)).
Proof.
  apply (X10_offer_and_selection FlatJson.loads SELECTED), reachable_SELECTED.
Defined.

Lemma X11_witness :
  match booking_code (STATE BOOKED) with
  | Some c =>
      BOOKINGS BOOKED
      = {[ c := mkBooking (topic (STATE BOOKED)) (selected_slot (STATE BOOKED))
                  TIMEZONE_LABEL ]}
  | None => BOOKINGS BOOKED = ∅
  end.
Proof.
  apply (X11_at_most_one_booking FlatJson.loads BOOKED), reachable_BOOKED.
Defined.

Lemma X12_witness :
  match (turn FlatJson.loads (says_intent "7") "thanks" BOOKED).2 with
  | Reply _ => True
  | Raises e => e = AttributeError
  end.
Proof.
  apply (X12_turn_raises_only_attribute_error FlatJson.loads
           (says_intent "7") "thanks" BOOKED), reachable_BOOKED.
Defined.

Lemma X14_witness :
  turn FlatJson.loads service_down "should I buy more units?" SELECTED
  = turn FlatJson.loads (says_intent (jstr "cancel")) "should I buy more units?"
      SELECTED.
Proof.
  refine (proj1 (X14_stopped_turn_is_local FlatJson.loads service_down
                   (says_intent (jstr "cancel")) "should I buy more units?"
                   SELECTED _)).
  intros (_ & _ & _ & H). vm_compute in H. discriminate.
Defined.

Lemma X15_witness :
  (turn FlatJson.loads service_down "reschedule NL-A742" GREETED).2
  = Reply (reschedule_got "NL-A742")
  ∧ provided_code
      (STATE (turn FlatJson.loads service_down "reschedule NL-A742" GREETED).1)
    = Some "NL-A742".
Proof.
  destruct (X15_reschedule_flow FlatJson.loads service_down
              "reschedule NL-A742" GREETED) as (_ & H & _).
  - vm_compute. reflexivity.
  - edestruct H as (H1 & H2 & _).
    + vm_compute. reflexivity.
    + vm_compute. reflexivity.
    + split; [exact H1|exact H2].
Defined.

Lemma X16_witness :
  selected_slot
    (STATE (turn FlatJson.loads service_down "option 2 at 11" OFFERED).1)
  = Some SLOT_101.
Proof.
  pose proof (X16_option_choice FlatJson.loads service_down "option 2 at 11"
                OFFERED "book_new" SLOT_101 SLOT_102) as H.
  vm_compute in H. vm_compute.
  apply H; reflexivity.
Defined.

Lemma X17_witness :
  (turn FlatJson.loads service_down "yeah, correct" SELECTED).2
  = Reply REPROMPT_OPTION
  ∧ selected_slot
      (STATE (turn FlatJson.loads service_down "yeah, correct" SELECTED).1)
    = None.
Proof.
  destruct (X17_no_yes_drops_selection FlatJson.loads service_down
              "yeah, correct" SELECTED "book_new" SLOT_102)
    as (H1 & H2 & _); try (vm_compute; reflexivity).
  split; [exact H1|exact H2].
Defined.

Lemma X18_witness :
  ∃ s0 s1,
    offered_slots
      (STATE (turn FlatJson.loads service_down
                "I want to book a KYC appointment tomorrow evening" GREETED).1)
    = Some [s0; s1]
    ∧ (turn FlatJson.loads service_down
         "I want to book a KYC appointment tomorrow evening" GREETED).2
      = Reply (offer_reply (start s0) (start s1)).
Proof.
  destruct (X18_request_in_one_turn FlatJson.loads service_down
              "I want to book a KYC appointment tomorrow evening" GREETED
              (mk_info "book_new" (Some "KYC/Onboarding") (Some "tomorrow")
                 (Some "evening"))
              "KYC/Onboarding" "evening")
    as (s0 & s1 & _ & _ & _ & _ & H1 & _ & _ & _ & H2);
    try (vm_compute; reflexivity).
  - apply list_elem_of_here.
  - exists s0, s1. split; [exact H1|exact H2].
Defined.

Lemma X19_witness :
  (turn FlatJson.loads service_down "what should I prepare?" GREETED).1
  = mkWorld (set_intent (Some "what_to_prepare") (STATE GREETED))
      (BOOKINGS GREETED).
Proof.
  apply (X19_prepare_and_availability_only_read FlatJson.loads service_down
           "what should I prepare?" GREETED "what_to_prepare").
  - vm_compute. reflexivity.
  - by left.
Defined.

Lemma X20_witness :
  (turn FlatJson.loads service_down "hello there" GREETED).2 = Reply MENU.
Proof.
  assert ("other" ∉ ["cancel"; "reschedule"; "what_to_prepare";
                     "check_availability"; "book_new"]) as Hn.
  { rewrite !not_elem_of_cons. split_and!; try discriminate.
    apply not_elem_of_nil. }
  assert (effective_intent FlatJson.loads service_down "hello there" GREETED
          = Some "other") as He by (vm_compute; reflexivity).
  pose proof (X20_other_intent_menu_or_booking FlatJson.loads service_down
                "hello there" GREETED "other" He Hn) as H.
  vm_compute in H. vm_compute. apply H.
Defined.

Lemma X21_witness :
  disclaimer_done
    (STATE (after FlatJson.loads [(service_down, "cancel NL-A742")] GREETED))
  = true
  ∧ (turn FlatJson.loads service_down "hello"
       (after FlatJson.loads [(service_down, "cancel NL-A742")] GREETED)).2
    ≠ Reply DISCLAIMER.
Proof.
  apply (X21_disclaimer_given_once FlatJson.loads GREETED
           [(service_down, "cancel NL-A742")] service_down "hello").
  vm_compute. reflexivity.
Defined.

Lemma X23_witness :
  voice_turn FlatJson.loads (mkVoiceEnv true None (λ _, SvcRaises))
    service_down WORLD0
  = (WORLD0, Http200 (mkTurnBody EmptyString SORRY)).
Proof.
  apply (X23_voice_turn_without_transcript FlatJson.loads
           (mkVoiceEnv true None (λ _, SvcRaises)) service_down WORLD0).
  - reflexivity.
  - left. reflexivity.
Defined.

Lemma X24_witness :
  secure_details (mkDetails (Some "NL-ZZZZ") (Some "a@b.co") None None) ∅ ∅
  = ({["NL-ZZZZ" := mkContact "a@b.co" None None]},
     Ok (DetailsError (unknown_code_error "NL-ZZZZ"))).
Proof.
  destruct (X24_secure_details_refusals
              (mkDetails (Some "NL-ZZZZ") (Some "a@b.co") None None) ∅ ∅)
    as (_ & H).
  rewrite (H "NL-ZZZZ" "a@b.co"); reflexivity.
Defined.

Lemma X25_witness :
  ∃ reply,
    (secure_details (mkDetails (Some "NL-4BIP") (Some "a@b.co") None None)
       (BOOKINGS BOOKED) ∅).2
    = Ok reply.
Proof.
  apply (X25_secure_details_never_raises FlatJson.loads BOOKED
           (<["booking_code" := PStr "NL-4BIP"]>
              (<["email" := PStr "a@b.co"]> ∅))).
  - apply reachable_BOOKED.
  - vm_compute. reflexivity.
Defined.

Lemma X26_witness :
  ∃ slot,
    selected_slot (STATE BOOKED) = Some slot
    ∧ secure_details (mkDetails (Some "NL-4BIP") (Some "a@b.co") None None)
        (BOOKINGS BOOKED) ∅
      = (<["NL-4BIP" := mkContact "a@b.co" None None]> ∅,
         Ok (DetailsOk
               (mkCalendarHold
                  (hold_title (fmt (topic (STATE BOOKED))) "NL-4BIP")
                  (start slot) TIMEZONE_LABEL "tentative")
               (mkNotesEntry (start slot) (topic (STATE BOOKED)) (slot_id slot)
                  "NL-4BIP" "a@b.co")
               (mkEmailDraft true "advisor-team@example.com"
                  (draft_subject (fmt (topic (STATE BOOKED))) "NL-4BIP")
                  (draft_body "NL-4BIP" (fmt (topic (STATE BOOKED)))
                     (start slot) "a@b.co"
                     (or_s None "Not provided") (or_s None "—"))))).
Proof.
  apply (X26_secure_details_of_live_booking FlatJson.loads BOOKED
           (mkDetails (Some "NL-4BIP") (Some "a@b.co") None None) ∅
           "NL-4BIP" "a@b.co").
  - apply reachable_BOOKED.
  - vm_compute. reflexivity.
  - reflexivity.
  - reflexivity.
  - reflexivity.
Defined.
